(** * PostgreSQL spike analysis: metrics extraction and period comparison

    A shallow embedding of [analyze_pg_spike.py] and
    [compare_leader_replica.py], and the properties of their extraction and
    comparison steps.

    Conventions of the embedding.
    - JSON numbers are exact rationals ([Q]); integer counts read from the
      input are [Z].  Python's float rounding is not modelled.
    - Strings are sequences of characters with code points below 256.
    - A JSON object is a record with one optional field per key; [None]
      is an absent key, so that [d.get(k, default)] is [default] on [None]
      and [d[k]] raises [KeyError] on it.  A key that is present holds a
      value of the type the data model gives it (a string or a number,
      never [null]).
    - Python exceptions are the [Raise] results of the [result] monad.
    - The text of a report (f-strings) is not modelled: the comparison
      returns the values each report line is formatted from. *)

From Stdlib Require Import Ascii String QArith Qabs Lqa.
From stdpp Require Import gmap strings list sorting.
Close Scope Q_scope.
#[local] Set Warnings "-clear-no-such-hyp".
Local Open Scope string_scope.
Local Open Scope list_scope.

(** ** Python exceptions and results *)

Inductive exn : Set :=
| KeyError | TypeError | ValueError | IndexError | StatisticsError | ZeroDivisionError.

Inductive result (A : Type) : Type :=
| Ok (a : A)
| Raise (e : exn).
Arguments Ok {A} a.
Arguments Raise {A} e.

#[global] Instance result_ret : MRet result := fun _ a => Ok a.
#[global] Instance result_bind : MBind result := fun _ _ f m =>
  match m with Ok a => f a | Raise e => Raise e end.

(** [d[k]] on a record field: [KeyError] when the key is absent. *)
Definition subscript {A} (field : option A) : result A :=
  match field with Some a => Ok a | None => Raise KeyError end.

(** [[f(s) for s in l]], stopping at the first exception. *)
Fixpoint comprehension {A B} (f : A → result B) (l : list A) : result (list B) :=
  match l with
  | [] => Ok []
  | x :: r => y ← f x; ys ← comprehension f r; Ok (y :: ys)
  end.

(** Truth value of a list: empty is false. *)
Definition nonempty {A} (l : list A) : bool :=
  match l with [] => false | _ => true end.

(** ** Numbers *)

Definition Qltb (x y : Q) : bool := negb (Qle_bool y x).

Definition Qsum (l : list Q) : Q := foldr Qplus 0%Q l.

Definition Qlen {A} (l : list A) : Q := inject_Z (Z.of_nat (length l)).

(** [min(l)] and [max(l)]: the first smallest (largest) element;
    [ValueError] on an empty list. *)
Definition py_min (l : list Q) : result Q :=
  match l with
  | [] => Raise ValueError
  | x :: r => Ok (fold_left (fun m y => if Qltb y m then y else m) r x)
  end.

Definition py_max (l : list Q) : result Q :=
  match l with
  | [] => Raise ValueError
  | x :: r => Ok (fold_left (fun m y => if Qltb m y then y else m) r x)
  end.

(** [statistics.mean]. *)
Definition mean (l : list Q) : result Q :=
  match l with
  | [] => Raise StatisticsError
  | _ => Ok (Qsum l / Qlen l)%Q
  end.

(** Stable insertion sort by a rational key; [sort_desc] is
    [sorted(l, key=key, reverse=True)], [sort_asc] is [sorted(l, key=key)]. *)
Section Sorting.
Context {A : Type} (key : A → Q).

Fixpoint insert_desc (x : A) (l : list A) : list A :=
  match l with
  | [] => [x]
  | y :: r => if Qltb (key x) (key y) then y :: insert_desc x r else x :: l
  end.

Definition sort_desc (l : list A) : list A := foldr insert_desc [] l.

Fixpoint insert_asc (x : A) (l : list A) : list A :=
  match l with
  | [] => [x]
  | y :: r => if Qltb (key y) (key x) then y :: insert_asc x r else x :: l
  end.

Definition sort_asc (l : list A) : list A := foldr insert_asc [] l.
End Sorting.

(** [statistics.median]: the middle element of the sorted data, or the
    mean of the two middle elements. *)
Definition median (l : list Q) : result Q :=
  let data := sort_asc id l in
  let n := length data in
  match n with
  | 0 => Raise StatisticsError
  | _ =>
      if Nat.odd n then Ok (nth (n / 2) data 0%Q)
      else Ok ((nth (n / 2 - 1) data 0%Q + nth (n / 2) data 0%Q) / 2)%Q
  end.

(** Float division: [ZeroDivisionError] on a zero divisor. *)
Definition py_div (a b : Q) : result Q :=
  if Qeq_bool b 0 then Raise ZeroDivisionError else Ok (a / b)%Q.

(** ** Strings *)

(** [str.isspace] on the code points below 256. *)
Definition is_space (c : ascii) : bool :=
  existsb (Nat.eqb (nat_of_ascii c)) [9; 10; 11; 12; 13; 28; 29; 30; 31; 32; 133; 160]%nat.

(** [s[:n]]. *)
Fixpoint str_take (n : nat) (s : string) : string :=
  match n, s with
  | S n', String c r => String c (str_take n' r)
  | _, _ => ""
  end.

Definition starts_word (s : string) : bool :=
  match s with
  | String c _ => negb (is_space c)
  | EmptyString => false
  end.

(** [s.split()]: the maximal runs of characters that are not whitespace. *)
Fixpoint split_ws (s : string) : list string :=
  match s with
  | EmptyString => []
  | String c r =>
      if is_space c then split_ws r
      else if starts_word r then
        match split_ws r with
        | w :: ws => String c w :: ws
        | [] => [String c ""]
        end
      else String c "" :: split_ws r
  end.

(** [' '.join(l)]. *)
Definition join_sp (l : list string) : string := String.concat " " l.

(** Truth value of a string: empty is false. *)
Definition truthy (s : string) : bool :=
  match s with EmptyString => false | _ => true end.

(** ** [collections.Counter] *)

(** A counter is a dict: keys in first-insertion order, with their counts. *)
Definition Counter : Type := list (string * nat).

Fixpoint counter_incr (k : string) (c : Counter) : Counter :=
  match c with
  | [] => [(k, 1)]
  | (k', n) :: r => if String.eqb k k' then (k', S n) :: r else (k', n) :: counter_incr k r
  end.

(** [Counter(l)]. *)
Definition counter_of (l : list string) : Counter :=
  fold_left (fun c k => counter_incr k c) l [].

(** [c.get(k, 0)], which is also [c[k]] on a counter. *)
Fixpoint counter_get (c : Counter) (k : string) : nat :=
  match c with
  | [] => 0
  | (k', n) :: r => if String.eqb k k' then n else counter_get r k
  end.

(** [set(c.keys())]. *)
Definition counter_keys (c : Counter) : gset string := list_to_set (c.*1).

(** [c.most_common(n)]: by count, descending, ties in insertion order. *)
Definition most_common (n : nat) (c : Counter) : list (string * nat) :=
  take n (sort_desc (fun kv => inject_Z (Z.of_nat kv.2)) c).

(** A count as a rational. *)
Definition Qnat (n : nat) : Q := inject_Z (Z.of_nat n).

(** ** The input: snapshots and query observations *)

(** One in-flight query of a snapshot, as the JSON object the scripts read.
    [usename] is the key the extractor reads for the user; [username] is
    the attribute name of the data model, which no script reads. *)
Record Query : Type := {
  wait_event : option string;
  wait_event_type : option string;
  query_duration_sec : option Q;
  transaction_duration_sec : option Q;
  application_name : option string;
  usename : option string;
  username : option string;
  query_preview : option string;
}.

(** One sampled instant. *)
Record Snapshot : Type := {
  load_avg_1m : option Q;
  load_avg_5m : option Q;
  load_avg_15m : option Q;
  active_query_count : option Z;
  queries : option (list Query);
}.

(** ** analyze_pg_spike.py *)

Module Analyze.

Record LongQuery : Type := {
  lq_duration : Q;
  lq_app : string;
  lq_wait : string;
  lq_wait_type : string;
  lq_preview : string;
}.

Record LockWait : Type := {
  lw_duration : Q;
  lw_app : string;
  lw_wait : string;
  lw_preview : string;
}.

(** [get_query_signature]: [None] on an empty or absent preview. *)
Definition get_query_signature (query : Query) : option string :=
  let preview := default "" (query_preview query) in
  if negb (truthy preview) then None
  else Some (join_sp (split_ws (str_take 200 preview))).

(** The lists and the set that the extraction loop fills. *)
Record Acc : Type := {
  a_wait_events : list string;
  a_wait_event_types : list string;
  a_query_durations : list Q;
  a_transaction_durations : list Q;
  a_applications : list string;
  a_query_patterns : list string;
  a_query_signatures : gset string;
  a_users : list string;
  a_lock_waits : list LockWait;
  a_long_queries : list LongQuery;
}.

Definition acc_init : Acc :=
  {| a_wait_events := []; a_wait_event_types := []; a_query_durations := [];
     a_transaction_durations := []; a_applications := []; a_query_patterns := [];
     a_query_signatures := ∅; a_users := []; a_lock_waits := []; a_long_queries := [] |}.

(** The body of the inner loop, for one query observation. *)
Definition loop_body (acc : Acc) (query : Query) : Acc :=
  let wait_event := default "unknown" (wait_event query) in
  let wait_type := default "unknown" (wait_event_type query) in
  let duration := default 0%Q (query_duration_sec query) in
  let app := default "unknown" (application_name query) in
  let preview := default "" (query_preview query) in
  {| a_wait_events := a_wait_events acc ++ [wait_event];
     a_wait_event_types := a_wait_event_types acc ++ [wait_type];
     a_query_durations := a_query_durations acc ++ [duration];
     a_transaction_durations :=
       a_transaction_durations acc ++ [default 0%Q (transaction_duration_sec query)];
     a_applications := a_applications acc ++ [app];
     a_users := a_users acc ++ [default "unknown" (usename query)];
     a_query_patterns :=
       if truthy preview
       then a_query_patterns acc ++ [join_sp (take 15 (split_ws preview))]
       else a_query_patterns acc;
     a_query_signatures :=
       if truthy preview then
         match get_query_signature query with
         | Some sig => if truthy sig then {[sig]} ∪ a_query_signatures acc
                       else a_query_signatures acc
         | None => a_query_signatures acc
         end
       else a_query_signatures acc;
     a_long_queries :=
       if Qltb 10 duration
       then a_long_queries acc ++
            [{| lq_duration := duration; lq_app := app; lq_wait := wait_event;
                lq_wait_type := wait_type; lq_preview := str_take 150 preview |}]
       else a_long_queries acc;
     a_lock_waits :=
       if String.eqb wait_type "Lock"
       then a_lock_waits acc ++
            [{| lw_duration := duration; lw_app := app; lw_wait := wait_event;
                lw_preview := str_take 150 preview |}]
       else a_lock_waits acc |}.

(** The two nested loops over the snapshots and their queries. *)
Definition loop (snapshots : list Snapshot) : Acc :=
  fold_left (fun acc snapshot => fold_left loop_body (default [] (queries snapshot)) acc)
            snapshots acc_init.

Record Stats : Type := { s_min : Q; s_max : Q; s_avg : Q; s_median : Q }.

(** [{'min': min(l), 'max': max(l), 'avg': mean(l), 'median': median(l)}]. *)
Definition stats (l : list Q) : result Stats :=
  mn ← py_min l; mx ← py_max l; av ← mean l; md ← median l;
  Ok {| s_min := mn; s_max := mx; s_avg := av; s_median := md |}.

(** The dict that [extract_metrics] returns. *)
Record Summary : Type := {
  snapshot_count : nat;
  load_1m : Stats;
  load_5m : Stats;
  load_15m : Stats;
  active_queries : Stats;
  wait_events : Counter;
  wait_event_types : Counter;
  query_durations : list Q;
  transaction_durations : list Q;
  applications : Counter;
  users : Counter;
  query_patterns : Counter;
  query_signatures : gset string;
  total_queries_observed : nat;
  long_queries : list LongQuery;
  lock_waits : list LockWait;
}.

Definition extract_metrics (snapshots : list Snapshot) : result Summary :=
  load_1m ← comprehension (fun s => subscript (load_avg_1m s)) snapshots;
  load_5m ← comprehension (fun s => subscript (load_avg_5m s)) snapshots;
  load_15m ← comprehension (fun s => subscript (load_avg_15m s)) snapshots;
  active_counts ← comprehension (fun s => subscript (active_query_count s)) snapshots;
  let acc := loop snapshots in
  l1 ← stats load_1m;
  l5 ← stats load_5m;
  l15 ← stats load_15m;
  aq ← stats (inject_Z <$> active_counts);
  Ok {| snapshot_count := length snapshots;
        load_1m := l1; load_5m := l5; load_15m := l15;
        active_queries := aq;
        wait_events := counter_of (a_wait_events acc);
        wait_event_types := counter_of (a_wait_event_types acc);
        query_durations := a_query_durations acc;
        transaction_durations := a_transaction_durations acc;
        applications := counter_of (a_applications acc);
        users := counter_of (a_users acc);
        query_patterns := counter_of (a_query_patterns acc);
        query_signatures := a_query_signatures acc;
        total_queries_observed := length (a_query_durations acc);
        long_queries := a_long_queries acc;
        lock_waits := a_lock_waits acc |}.

(** One line of the "Key Findings" section, with the values its text is
    formatted from. *)
Inductive Finding : Type :=
| LongQueriesIncreased (before after : nat)
| LockContentionIncreased (before after : nat)
| LoadChanged (increased : bool) (abs_pct : Q)
| NewApplications (n : nat)
| MainCulprit (app : string) (count : nat)
| NoSignificantDifferences.

(** The values of the "Query Duration Analysis" section. *)
Record DurationCmp : Type := {
  normal_avg : Q; spike_avg : Q;
  normal_median : Q; spike_median : Q;
  normal_max : Q; spike_max : Q;
  duration_diff : Q; duration_pct : Q;
}.

(** What [compare_metrics] computes for the report.  The lock-type,
    application and wait-event tables are formatted from the two
    summaries alone and feed no other value; they are left out. *)
Record Report : Type := {
  load_diff : Q; load_pct : Q;
  query_diff : Q; query_pct : Q;
  duration : option DurationCmp;
  top_long : list LongQuery;
  both : gset string;
  only_in_spike : gset string;
  only_in_normal : gset string;
  only_spike_apps : gset string;
  only_normal_apps : gset string;
  findings : list Finding;
}.

(** [spike['long_queries'].sort(...)] sorts the list of the dict in place:
    the dict afterwards. *)
Definition with_long_queries (l : list LongQuery) (m : Summary) : Summary :=
  {| snapshot_count := snapshot_count m;
     load_1m := load_1m m; load_5m := load_5m m; load_15m := load_15m m;
     active_queries := active_queries m;
     wait_events := wait_events m;
     wait_event_types := wait_event_types m;
     query_durations := query_durations m;
     transaction_durations := transaction_durations m;
     applications := applications m;
     users := users m;
     query_patterns := query_patterns m;
     query_signatures := query_signatures m;
     total_queries_observed := total_queries_observed m;
     long_queries := l;
     lock_waits := lock_waits m |}.

(** The "Query Duration Analysis" section. *)
Definition compare_durations (normal spike : Summary) : result (option DurationCmp) :=
  if nonempty (query_durations normal) && nonempty (query_durations spike) then
    normal_avg ← mean (query_durations normal);
    spike_avg ← mean (query_durations spike);
    normal_median ← median (query_durations normal);
    spike_median ← median (query_durations spike);
    normal_max ← py_max (query_durations normal);
    spike_max ← py_max (query_durations spike);
    let duration_diff := (spike_avg - normal_avg)%Q in
    let duration_pct :=
      if Qltb 0 normal_avg then (duration_diff / normal_avg * 100)%Q else 0%Q in
    Ok (Some {| normal_avg := normal_avg; spike_avg := spike_avg;
                normal_median := normal_median; spike_median := spike_median;
                normal_max := normal_max; spike_max := spike_max;
                duration_diff := duration_diff; duration_pct := duration_pct |})
  else Ok None.

(** The "Key Findings" section: the five rules in their order, then the
    fallback line.  [spike] is the spike summary as it is at that point,
    its long queries sorted. *)
Definition key_findings (normal spike : Summary) (load_pct : Q)
    (only_spike_apps : gset string) : result (list Finding) :=
  let findings := [] in
  let findings :=
    if Qltb (Qlen (long_queries normal) * (3 # 2)) (Qlen (long_queries spike))
    then findings ++ [LongQueriesIncreased (length (long_queries normal))
                                           (length (long_queries spike))]
    else findings in
  let findings :=
    if Qltb (Qlen (lock_waits normal) * (6 # 5)) (Qlen (lock_waits spike))
    then findings ++ [LockContentionIncreased (length (lock_waits normal))
                                              (length (lock_waits spike))]
    else findings in
  let findings :=
    if Qltb 10 (Qabs load_pct)
    then findings ++ [LoadChanged (Qltb 0 load_pct) (Qabs load_pct)]
    else findings in
  let findings :=
    if negb (Nat.eqb (size only_spike_apps) 0)
    then findings ++ [NewApplications (size only_spike_apps)]
    else findings in
  findings ←
    (if nonempty (long_queries spike) then
       let culprit_apps := counter_of (lq_app <$> long_queries spike) in
       match most_common 1 culprit_apps with
       | top_culprit :: _ => Ok (findings ++ [MainCulprit top_culprit.1 top_culprit.2])
       | [] => Raise IndexError
       end
     else Ok findings);
  if nonempty findings then Ok findings else Ok [NoSignificantDifferences].

(** [compare_metrics normal spike]: the report, and the two summary dicts
    as the call leaves them. *)
Definition compare_metrics (normal spike : Summary)
    : result (Report * (Summary * Summary)) :=
  let load_diff := (s_avg (load_1m spike) - s_avg (load_1m normal))%Q in
  let load_pct :=
    if Qltb 0 (s_avg (load_1m normal))
    then (load_diff / s_avg (load_1m normal) * 100)%Q else 0%Q in
  let query_diff := (s_avg (active_queries spike) - s_avg (active_queries normal))%Q in
  let query_pct :=
    if Qltb 0 (s_avg (active_queries normal))
    then (query_diff / s_avg (active_queries normal) * 100)%Q else 0%Q in
  duration ← compare_durations normal spike;
  let spike :=
    if nonempty (long_queries spike)
    then with_long_queries (sort_desc lq_duration (long_queries spike)) spike
    else spike in
  let top_long := take 10 (long_queries spike) in
  let both := query_signatures normal ∩ query_signatures spike in
  let only_in_spike := query_signatures spike ∖ query_signatures normal in
  let only_in_normal := query_signatures normal ∖ query_signatures spike in
  let normal_apps := counter_keys (applications normal) in
  let spike_apps := counter_keys (applications spike) in
  let only_spike_apps := spike_apps ∖ normal_apps in
  let only_normal_apps := normal_apps ∖ spike_apps in
  findings ← key_findings normal spike load_pct only_spike_apps;
  Ok ({| load_diff := load_diff; load_pct := load_pct;
         query_diff := query_diff; query_pct := query_pct;
         duration := duration;
         top_long := top_long;
         both := both; only_in_spike := only_in_spike;
         only_in_normal := only_in_normal;
         only_spike_apps := only_spike_apps;
         only_normal_apps := only_normal_apps;
         findings := findings |},
      (normal, spike)).


(** [format_duration]: the unit chosen and the number shown in that unit.
    The rounding of the number to its printed digits is not modelled. *)
Inductive Shown : Type :=
| Millis (x : Q)
| Secs (x : Q)
| Mins (x : Q)
| Hours (x : Q).

Definition format_duration (seconds : Q) : Shown :=
  if Qltb seconds 1 then Millis (seconds * 1000)
  else if Qltb seconds 60 then Secs seconds
  else if Qltb seconds 3600 then Mins (seconds / 60)
  else Hours (seconds / 3600).

(** The "Top apps waiting" rows of one lock type: application (60
    characters), count, percentage of the locks of the type.  [by_app] is
    a dict filled in the order of the locks, as a counter is. *)
Definition lock_apps (locks : list LockWait) : result (list (string * nat * Q)) :=
  let by_app := counter_of (lw_app <$> locks) in
  comprehension
    (fun '(app, count) =>
       q ← py_div (Qnat count) (Qlen locks);
       Ok (str_take 60 app, count, (q * 100)%Q))
    (most_common 5 by_app).

(** The loop over the lock types: type, occurrences, rows; a type without
    locks is skipped. *)
Fixpoint lock_types (types : list string) (lock_waits : list LockWait)
    : result (list (string * nat * list (string * nat * Q))) :=
  match types with
  | [] => Ok []
  | lock_type :: rest =>
      let locks := filter (fun lock => lw_wait lock = lock_type) lock_waits in
      if negb (nonempty locks) then lock_types rest lock_waits
      else
        rows ← lock_apps locks;
        more ← lock_types rest lock_waits;
        Ok ((lock_type, length locks, rows) :: more)
  end.

(** The "Lock Types During Spike" part of the lock analysis. *)
Definition lock_analysis (spike : Summary)
    : result (list (string * nat * list (string * nat * Q))) :=
  if nonempty (lock_waits spike)
  then lock_types ["transactionid"; "tuple"; "relation"] (lock_waits spike)
  else Ok [].

(** [(count / total * 100) if total > 0 else 0]. *)
Definition share (count total : nat) : Q :=
  if (0 <? total)%nat then (Qnat count / Qnat total * 100)%Q else 0%Q.

(** The rows of a "top 10" table: key, count, percentage of the queries
    observed. *)
Definition frequency_table (c : Counter) (total : nat) : list (string * nat * Q) :=
  (fun '(k, count) => (k, count, share count total)) <$> most_common 10 c.

(** The tables of the report. *)
Record Tables : Type := {
  lock_sections : list (string * nat * list (string * nat * Q));
  normal_apps_table : list (string * nat * Q);
  spike_apps_table : list (string * nat * Q);
  normal_wait_types_table : list (string * nat * Q);
  spike_wait_types_table : list (string * nat * Q);
  normal_wait_events_table : list (string * nat * Q);
  spike_wait_events_table : list (string * nat * Q);
}.

(** The tables [compare_metrics] builds between its comparisons: none of
    them reads or changes the long queries. *)
Definition compare_tables (normal spike : Summary) : result Tables :=
  locks ← lock_analysis spike;
  Ok {| lock_sections := locks;
        normal_apps_table :=
          frequency_table (applications normal) (total_queries_observed normal);
        spike_apps_table :=
          frequency_table (applications spike) (total_queries_observed spike);
        normal_wait_types_table :=
          frequency_table (wait_event_types normal) (total_queries_observed normal);
        spike_wait_types_table :=
          frequency_table (wait_event_types spike) (total_queries_observed spike);
        normal_wait_events_table :=
          frequency_table (wait_events normal) (total_queries_observed normal);
        spike_wait_events_table :=
          frequency_table (wait_events spike) (total_queries_observed spike) |}.

(** [main], from the loaded snapshots to the report that is written. *)
Definition analyze (normal_snapshots spike_snapshots : list Snapshot)
    : result (Report * Tables) :=
  normal_metrics ← extract_metrics normal_snapshots;
  spike_metrics ← extract_metrics spike_snapshots;
  compared ← compare_metrics normal_metrics spike_metrics;
  tables ← compare_tables normal_metrics spike_metrics;
  Ok (compared.1, tables).

End Analyze.

(** ** compare_leader_replica.py *)

Module LeaderReplica.

Record LongQuery : Type := {
  lq_duration : Q;
  lq_app : string;
  lq_wait : string;
  lq_wait_type : string;
}.

Record LockWait : Type := {
  lw_duration : Q;
  lw_app : string;
  lw_wait : string;
}.

Record Acc : Type := {
  a_wait_events : list string;
  a_wait_event_types : list string;
  a_query_durations : list Q;
  a_applications : list string;
  a_long_queries : list LongQuery;
  a_lock_waits : list LockWait;
}.

Definition acc_init : Acc :=
  {| a_wait_events := []; a_wait_event_types := []; a_query_durations := [];
     a_applications := []; a_long_queries := []; a_lock_waits := [] |}.

(** The body of the inner loop, for one query observation. *)
Definition loop_body (acc : Acc) (query : Query) : Acc :=
  let wait_event := default "unknown" (wait_event query) in
  let wait_type := default "unknown" (wait_event_type query) in
  let duration := default 0%Q (query_duration_sec query) in
  let app := default "unknown" (application_name query) in
  {| a_wait_events := a_wait_events acc ++ [wait_event];
     a_wait_event_types := a_wait_event_types acc ++ [wait_type];
     a_query_durations := a_query_durations acc ++ [duration];
     a_applications := a_applications acc ++ [app];
     a_long_queries :=
       if Qltb 10 duration
       then a_long_queries acc ++
            [{| lq_duration := duration; lq_app := app; lq_wait := wait_event;
                lq_wait_type := wait_type |}]
       else a_long_queries acc;
     a_lock_waits :=
       if String.eqb wait_type "Lock"
       then a_lock_waits acc ++
            [{| lw_duration := duration; lw_app := app; lw_wait := wait_event |}]
       else a_lock_waits acc |}.

Definition loop (snapshots : list Snapshot) : Acc :=
  fold_left (fun acc snapshot => fold_left loop_body (default [] (queries snapshot)) acc)
            snapshots acc_init.

(** The dict that [extract_metrics] returns. *)
Record Summary : Type := {
  snapshot_count : nat;
  load_avg : Q;
  active_queries_avg : Q;
  total_queries : nat;
  wait_event_types : Counter;
  wait_events : Counter;
  applications : Counter;
  long_queries : list LongQuery;
  lock_waits : list LockWait;
  avg_duration : Q;
}.

(** [extract_metrics]: Python's [None] on an empty list of snapshots. *)
Definition extract_metrics (snapshots : list Snapshot) : result (option Summary) :=
  if negb (nonempty snapshots) then Ok None
  else
    load_1m ← comprehension (fun s => subscript (load_avg_1m s)) snapshots;
    active_counts ← comprehension (fun s => subscript (active_query_count s)) snapshots;
    let acc := loop snapshots in
    load_avg ← mean load_1m;
    active_queries_avg ← mean (inject_Z <$> active_counts);
    avg_duration ←
      (if nonempty (a_query_durations acc) then mean (a_query_durations acc) else Ok 0%Q);
    Ok (Some {| snapshot_count := length snapshots;
                load_avg := load_avg;
                active_queries_avg := active_queries_avg;
                total_queries := length (a_query_durations acc);
                wait_event_types := counter_of (a_wait_event_types acc);
                wait_events := counter_of (a_wait_events acc);
                applications := counter_of (a_applications acc);
                long_queries := a_long_queries acc;
                lock_waits := a_lock_waits acc;
                avg_duration := avg_duration |}).

(** [d[k]] where [d] may be Python's [None]: [TypeError] on [None]. *)
Definition item {A} (d : option Summary) (k : Summary → A) : result A :=
  match d with Some m => Ok (k m) | None => Raise TypeError end.

(** The values of the first four sections of [compare_changes]. *)
Record Changes : Type := {
  load_change : Q; load_pct : Q;
  query_change : Q; query_pct : Q;
  long_normal_pct : Q; long_spike_pct : Q;
  top_longest : list LongQuery;
  lock_normal_pct : Q; lock_spike_pct : Q;
}.

(** [compare_changes], from its first line to the "Lock Waits" counts.
    The frequency tables after them are not modelled: a [Raise] here is
    an exception of the call, an [Ok] is its state at that point. *)
Definition compare_changes (server_name : string) (normal spike : option Summary)
    : result Changes :=
  spike_load ← item spike load_avg;
  normal_load ← item normal load_avg;
  let load_change := (spike_load - normal_load)%Q in
  q ← py_div load_change normal_load;
  let load_pct := (q * 100)%Q in
  spike_active ← item spike active_queries_avg;
  normal_active ← item normal active_queries_avg;
  let query_change := (spike_active - normal_active)%Q in
  q ← py_div query_change normal_active;
  let query_pct := (q * 100)%Q in
  normal_long ← item normal long_queries;
  normal_total ← item normal total_queries;
  spike_long ← item spike long_queries;
  spike_total ← item spike total_queries;
  let long_normal_pct :=
    if (0 <? normal_total)%nat then (Qlen normal_long / inject_Z (Z.of_nat normal_total) * 100)%Q
    else 0%Q in
  let long_spike_pct :=
    if (0 <? spike_total)%nat then (Qlen spike_long / inject_Z (Z.of_nat spike_total) * 100)%Q
    else 0%Q in
  let top_longest :=
    if (0 <? length spike_long)%nat then take 5 (sort_desc lq_duration spike_long) else [] in
  normal_lock ← item normal lock_waits;
  spike_lock ← item spike lock_waits;
  let lock_normal_pct :=
    if (0 <? normal_total)%nat then (Qlen normal_lock / inject_Z (Z.of_nat normal_total) * 100)%Q
    else 0%Q in
  let lock_spike_pct :=
    if (0 <? spike_total)%nat then (Qlen spike_lock / inject_Z (Z.of_nat spike_total) * 100)%Q
    else 0%Q in
  Ok {| load_change := load_change; load_pct := load_pct;
        query_change := query_change; query_pct := query_pct;
        long_normal_pct := long_normal_pct; long_spike_pct := long_spike_pct;
        top_longest := top_longest;
        lock_normal_pct := lock_normal_pct; lock_spike_pct := lock_spike_pct |}.


(** A percentage per key, as the dict comprehensions of [compare_changes]
    build it; [pct_get d k] is [d.get(k, 0)]. *)
Fixpoint pct_get (d : list (string * Q)) (k : string) : Q :=
  match d with
  | [] => 0%Q
  | (k', v) :: r => if String.eqb k k' then v else pct_get r k
  end.

(** [[(k, count / total * 100) for k, count in rows]], the division
    unguarded. *)
Definition percentages (rows : list (string * nat)) (total : Q)
    : result (list (string * nat * Q)) :=
  comprehension
    (fun '(k, count) => q ← py_div (Qnat count) total; Ok (k, count, (q * 100)%Q))
    rows.

(** The values of the sections of [compare_changes] after the lock-wait
    counts. *)
Record ChangeTables : Type := {
  lock_types_table : list (string * nat * Q);
  normal_wait_types : list (string * nat * Q);
  spike_wait_types : list (string * nat * Q);
  wait_changes : list (string * Q * Q * Q);
  top_applications : list (string * nat * Q * Q * Q);
  new_applications : gset string * list (string * nat * Q);
  missing_applications : gset string * list (string * nat * Q);
}.

(** The rows of "Top Applications During Spike": application, count, its
    percentage in the spike, its percentage in the normal period, and the
    change in percentage points. *)
Definition top_applications_rows (normal spike : Summary)
    : result (list (string * nat * Q * Q * Q)) :=
  comprehension
    (fun '(app, count) =>
       q ← py_div (Qnat count) (Qnat (total_queries spike));
       let pct := (q * 100)%Q in
       let normal_count := counter_get (applications normal) app in
       let normal_pct :=
         if (0 <? total_queries normal)%nat
         then (Qnat normal_count / Qnat (total_queries normal) * 100)%Q else 0%Q in
       Ok (app, count, pct, normal_pct, (pct - normal_pct)%Q))
    (most_common 10 (applications spike)).

(** The sections of [compare_changes] from "Lock types during spike" to
    its end.  Python leaves the order in which a set is iterated
    unspecified; the model iterates in the order of [elements], which
    decides only the order of rows that the following sort leaves tied. *)
Definition changes_tables (normal spike : Summary) : result ChangeTables :=
  lock_types_table ←
    (if (0 <? length (lock_waits spike))%nat
     then percentages (most_common 5 (counter_of (lw_wait <$> lock_waits spike)))
                      (Qlen (lock_waits spike))
     else Ok []);
  normal_wait_types ←
    percentages (most_common 5 (wait_event_types normal)) (Qnat (total_queries normal));
  spike_wait_types ←
    percentages (most_common 5 (wait_event_types spike)) (Qnat (total_queries spike));
  normal_rows ← percentages (wait_event_types normal) (Qnat (total_queries normal));
  spike_rows ← percentages (wait_event_types spike) (Qnat (total_queries spike));
  let normal_wait_pct := (fun '(k, _, p) => (k, p)) <$> normal_rows in
  let spike_wait_pct := (fun '(k, _, p) => (k, p)) <$> spike_rows in
  let all_events : gset string :=
    list_to_set normal_wait_pct.*1 ∪ list_to_set spike_wait_pct.*1 in
  let wait_diffs :=
    List.filter (fun '(_, _, _, diff) => Qltb 1 (Qabs diff))
      ((fun event =>
          let normal_p := pct_get normal_wait_pct event in
          let spike_p := pct_get spike_wait_pct event in
          (event, normal_p, spike_p, (spike_p - normal_p)%Q)) <$> elements all_events) in
  let wait_changes := take 5 (sort_desc (fun '(_, _, _, diff) => Qabs diff) wait_diffs) in
  top_applications ← top_applications_rows normal spike;
  let normal_apps := counter_keys (applications normal) in
  let spike_apps := counter_keys (applications spike) in
  let new_apps := spike_apps ∖ normal_apps in
  new_rows ←
    (if negb (Nat.eqb (size new_apps) 0) then
       let new_app_counts :=
         (fun app => (app, counter_get (applications spike) app)) <$> elements new_apps in
       percentages (take 15 (sort_desc (fun kv => Qnat kv.2) new_app_counts))
                   (Qnat (total_queries spike))
     else Ok []);
  let disappeared_apps := normal_apps ∖ spike_apps in
  missing_rows ←
    (if negb (Nat.eqb (size disappeared_apps) 0) then
       let disappeared_counts :=
         (fun app => (app, counter_get (applications normal) app))
           <$> elements disappeared_apps in
       percentages (take 10 (sort_desc (fun kv => Qnat kv.2) disappeared_counts))
                   (Qnat (total_queries normal))
     else Ok []);
  Ok {| lock_types_table := lock_types_table;
        normal_wait_types := normal_wait_types;
        spike_wait_types := spike_wait_types;
        wait_changes := wait_changes;
        top_applications := top_applications;
        new_applications := (new_apps, new_rows);
        missing_applications := (disappeared_apps, missing_rows) |}.

(** The whole of [compare_changes]: the first sections, then the tables. *)
Definition compare_changes_report (server_name : string) (normal spike : option Summary)
    : result (Changes * ChangeTables) :=
  changes ← compare_changes server_name normal spike;
  normal ← item normal id;
  spike ← item spike id;
  tables ← changes_tables normal spike;
  Ok (changes, tables).

(** The findings of the final report of [main]. *)
Inductive ServerFinding : Type :=
| LeaderMoreImpacted (pg00_load_pct pg01_load_pct : Q)
| ReplicaMoreImpacted (pg01_load_pct pg00_load_pct : Q)
| BothSimilarlyImpacted (pg00_load_pct pg01_load_pct : Q)
| LeaderLockContention (waits : nat)
| LeaderMoreLongQueries (pg00 pg01 : nat)
| ReplicaMoreLongQueries (pg01 pg00 : nat).

(** The values of the "Quick Comparison Table" and the "Key Findings". *)
Record Comparison : Type := {
  pg00_load_change : Q; pg00_load_pct : Q;
  pg01_load_change : Q; pg01_load_pct : Q;
  pg00_q_change : Q; pg01_q_change : Q;
  pg00_long_change : Z; pg01_long_change : Z;
  pg00_lock_change : Z; pg01_lock_change : Z;
  server_findings : list ServerFinding;
}.

(** The "Key Findings" of [main]. *)
Definition key_findings (pg00_load_pct pg01_load_pct : Q) (pg00_spike pg01_spike : Summary)
    : list ServerFinding :=
  let final_report :=
    if Qltb (Qabs pg01_load_pct * (6 # 5)) (Qabs pg00_load_pct)
    then [LeaderMoreImpacted pg00_load_pct pg01_load_pct]
    else if Qltb (Qabs pg00_load_pct * (6 # 5)) (Qabs pg01_load_pct)
    then [ReplicaMoreImpacted pg01_load_pct pg00_load_pct]
    else [BothSimilarlyImpacted pg00_load_pct pg01_load_pct] in
  let final_report :=
    if (0 <? length (lock_waits pg00_spike))%nat
       && Nat.eqb (length (lock_waits pg01_spike)) 0
    then final_report ++ [LeaderLockContention (length (lock_waits pg00_spike))]
    else final_report in
  if (length (long_queries pg01_spike) * 5 <? length (long_queries pg00_spike))%nat
  then final_report ++ [LeaderMoreLongQueries (length (long_queries pg00_spike))
                                               (length (long_queries pg01_spike))]
  else if (length (long_queries pg00_spike) <? length (long_queries pg01_spike))%nat
  then final_report ++ [ReplicaMoreLongQueries (length (long_queries pg01_spike))
                                                (length (long_queries pg00_spike))]
  else final_report.

(** [main], from the four loaded periods to the report that is written:
    the two per-server reports and the comparison of the servers. *)
Definition compare_leader_replica
    (pg00_normal_snapshots pg00_spike_snapshots
     pg01_normal_snapshots pg01_spike_snapshots : list Snapshot)
    : result ((Changes * ChangeTables) * (Changes * ChangeTables) * Comparison) :=
  pg00_normal ← extract_metrics pg00_normal_snapshots;
  pg00_spike ← extract_metrics pg00_spike_snapshots;
  pg01_normal ← extract_metrics pg01_normal_snapshots;
  pg01_spike ← extract_metrics pg01_spike_snapshots;
  pg00_report ← compare_changes_report "pg00 (Leader)" pg00_normal pg00_spike;
  pg01_report ← compare_changes_report "pg01 (Replica)" pg01_normal pg01_spike;
  pg00_normal ← item pg00_normal id;
  pg00_spike ← item pg00_spike id;
  pg01_normal ← item pg01_normal id;
  pg01_spike ← item pg01_spike id;
  let pg00_load_change := (load_avg pg00_spike - load_avg pg00_normal)%Q in
  q00 ← py_div pg00_load_change (load_avg pg00_normal);
  let pg00_load_pct := (q00 * 100)%Q in
  let pg01_load_change := (load_avg pg01_spike - load_avg pg01_normal)%Q in
  q01 ← py_div pg01_load_change (load_avg pg01_normal);
  let pg01_load_pct := (q01 * 100)%Q in
  Ok (pg00_report, pg01_report,
      {| pg00_load_change := pg00_load_change; pg00_load_pct := pg00_load_pct;
         pg01_load_change := pg01_load_change; pg01_load_pct := pg01_load_pct;
         pg00_q_change := (active_queries_avg pg00_spike - active_queries_avg pg00_normal)%Q;
         pg01_q_change := (active_queries_avg pg01_spike - active_queries_avg pg01_normal)%Q;
         pg00_long_change :=
           (Z.of_nat (length (long_queries pg00_spike))
            - Z.of_nat (length (long_queries pg00_normal)))%Z;
         pg01_long_change :=
           (Z.of_nat (length (long_queries pg01_spike))
            - Z.of_nat (length (long_queries pg01_normal)))%Z;
         pg00_lock_change :=
           (Z.of_nat (length (lock_waits pg00_spike))
            - Z.of_nat (length (lock_waits pg00_normal)))%Z;
         pg01_lock_change :=
           (Z.of_nat (length (lock_waits pg01_spike))
            - Z.of_nat (length (lock_waits pg01_normal)))%Z;
         server_findings := key_findings pg00_load_pct pg01_load_pct pg00_spike pg01_spike |}).

End LeaderReplica.

(** ** Notions used to state the properties *)

(** The query observations of a period, in the order the loops visit them. *)
Definition all_queries (snapshots : list Snapshot) : list Query :=
  concat ((fun s => default [] (queries s)) <$> snapshots).

(** A snapshot supplies the numeric fields that [analyze_pg_spike.py]
    subscripts. *)
Definition has_required_fields (s : Snapshot) : Prop :=
  is_Some (load_avg_1m s) ∧ is_Some (load_avg_5m s) ∧
  is_Some (load_avg_15m s) ∧ is_Some (active_query_count s).

#[global] Instance Qlt_decision (x y : Q) : Decision (x < y)%Q :=
  match Qlt_le_dec x y with
  | left H => left H
  | right H => right (Qle_not_lt _ _ H)
  end.

(** The attributes of an observation, with the defaults of the data model. *)
Definition duration_of (q : Query) : Q := default 0%Q (query_duration_sec q).
Definition wait_of (q : Query) : string := default "unknown" (wait_event q).
Definition wait_type_of (q : Query) : string := default "unknown" (wait_event_type q).
Definition app_of (q : Query) : string := default "unknown" (application_name q).
Definition preview_of (q : Query) : string := default "" (query_preview q).

(** The entries kept for a long query and for a lock wait. *)
Definition long_entry (q : Query) : Analyze.LongQuery :=
  {| Analyze.lq_duration := duration_of q; Analyze.lq_app := app_of q;
     Analyze.lq_wait := wait_of q; Analyze.lq_wait_type := wait_type_of q;
     Analyze.lq_preview := str_take 150 (preview_of q) |}.

Definition lock_entry (q : Query) : Analyze.LockWait :=
  {| Analyze.lw_duration := duration_of q; Analyze.lw_app := app_of q;
     Analyze.lw_wait := wait_of q;
     Analyze.lw_preview := str_take 150 (preview_of q) |}.

Definition long_entry_lr (q : Query) : LeaderReplica.LongQuery :=
  {| LeaderReplica.lq_duration := duration_of q; LeaderReplica.lq_app := app_of q;
     LeaderReplica.lq_wait := wait_of q; LeaderReplica.lq_wait_type := wait_type_of q |}.

Definition lock_entry_lr (q : Query) : LeaderReplica.LockWait :=
  {| LeaderReplica.lw_duration := duration_of q; LeaderReplica.lw_app := app_of q;
     LeaderReplica.lw_wait := wait_of q |}.

(** Whitespace normalisation, written from the words of the data model:
    every maximal run of whitespace becomes one space. *)
Definition starts_space (s : string) : bool :=
  match s with
  | String c _ => is_space c
  | EmptyString => false
  end.

Fixpoint collapse_ws (s : string) : string :=
  match s with
  | EmptyString => ""
  | String c r =>
      if is_space c
      then if starts_space r then collapse_ws r else String " " (collapse_ws r)
      else String c (collapse_ws r)
  end.

(** The signature as the data model words it: absent on an empty preview,
    else the first 200 characters with whitespace runs collapsed. *)
Definition collapsed_signature (preview : string) : option string :=
  if truthy preview then Some (collapse_ws (str_take 200 preview)) else None.

(** Removal of leading and of trailing whitespace. *)
Fixpoint lstrip (s : string) : string :=
  match s with
  | String c r => if is_space c then lstrip r else s
  | EmptyString => ""
  end.

Fixpoint rstrip (s : string) : string :=
  match s with
  | EmptyString => ""
  | String c r =>
      match rstrip r with
      | EmptyString => if is_space c then "" else String c ""
      | r' => String c r'
      end
  end.

Definition strip (s : string) : string := rstrip (lstrip s).

(** Keys never increase along the list. *)
Definition descending {A} (key : A → Q) (l : list A) : Prop :=
  StronglySorted (fun a b => (key b <= key a)%Q) l.

(** The finding of a rule, when the rule fires. *)
Definition when {A} (b : bool) (x : A) : list A := if b then [x] else [].

(** The spike summary as [compare_metrics] leaves it: its long queries
    sorted by duration, longest first. *)
Definition spike_after (spike : Analyze.Summary) : Analyze.Summary :=
  if nonempty (Analyze.long_queries spike)
  then Analyze.with_long_queries
         (sort_desc Analyze.lq_duration (Analyze.long_queries spike)) spike
  else spike.

(** The percentage change of the single-server report: 0 unless the
    baseline is positive. *)
Definition guarded_pct (diff base : Q) : Q :=
  if Qltb 0 base then (diff / base * 100)%Q else 0%Q.

#[global] Instance has_required_fields_dec (s : Snapshot) :
  Decision (has_required_fields s).
Proof. unfold has_required_fields. apply _. Defined.

(** The fields that [compare_leader_replica.py] subscripts. *)
Definition has_leader_fields (s : Snapshot) : Prop :=
  is_Some (load_avg_1m s) ∧ is_Some (active_query_count s).

#[global] Instance has_leader_fields_dec (s : Snapshot) : Decision (has_leader_fields s).
Proof. unfold has_leader_fields. apply _. Defined.

(** [rows] is a "top 10" table of the values [values]: at most ten rows
    with distinct keys; a row holds a key, the number of its occurrences
    (at least one) and the percentage of the values that this is; a key
    with more occurrences than some row has a row too. *)
Definition is_top_table (values : list string) (rows : list (string * nat * Q)) : Prop :=
  (length rows ≤ 10)%nat ∧
  NoDup rows.*1.*1 ∧
  (∀ k n p, (k, n, p) ∈ rows →
     n = length (filter (fun x => x = k) values) ∧ (0 < n)%nat ∧
     (p == Qnat n / Qlen values * 100)%Q) ∧
  (∀ k n p k', (k, n, p) ∈ rows →
     (n < length (filter (fun x => x = k') values))%nat → k' ∈ rows.*1.*1).

(** A string without whitespace. *)
Fixpoint no_space (w : string) : Prop :=
  match w with
  | EmptyString => True
  | String c r => is_space c = false ∧ no_space r
  end.

(** A word: a non-empty string without whitespace. *)
Definition is_word (w : string) : Prop := w ≠ "" ∧ no_space w.

(** [st] summarises the values [values]: its minimum and maximum are
    values and bound every value, its mean is their sum over their number,
    mean and median lie between minimum and maximum. *)
Definition summarises (values : list Q) (st : Analyze.Stats) : Prop :=
  Analyze.s_min st ∈ values ∧ Analyze.s_max st ∈ values ∧
  (∀ v, v ∈ values → (Analyze.s_min st <= v)%Q ∧ (v <= Analyze.s_max st)%Q) ∧
  Analyze.s_avg st = (Qsum values / Qlen values)%Q ∧
  (Analyze.s_min st <= Analyze.s_avg st)%Q ∧ (Analyze.s_avg st <= Analyze.s_max st)%Q ∧
  (Analyze.s_min st <= Analyze.s_median st)%Q ∧
  (Analyze.s_median st <= Analyze.s_max st)%Q.

(** The entries of the leader/replica script are those of the
    single-server script without the preview. *)
Definition long_without_preview (e : Analyze.LongQuery) : LeaderReplica.LongQuery :=
  {| LeaderReplica.lq_duration := Analyze.lq_duration e;
     LeaderReplica.lq_app := Analyze.lq_app e;
     LeaderReplica.lq_wait := Analyze.lq_wait e;
     LeaderReplica.lq_wait_type := Analyze.lq_wait_type e |}.

Definition lock_without_preview (e : Analyze.LockWait) : LeaderReplica.LockWait :=
  {| LeaderReplica.lw_duration := Analyze.lw_duration e;
     LeaderReplica.lw_app := Analyze.lw_app e;
     LeaderReplica.lw_wait := Analyze.lw_wait e |}.

#[global] Instance Qeq_decision (x y : Q) : Decision (x == y)%Q := Qeq_dec x y.

(** [(t, n, rows)] is the section of lock type [t] over the lock waits
    [locks]: [n] locks of the type, at least one; at most five rows, each
    with an application (cut to 60 characters), the number of locks of
    the type that wait in it, and the percentage of [n] that this is. *)
Definition is_lock_section (locks : list Analyze.LockWait)
    (sec : string * nat * list (string * nat * Q)) : Prop :=
  let '(t, n, rows) := sec in
  let of_type := filter (fun lock => Analyze.lw_wait lock = t) locks in
  n = length of_type ∧ (0 < n)%nat ∧ (length rows ≤ 5)%nat ∧
  ∀ a c p, (a, c, p) ∈ rows →
    ∃ app, a = str_take 60 app ∧
           c = length (filter (fun lock => Analyze.lw_app lock = app) of_type) ∧
           (0 < c)%nat ∧ (c ≤ n)%nat ∧ (p == Qnat c / Qnat n * 100)%Q.

(** A counter that is empty when the total it is measured against is zero. *)
Definition empty_when_zero (c : Counter) (total : nat) : Prop := total = 0%nat → c = [].

(** ** Sample periods *)

Definition q_select : Query :=
  {| wait_event := Some "ClientRead"; wait_event_type := Some "Client";
     query_duration_sec := Some 5%Q; transaction_duration_sec := Some 6%Q;
     application_name := Some "svc-a"; usename := Some "app_user"; username := None;
     query_preview := Some "SELECT 1" |}.

Definition q_update : Query :=
  {| wait_event := Some "transactionid"; wait_event_type := Some "Lock";
     query_duration_sec := Some 15%Q; transaction_duration_sec := Some 20%Q;
     application_name := Some "svc-b"; usename := Some "batch"; username := None;
     query_preview := Some "  UPDATE  t SET x = 1 " |}.

Definition q_report : Query :=
  {| wait_event := Some "DataFileRead"; wait_event_type := Some "IO";
     query_duration_sec := Some 20%Q; transaction_duration_sec := None;
     application_name := Some "svc-c"; usename := None; username := None;
     query_preview := None |}.

(** An observation that carries its user under the key [username] only. *)
Definition q_alice : Query :=
  {| wait_event := None; wait_event_type := None;
     query_duration_sec := None; transaction_duration_sec := None;
     application_name := None; usename := None; username := Some "alice";
     query_preview := Some " a" |}.

Definition with_duration (d : Q) : Query :=
  {| wait_event := None; wait_event_type := None;
     query_duration_sec := Some d; transaction_duration_sec := None;
     application_name := None; usename := None; username := None;
     query_preview := None |}.

Definition with_wait_type (t : string) : Query :=
  {| wait_event := None; wait_event_type := Some t;
     query_duration_sec := None; transaction_duration_sec := None;
     application_name := None; usename := None; username := None;
     query_preview := None |}.

Definition normal_period : list Snapshot :=
  [ {| load_avg_1m := Some 1%Q; load_avg_5m := Some 1%Q; load_avg_15m := Some 1%Q;
       active_query_count := Some 1%Z; queries := Some [q_select] |} ].

Definition spike_period : list Snapshot :=
  [ {| load_avg_1m := Some 2%Q; load_avg_5m := Some 1%Q; load_avg_15m := Some (1 # 2)%Q;
       active_query_count := Some 2%Z; queries := Some [q_update; q_report] |};
    {| load_avg_1m := Some 3%Q; load_avg_5m := Some (3 # 2)%Q; load_avg_15m := Some (1 # 2)%Q;
       active_query_count := Some 1%Z; queries := None |} ].

(** A period in which no query was active. *)
Definition quiet_period : list Snapshot :=
  [ {| load_avg_1m := Some (1 # 2)%Q; load_avg_5m := Some (2 # 5)%Q; load_avg_15m := Some (3 # 10)%Q;
       active_query_count := Some 0%Z; queries := Some [] |} ].

Definition alice_period : list Snapshot :=
  [ {| load_avg_1m := Some 1%Q; load_avg_5m := Some 1%Q; load_avg_15m := Some 1%Q;
       active_query_count := Some 1%Z; queries := Some [q_alice] |} ].

Definition q_moved : Query :=
  {| wait_event := Some "ClientRead"; wait_event_type := Some "Client";
     query_duration_sec := Some 5%Q; transaction_duration_sec := Some 6%Q;
     application_name := Some "svc-b"; usename := Some "app_user"; username := None;
     query_preview := Some "SELECT 1" |}.

(** The normal period again, its one query now issued by another
    application. *)
Definition moved_period : list Snapshot :=
  [ {| load_avg_1m := Some 1%Q; load_avg_5m := Some 1%Q; load_avg_15m := Some 1%Q;
       active_query_count := Some 1%Z; queries := Some [q_moved] |} ].

(** ** Basic facts *)

Lemma Qltb_lt x y : Qltb x y = true ↔ (x < y)%Q.
Proof.
  unfold Qltb. rewrite negb_true_iff, <- not_true_iff_false, Qle_bool_iff.
  split; [apply Qnot_le_lt | apply Qlt_not_le].
Qed.

Lemma Qltb_nlt x y : Qltb x y = false ↔ ¬ (x < y)%Q.
Proof. rewrite <- Qltb_lt. destruct (Qltb x y); naive_solver. Qed.

Lemma bind_Ok {A B} (m : result A) (f : A → result B) (b : B) :
  m ≫= f = Ok b ↔ ∃ a, m = Ok a ∧ f a = Ok b.
Proof.
  destruct m as [a|e]; simpl; split.
  - intros H. by exists a.
  - by intros (a' & [= <-] & H).
  - intros H. discriminate.
  - intros (a' & H & _). discriminate.
Qed.

Lemma comprehension_length {A B} (f : A → result B) (l : list A) (ys : list B) :
  comprehension f l = Ok ys → length ys = length l.
Proof.
  revert ys. induction l as [|x r IH]; simpl; intros ys H.
  - by injection H as <-.
  - apply bind_Ok in H as (y & _ & H). apply bind_Ok in H as (ys' & Hr & H).
    injection H as <-. simpl. f_equal. by apply IH.
Qed.

Lemma comprehension_subscript_ok {A B} (field : A → option B) (l : list A) :
  Forall (fun s => is_Some (field s)) l →
  ∃ ys, comprehension (fun s => subscript (field s)) l = Ok ys.
Proof.
  induction 1 as [|x r [y Hy] _ [ys IH]]; simpl.
  - by eexists.
  - rewrite Hy, IH. simpl. by eexists.
Qed.

(** ** The extraction loops, over the flattened sequence of observations *)

Section Loops.
Context {A B : Type} (body : A → B → A).

Lemma fold_left_nested {S} (g : S → list B) (l : list S) (a : A) :
  fold_left (fun acc s => fold_left body (g s) acc) l a
  = fold_left body (concat (g <$> l)) a.
Proof.
  revert a. induction l as [|s l IH]; intros a; simpl; [done|].
  by rewrite IH, fold_left_app.
Qed.

Lemma fold_left_collect {C} (proj : A → list C) (f : B → list C) :
  (∀ a b, proj (body a b) = proj a ++ f b) →
  ∀ l a, proj (fold_left body l a) = proj a ++ concat (f <$> l).
Proof.
  intros Hstep l. induction l as [|b l IH]; intros a; simpl.
  - by rewrite app_nil_r.
  - by rewrite IH, Hstep, <- app_assoc.
Qed.
End Loops.

Lemma concat_singletons {B C} (g : B → C) (l : list B) :
  concat ((fun b => [g b]) <$> l) = g <$> l.
Proof. induction l as [|b l IH]; csimpl; [done|]. by rewrite IH. Qed.

Lemma concat_selected {B C} (P : B → Prop) `{∀ b, Decision (P b)} (g : B → C) (l : list B) :
  concat ((fun b => if decide (P b) then [g b] else []) <$> l) = g <$> filter P l.
Proof.
  induction l as [|b l IH]; csimpl; [done|].
  rewrite filter_cons. destruct (decide (P b)); csimpl; by rewrite IH.
Qed.

Lemma String_eqb_decide (s t : string) : String.eqb s t = bool_decide (s = t).
Proof.
  destruct (String.eqb_spec s t) as [->|Hne].
  - by rewrite bool_decide_eq_true_2.
  - by rewrite bool_decide_eq_false_2.
Qed.

Lemma Qltb_decide (x y : Q) : Qltb x y = bool_decide (x < y)%Q.
Proof.
  destruct (Qltb x y) eqn:E.
  - apply Qltb_lt in E. by rewrite bool_decide_eq_true_2.
  - apply Qltb_nlt in E. by rewrite bool_decide_eq_false_2.
Qed.

Lemma analyze_loop_flat (S : list Snapshot) :
  Analyze.loop S = fold_left Analyze.loop_body (all_queries S) Analyze.acc_init.
Proof. apply fold_left_nested. Qed.

Lemma leader_loop_flat (S : list Snapshot) :
  LeaderReplica.loop S
  = fold_left LeaderReplica.loop_body (all_queries S) LeaderReplica.acc_init.
Proof. apply fold_left_nested. Qed.

Lemma analyze_loop_durations (S : list Snapshot) :
  Analyze.a_query_durations (Analyze.loop S) = duration_of <$> all_queries S.
Proof.
  rewrite analyze_loop_flat.
  rewrite (fold_left_collect Analyze.loop_body Analyze.a_query_durations
             (fun q => [duration_of q])); [|done].
  apply concat_singletons.
Qed.

Lemma leader_loop_durations (S : list Snapshot) :
  LeaderReplica.a_query_durations (LeaderReplica.loop S) = duration_of <$> all_queries S.
Proof.
  rewrite leader_loop_flat.
  rewrite (fold_left_collect LeaderReplica.loop_body LeaderReplica.a_query_durations
             (fun q => [duration_of q])); [|done].
  apply concat_singletons.
Qed.

Lemma analyze_loop_users (S : list Snapshot) :
  Analyze.a_users (Analyze.loop S)
  = (fun q => default "unknown" (usename q)) <$> all_queries S.
Proof.
  rewrite analyze_loop_flat.
  rewrite (fold_left_collect Analyze.loop_body Analyze.a_users
             (fun q => [default "unknown" (usename q)])); [|done].
  apply concat_singletons.
Qed.

Lemma analyze_loop_long (S : list Snapshot) :
  Analyze.a_long_queries (Analyze.loop S)
  = long_entry <$> filter (fun q => (10 < duration_of q)%Q) (all_queries S).
Proof.
  rewrite analyze_loop_flat.
  rewrite (fold_left_collect Analyze.loop_body Analyze.a_long_queries
             (fun q => if decide (10 < duration_of q)%Q then [long_entry q] else [])).
  - apply (concat_selected (fun q => (10 < duration_of q)%Q)).
  - intros a q. simpl. fold (duration_of q). rewrite Qltb_decide.
    destruct (decide (10 < duration_of q)%Q).
    + by rewrite bool_decide_eq_true_2.
    + rewrite bool_decide_eq_false_2 by done. by rewrite app_nil_r.
Qed.

Lemma leader_loop_long (S : list Snapshot) :
  LeaderReplica.a_long_queries (LeaderReplica.loop S)
  = long_entry_lr <$> filter (fun q => (10 < duration_of q)%Q) (all_queries S).
Proof.
  rewrite leader_loop_flat.
  rewrite (fold_left_collect LeaderReplica.loop_body LeaderReplica.a_long_queries
             (fun q => if decide (10 < duration_of q)%Q then [long_entry_lr q] else [])).
  - apply (concat_selected (fun q => (10 < duration_of q)%Q)).
  - intros a q. simpl. fold (duration_of q). rewrite Qltb_decide.
    destruct (decide (10 < duration_of q)%Q).
    + by rewrite bool_decide_eq_true_2.
    + rewrite bool_decide_eq_false_2 by done. by rewrite app_nil_r.
Qed.

Lemma wait_type_Lock (q : Query) :
  wait_type_of q = "Lock" ↔ wait_event_type q = Some "Lock".
Proof.
  unfold wait_type_of. destruct (wait_event_type q) as [t|]; simpl.
  - split; congruence.
  - split; discriminate.
Qed.

Lemma analyze_loop_lock (S : list Snapshot) :
  Analyze.a_lock_waits (Analyze.loop S)
  = lock_entry <$> filter (fun q => wait_event_type q = Some "Lock") (all_queries S).
Proof.
  rewrite analyze_loop_flat.
  rewrite (fold_left_collect Analyze.loop_body Analyze.a_lock_waits
             (fun q => if decide (wait_event_type q = Some "Lock")
                       then [lock_entry q] else [])).
  - apply (concat_selected (fun q => wait_event_type q = Some "Lock")).
  - intros a q. simpl. fold (wait_type_of q). rewrite String_eqb_decide.
    destruct (decide (wait_event_type q = Some "Lock")) as [Hl|Hl].
    + rewrite bool_decide_eq_true_2; [done|]. by apply wait_type_Lock.
    + rewrite bool_decide_eq_false_2; [by rewrite app_nil_r|].
      by rewrite wait_type_Lock.
Qed.

Lemma leader_loop_lock (S : list Snapshot) :
  LeaderReplica.a_lock_waits (LeaderReplica.loop S)
  = lock_entry_lr <$> filter (fun q => wait_event_type q = Some "Lock") (all_queries S).
Proof.
  rewrite leader_loop_flat.
  rewrite (fold_left_collect LeaderReplica.loop_body LeaderReplica.a_lock_waits
             (fun q => if decide (wait_event_type q = Some "Lock")
                       then [lock_entry_lr q] else [])).
  - apply (concat_selected (fun q => wait_event_type q = Some "Lock")).
  - intros a q. simpl. fold (wait_type_of q). rewrite String_eqb_decide.
    destruct (decide (wait_event_type q = Some "Lock")) as [Hl|Hl].
    + rewrite bool_decide_eq_true_2; [done|]. by apply wait_type_Lock.
    + rewrite bool_decide_eq_false_2; [by rewrite app_nil_r|].
      by rewrite wait_type_Lock.
Qed.

(** ** Extraction succeeds on well-formed input, and what it returns *)

Lemma insert_asc_length {A} (key : A → Q) (x : A) (l : list A) :
  length (insert_asc key x l) = S (length l).
Proof.
  induction l as [|y r IH]; simpl; [done|].
  destruct (Qltb (key y) (key x)); simpl; by rewrite ?IH.
Qed.

Lemma sort_asc_length {A} (key : A → Q) (l : list A) :
  length (sort_asc key l) = length l.
Proof.
  induction l as [|x r IH]; simpl; [done|].
  by rewrite insert_asc_length, IH.
Qed.

Lemma mean_ok (l : list Q) : l ≠ [] → mean l = Ok (Qsum l / Qlen l)%Q.
Proof. by destruct l. Qed.

Lemma py_max_ok (l : list Q) : l ≠ [] → ∃ x, py_max l = Ok x.
Proof. destruct l; [done|]. by eexists. Qed.

Lemma py_min_ok (l : list Q) : l ≠ [] → ∃ x, py_min l = Ok x.
Proof. destruct l; [done|]. by eexists. Qed.

Lemma median_ok (l : list Q) : l ≠ [] → ∃ x, median l = Ok x.
Proof.
  intros Hl. unfold median. rewrite sort_asc_length.
  destruct l as [|x r]; [done|]. simpl length.
  destruct (Nat.odd (S (length r))); by eexists.
Qed.

Lemma stats_ok (l : list Q) : l ≠ [] → ∃ st, Analyze.stats l = Ok st.
Proof.
  intros Hl. unfold Analyze.stats.
  destruct (py_min_ok l Hl) as [mn ->], (py_max_ok l Hl) as [mx ->],
    (median_ok l Hl) as [md ->].
  rewrite (mean_ok l Hl). simpl. by eexists.
Qed.

Lemma nonempty_length {A} (l : list A) : l ≠ [] ↔ length l ≠ 0.
Proof. destruct l; simpl; split; (done || lia || congruence). Qed.

Lemma same_length_nonempty {A B} (l : list A) (k : list B) :
  length k = length l → l ≠ [] → k ≠ [].
Proof. rewrite !nonempty_length. lia. Qed.

Lemma analyze_extract_ok (S : list Snapshot) :
  S ≠ [] → Forall has_required_fields S → ∃ m, Analyze.extract_metrics S = Ok m.
Proof.
  intros Hne Hreq. unfold Analyze.extract_metrics.
  destruct (comprehension_subscript_ok load_avg_1m S) as [l1 H1].
  { eapply Forall_impl; [exact Hreq|]. by intros s (? & ? & ? & ?). }
  destruct (comprehension_subscript_ok load_avg_5m S) as [l5 H5].
  { eapply Forall_impl; [exact Hreq|]. by intros s (? & ? & ? & ?). }
  destruct (comprehension_subscript_ok load_avg_15m S) as [l15 H15].
  { eapply Forall_impl; [exact Hreq|]. by intros s (? & ? & ? & ?). }
  destruct (comprehension_subscript_ok active_query_count S) as [ac Hac].
  { eapply Forall_impl; [exact Hreq|]. by intros s (? & ? & ? & ?). }
  rewrite H1, H5, H15, Hac. simpl.
  apply comprehension_length in H1, H5, H15, Hac.
  destruct (stats_ok l1) as [s1 ->]; [by eapply same_length_nonempty|].
  destruct (stats_ok l5) as [s5 ->]; [by eapply same_length_nonempty|].
  destruct (stats_ok l15) as [s15 ->]; [by eapply same_length_nonempty|].
  destruct (stats_ok (inject_Z <$> ac)) as [sa ->].
  { eapply same_length_nonempty; [|exact Hne]. by rewrite length_fmap. }
  simpl. by eexists.
Qed.

Lemma analyze_extract_inv (S : list Snapshot) (m : Analyze.Summary) :
  Analyze.extract_metrics S = Ok m →
  Analyze.total_queries_observed m = length (Analyze.a_query_durations (Analyze.loop S)) ∧
  Analyze.query_durations m = Analyze.a_query_durations (Analyze.loop S) ∧
  Analyze.users m = counter_of (Analyze.a_users (Analyze.loop S)) ∧
  Analyze.long_queries m = Analyze.a_long_queries (Analyze.loop S) ∧
  Analyze.lock_waits m = Analyze.a_lock_waits (Analyze.loop S) ∧
  Analyze.query_signatures m = Analyze.a_query_signatures (Analyze.loop S).
Proof.
  unfold Analyze.extract_metrics. intros H.
  repeat (apply bind_Ok in H as (? & _ & H)).
  by injection H as <-.
Qed.

Lemma leader_extract_ok (S : list Snapshot) :
  S ≠ [] →
  Forall (fun s => is_Some (load_avg_1m s) ∧ is_Some (active_query_count s)) S →
  ∃ m, LeaderReplica.extract_metrics S = Ok (Some m).
Proof.
  intros Hne Hreq. unfold LeaderReplica.extract_metrics.
  assert (nonempty S = true) as -> by (by destruct S). simpl negb. cbv iota.
  destruct (comprehension_subscript_ok load_avg_1m S) as [l1 H1].
  { eapply Forall_impl; [exact Hreq|]. by intros s (? & ?). }
  destruct (comprehension_subscript_ok active_query_count S) as [ac Hac].
  { eapply Forall_impl; [exact Hreq|]. by intros s (? & ?). }
  rewrite H1, Hac. simpl.
  apply comprehension_length in H1, Hac.
  rewrite (mean_ok l1) by (by eapply same_length_nonempty). simpl.
  rewrite (mean_ok (inject_Z <$> ac)).
  2:{ eapply same_length_nonempty; [|exact Hne]. by rewrite length_fmap. }
  simpl.
  destruct (LeaderReplica.a_query_durations (LeaderReplica.loop S)) as [|d ds] eqn:Ed;
    simpl; by eexists.
Qed.

Lemma leader_extract_inv (S : list Snapshot) (m : LeaderReplica.Summary) :
  LeaderReplica.extract_metrics S = Ok (Some m) →
  LeaderReplica.total_queries m
    = length (LeaderReplica.a_query_durations (LeaderReplica.loop S)) ∧
  LeaderReplica.long_queries m = LeaderReplica.a_long_queries (LeaderReplica.loop S) ∧
  LeaderReplica.lock_waits m = LeaderReplica.a_lock_waits (LeaderReplica.loop S).
Proof.
  unfold LeaderReplica.extract_metrics. intros H.
  destruct (negb (nonempty S)); [discriminate|].
  repeat (apply bind_Ok in H as (? & _ & H)).
  by injection H as <-.
Qed.

Lemma length_all_queries (S : list Snapshot) :
  length (all_queries S) = sum_list ((fun s => length (default [] (queries s))) <$> S).
Proof.
  unfold all_queries. induction S as [|s S IH]; csimpl; [done|].
  by rewrite length_app, IH.
Qed.

(** ** Properties of the extraction *)

(** C2: on a non-empty snapshot sequence whose snapshots supply the required
    numeric fields, both extractors return a summary, and its total number
    of queries is the sum of the numbers of query observations of the
    snapshots. *)
Theorem total_queries_is_sum_over_snapshots (S : list Snapshot) :
  S ≠ [] → Forall has_required_fields S →
  ∃ m m',
    Analyze.extract_metrics S = Ok m ∧
    LeaderReplica.extract_metrics S = Ok (Some m') ∧
    Analyze.total_queries_observed m
      = sum_list ((fun s => length (default [] (queries s))) <$> S) ∧
    LeaderReplica.total_queries m'
      = sum_list ((fun s => length (default [] (queries s))) <$> S).
Proof.
  intros Hne Hreq.
  destruct (analyze_extract_ok S Hne Hreq) as [m Hm].
  destruct (leader_extract_ok S Hne) as [m' Hm'].
  { eapply Forall_impl; [exact Hreq|]. by intros s (? & ? & ? & ?). }
  exists m, m'. split; [done|]. split; [done|].
  apply analyze_extract_inv in Hm as (-> & _).
  apply leader_extract_inv in Hm' as (-> & _).
  rewrite analyze_loop_durations, leader_loop_durations, !length_fmap.
  by rewrite length_all_queries.
Qed.

Lemma total_queries_is_sum_over_snapshots_witness :
  spike_period ≠ [] ∧ Forall has_required_fields spike_period ∧
  ∃ m m',
    Analyze.extract_metrics spike_period = Ok m ∧
    LeaderReplica.extract_metrics spike_period = Ok (Some m') ∧
    Analyze.total_queries_observed m = 2 ∧
    LeaderReplica.total_queries m' = 2.
Proof.
  assert (Hne : spike_period ≠ []) by done.
  assert (Hreq : Forall has_required_fields spike_period).
  { repeat constructor; simpl; by eexists. }
  split; [exact Hne|]. split; [exact Hreq|].
  exact (total_queries_is_sum_over_snapshots spike_period Hne Hreq).
Defined.

(** C5: the long queries of a summary are the observations whose duration
    is strictly greater than 10, each observation once and in order, in both
    extractors; an observation lasting exactly 10 is not among them, one
    lasting 10.0001 is. *)
Theorem long_query_iff_duration_above_10
    (S : list Snapshot) (m : Analyze.Summary) (m' : LeaderReplica.Summary) :
  Analyze.extract_metrics S = Ok m →
  LeaderReplica.extract_metrics S = Ok (Some m') →
  Analyze.long_queries m
    = long_entry <$> filter (fun q => (10 < duration_of q)%Q) (all_queries S) ∧
  LeaderReplica.long_queries m'
    = long_entry_lr <$> filter (fun q => (10 < duration_of q)%Q) (all_queries S) ∧
  (∀ acc acc',
     Analyze.a_long_queries (Analyze.loop_body acc (with_duration 10))
       = Analyze.a_long_queries acc ∧
     LeaderReplica.a_long_queries (LeaderReplica.loop_body acc' (with_duration 10))
       = LeaderReplica.a_long_queries acc') ∧
  (∀ acc acc',
     Analyze.a_long_queries (Analyze.loop_body acc (with_duration (100001 # 10000)))
       = Analyze.a_long_queries acc ++ [long_entry (with_duration (100001 # 10000))] ∧
     LeaderReplica.a_long_queries
         (LeaderReplica.loop_body acc' (with_duration (100001 # 10000)))
       = LeaderReplica.a_long_queries acc'
         ++ [long_entry_lr (with_duration (100001 # 10000))]).
Proof.
  intros Hm Hm'.
  apply analyze_extract_inv in Hm as (_ & _ & _ & -> & _).
  apply leader_extract_inv in Hm' as (_ & -> & _).
  rewrite analyze_loop_long, leader_loop_long. by repeat split.
Qed.

Lemma long_query_iff_duration_above_10_witness :
  ∃ m m',
    Analyze.extract_metrics spike_period = Ok m ∧
    LeaderReplica.extract_metrics spike_period = Ok (Some m') ∧
    Analyze.long_queries m = [long_entry q_update; long_entry q_report] ∧
    LeaderReplica.long_queries m' = [long_entry_lr q_update; long_entry_lr q_report].
Proof.
  eexists _, _. split; [reflexivity|]. split; [reflexivity|].
  destruct (long_query_iff_duration_above_10 spike_period _ _ eq_refl eq_refl)
    as (H1 & H2 & _).
  split; [exact H1 | exact H2].
Defined.

(** C6: the lock waits of a summary are the observations whose
    [wait_event_type] is exactly the string "Lock", each observation once
    and in order, in both extractors; an observation whose type is "lock"
    is not among them. *)
Theorem lock_wait_iff_type_is_Lock
    (S : list Snapshot) (m : Analyze.Summary) (m' : LeaderReplica.Summary) :
  Analyze.extract_metrics S = Ok m →
  LeaderReplica.extract_metrics S = Ok (Some m') →
  Analyze.lock_waits m
    = lock_entry <$> filter (fun q => wait_event_type q = Some "Lock") (all_queries S) ∧
  LeaderReplica.lock_waits m'
    = lock_entry_lr <$> filter (fun q => wait_event_type q = Some "Lock") (all_queries S) ∧
  (∀ acc acc',
     Analyze.a_lock_waits (Analyze.loop_body acc (with_wait_type "lock"))
       = Analyze.a_lock_waits acc ∧
     LeaderReplica.a_lock_waits (LeaderReplica.loop_body acc' (with_wait_type "lock"))
       = LeaderReplica.a_lock_waits acc') ∧
  (∀ acc acc',
     Analyze.a_lock_waits (Analyze.loop_body acc (with_wait_type "Lock"))
       = Analyze.a_lock_waits acc ++ [lock_entry (with_wait_type "Lock")] ∧
     LeaderReplica.a_lock_waits (LeaderReplica.loop_body acc' (with_wait_type "Lock"))
       = LeaderReplica.a_lock_waits acc' ++ [lock_entry_lr (with_wait_type "Lock")]).
Proof.
  intros Hm Hm'.
  apply analyze_extract_inv in Hm as (_ & _ & _ & _ & -> & _).
  apply leader_extract_inv in Hm' as (_ & _ & ->).
  rewrite analyze_loop_lock, leader_loop_lock. by repeat split.
Qed.

Lemma lock_wait_iff_type_is_Lock_witness :
  ∃ m m',
    Analyze.extract_metrics spike_period = Ok m ∧
    LeaderReplica.extract_metrics spike_period = Ok (Some m') ∧
    Analyze.lock_waits m = [lock_entry q_update] ∧
    LeaderReplica.lock_waits m' = [lock_entry_lr q_update].
Proof.
  eexists _, _. split; [reflexivity|]. split; [reflexivity|].
  destruct (lock_wait_iff_type_is_Lock spike_period _ _ eq_refl eq_refl)
    as (H1 & H2 & _).
  split; [exact H1 | exact H2].
Defined.

(** C10: on an empty snapshot sequence the extractor of the leader/replica
    script returns Python's [None] while the extractor of the single-server
    script raises; [compare_changes] raises when either summary it receives
    is [None]. *)
Theorem empty_period_None_or_raise :
  LeaderReplica.extract_metrics [] = Ok None ∧
  Analyze.extract_metrics [] = Raise ValueError ∧
  (∀ name spike, LeaderReplica.compare_changes name None spike = Raise TypeError) ∧
  (∀ name normal, LeaderReplica.compare_changes name normal None = Raise TypeError).
Proof.
  split; [done|]. split; [done|]. split.
  - intros name [s|]; reflexivity.
  - intros name normal. reflexivity.
Qed.

(** ** Counters *)

Lemma counter_get_incr (k k' : string) (c : Counter) :
  counter_get (counter_incr k c) k'
  = (if decide (k = k') then 1 else 0) + counter_get c k'.
Proof.
  induction c as [|[k0 n] r IH]; simpl.
  - rewrite String_eqb_decide. destruct (decide (k = k')) as [->|Hne].
    + by rewrite bool_decide_eq_true_2.
    + by rewrite bool_decide_eq_false_2.
  - rewrite (String_eqb_decide k k0).
    destruct (decide (k = k0)) as [->|Hk0].
    + rewrite bool_decide_eq_true_2 by done. simpl.
      rewrite (String_eqb_decide k' k0).
      destruct (decide (k0 = k')) as [->|Hne].
      * by rewrite bool_decide_eq_true_2.
      * by rewrite bool_decide_eq_false_2.
    + rewrite bool_decide_eq_false_2 by done. simpl.
      rewrite (String_eqb_decide k' k0).
      destruct (decide (k' = k0)) as [->|Hk'].
      * rewrite bool_decide_eq_true_2 by done.
        by rewrite decide_False.
      * rewrite bool_decide_eq_false_2 by done. apply IH.
Qed.

Lemma counter_get_fold (l : list string) (c : Counter) (k : string) :
  counter_get (fold_left (fun c k => counter_incr k c) l c) k
  = counter_get c k + length (filter (fun x => x = k) l).
Proof.
  revert c. induction l as [|x l IH]; intros c; simpl; [lia|].
  rewrite IH, counter_get_incr, filter_cons.
  destruct (decide (x = k)); simpl; lia.
Qed.

(** [Counter(l)[k]] is the number of occurrences of [k] in [l]. *)
Lemma counter_of_get (l : list string) (k : string) :
  counter_get (counter_of l) k = length (filter (fun x => x = k) l).
Proof. unfold counter_of. by rewrite counter_get_fold. Qed.

Lemma filter_fmap_length {A B} (f : A → B) (P : B → Prop) `{∀ b, Decision (P b)}
    (l : list A) :
  length (filter P (f <$> l)) = length (filter (fun a => P (f a)) l).
Proof.
  induction l as [|a l IH]; csimpl; [done|].
  rewrite !filter_cons. destruct (decide (P (f a))); simpl; by rewrite IH.
Qed.

(** C4, as the code has it: the users mapping counts, for every key [u],
    the observations whose [usename] attribute (with "unknown" for an
    absent one) is [u]; each observation adds one to the count of its own
    value and leaves the other counts as they are. *)
Theorem users_counts_usename (S : list Snapshot) (m : Analyze.Summary) :
  Analyze.extract_metrics S = Ok m →
  (∀ u, counter_get (Analyze.users m) u
        = length (filter (fun q => default "unknown" (usename q) = u) (all_queries S))) ∧
  (∀ acc q u,
     counter_get (counter_of (Analyze.a_users (Analyze.loop_body acc q))) u
     = (if decide (default "unknown" (usename q) = u) then 1 else 0)
       + counter_get (counter_of (Analyze.a_users acc)) u).
Proof.
  intros Hm. apply analyze_extract_inv in Hm as (_ & _ & -> & _). split.
  - intros u. rewrite counter_of_get, analyze_loop_users.
    exact (filter_fmap_length (fun q => default "unknown" (usename q))
             (fun x => x = u) (all_queries S)).
  - intros acc q u. simpl. rewrite !counter_of_get, filter_app, length_app.
    rewrite filter_cons, filter_nil.
    destruct (decide (default "unknown" (usename q) = u)); simpl; lia.
Qed.

Lemma users_counts_usename_witness :
  ∃ m, Analyze.extract_metrics spike_period = Ok m ∧
       counter_get (Analyze.users m) "batch" = 1 ∧
       counter_get (Analyze.users m) "unknown" = 1 ∧
       counter_get (Analyze.users m) "alice" = 0.
Proof.
  eexists. split; [reflexivity|].
  destruct (users_counts_usename spike_period _ eq_refl) as [H _].
  rewrite !H. by vm_compute.
Defined.

(** C4, as it is stated, fails: an observation that carries "alice" under
    the key [username] is counted under "unknown". *)
Lemma users_not_counted_by_username :
  ¬ (∀ (S : list Snapshot) (m : Analyze.Summary),
       Analyze.extract_metrics S = Ok m →
       ∀ u, counter_get (Analyze.users m) u
            = length (filter (fun q => default "unknown" (username q) = u)
                             (all_queries S))).
Proof.
  intros H. specialize (H alice_period _ eq_refl "alice").
  vm_compute in H. discriminate H.
Qed.

(** ** Sorting *)

Section SortingFacts.
Context {A : Type} (key : A → Q).

Lemma insert_desc_perm (x : A) (l : list A) : insert_desc key x l ≡ₚ x :: l.
Proof.
  induction l as [|y r IH]; simpl; [done|].
  destruct (Qltb (key x) (key y)); [|done].
  rewrite IH. apply Permutation_swap.
Qed.

Lemma sort_desc_perm (l : list A) : sort_desc key l ≡ₚ l.
Proof.
  induction l as [|x r IH]; simpl; [done|].
  by rewrite insert_desc_perm, IH.
Qed.

Lemma sort_desc_length (l : list A) : length (sort_desc key l) = length l.
Proof. by rewrite sort_desc_perm. Qed.

Lemma insert_desc_descending (x : A) (l : list A) :
  descending key l → descending key (insert_desc key x l).
Proof.
  unfold descending. induction 1 as [|y r Hr IH Hy]; simpl.
  - repeat constructor.
  - destruct (Qltb (key x) (key y)) eqn:E.
    + apply Qltb_lt in E. constructor; [done|].
      rewrite Forall_forall. intros z Hz.
      rewrite insert_desc_perm in Hz.
      apply elem_of_cons in Hz as [->|Hz].
      * by apply Qlt_le_weak.
      * rewrite Forall_forall in Hy. by apply Hy.
    + apply Qltb_nlt, Qnot_lt_le in E. constructor.
      * by constructor.
      * constructor; [done|].
        eapply Forall_impl; [exact Hy|]. intros z Hz. simpl in Hz.
        by eapply Qle_trans.
Qed.

Lemma sort_desc_descending (l : list A) : descending key (sort_desc key l).
Proof.
  induction l as [|x r IH]; simpl; [constructor|].
  by apply insert_desc_descending.
Qed.

(** The first element of the sorted list has a largest key. *)
Lemma sort_desc_head_max (l r : list A) (x : A) :
  sort_desc key l = x :: r → ∀ y, y ∈ l → (key y <= key x)%Q.
Proof.
  intros E y Hy. rewrite <- sort_desc_perm, E in Hy.
  pose proof (sort_desc_descending l) as Hs. rewrite E in Hs.
  apply StronglySorted_inv in Hs as [_ Hx].
  apply elem_of_cons in Hy as [->|Hy]; [apply Qle_refl|].
  rewrite Forall_forall in Hx. by apply Hx.
Qed.
End SortingFacts.

(** ** The keys of a counter, and its most common key *)

Lemma counter_incr_keys (k : string) (c : Counter) :
  (counter_incr k c).*1 = if decide (k ∈ c.*1) then c.*1 else c.*1 ++ [k].
Proof.
  induction c as [|[k0 n] r IH]; csimpl.
  - done.
  - rewrite String_eqb_decide. destruct (decide (k = k0)) as [->|Hne].
    + rewrite bool_decide_eq_true_2 by done. csimpl.
      rewrite decide_True; [done|]. apply list_elem_of_here.
    + rewrite bool_decide_eq_false_2 by done. csimpl. rewrite IH.
      destruct (decide (k ∈ r.*1)) as [Hin|Hin].
      * rewrite decide_True; [done|]. by apply list_elem_of_further.
      * rewrite decide_False; [done|]. rewrite elem_of_cons. by intros [?|?].
Qed.

Lemma counter_incr_NoDup (k : string) (c : Counter) :
  NoDup c.*1 → NoDup (counter_incr k c).*1.
Proof.
  intros Hc. rewrite counter_incr_keys. destruct (decide (k ∈ c.*1)); [done|].
  apply NoDup_app. split; [done|]. split.
  - intros x Hx Hk. apply list_elem_of_singleton in Hk as ->. done.
  - apply NoDup_singleton.
Qed.

Lemma counter_of_NoDup (l : list string) : NoDup (counter_of l).*1.
Proof.
  unfold counter_of. generalize (NoDup_nil_2 (A := string)).
  change (@nil string) with ((@nil (string * nat)).*1).
  generalize (@nil (string * nat)). induction l as [|x l IH]; intros c Hc; simpl.
  - done.
  - apply IH. by apply counter_incr_NoDup.
Qed.

Lemma counter_get_absent (c : Counter) (k : string) : k ∉ c.*1 → counter_get c k = 0.
Proof.
  induction c as [|[k0 n] r IH]; csimpl; [done|].
  rewrite not_elem_of_cons. intros [Hne Hr].
  rewrite String_eqb_decide, bool_decide_eq_false_2 by done. by apply IH.
Qed.

Lemma counter_get_present (c : Counter) (k : string) :
  k ∈ c.*1 → (k, counter_get c k) ∈ c.
Proof.
  induction c as [|[k0 n] r IH]; csimpl.
  - by intros ?%elem_of_nil.
  - intros Hk. rewrite String_eqb_decide. destruct (decide (k = k0)) as [->|Hne].
    + rewrite bool_decide_eq_true_2 by done. apply list_elem_of_here.
    + rewrite bool_decide_eq_false_2 by done. apply list_elem_of_further, IH.
      apply elem_of_cons in Hk as [?|?]; done.
Qed.

Lemma counter_get_entry (c : Counter) (k : string) (n : nat) :
  NoDup c.*1 → (k, n) ∈ c → counter_get c k = n.
Proof.
  induction c as [|[k0 n0] r IH]; csimpl.
  - by intros _ ?%elem_of_nil.
  - intros [Hk0 Hr]%NoDup_cons Hin. rewrite String_eqb_decide.
    apply elem_of_cons in Hin as [[= -> ->]|Hin].
    + by rewrite bool_decide_eq_true_2.
    + destruct (decide (k = k0)) as [->|Hne].
      * exfalso. apply Hk0. apply list_elem_of_fmap. by exists (k0, n).
      * rewrite bool_decide_eq_false_2 by done. by apply IH.
Qed.

Lemma counter_of_nonempty (l : list string) : l ≠ [] → counter_of l ≠ [].
Proof.
  destruct l as [|x l]; [done|]. intros _ E.
  pose proof (counter_of_get (x :: l) x) as H. rewrite E in H.
  rewrite filter_cons, decide_True in H by done. discriminate H.
Qed.

(** [Counter(l).most_common(1)] on a non-empty list: one entry, a key that
    occurs most often in [l], with its number of occurrences. *)
Lemma most_common_mode (l : list string) :
  l ≠ [] →
  ∃ a n, most_common 1 (counter_of l) = [(a, n)] ∧
         n = length (filter (fun x => x = a) l) ∧
         ∀ a', (length (filter (fun x => x = a') l) ≤ n)%nat.
Proof.
  intros Hl. unfold most_common.
  set (key := fun kv : string * nat => inject_Z (Z.of_nat kv.2)).
  destruct (sort_desc key (counter_of l)) as [|[a n] r] eqn:E.
  - apply (f_equal length) in E. rewrite sort_desc_length in E.
    apply counter_of_nonempty in Hl. by destruct (counter_of l).
  - exists a, n. split; [done|].
    assert (Hin : (a, n) ∈ counter_of l).
    { rewrite <- (sort_desc_perm key), E. apply list_elem_of_here. }
    assert (Hn : counter_get (counter_of l) a = n).
    { apply counter_get_entry; [apply counter_of_NoDup | done]. }
    split; [by rewrite <- counter_of_get|].
    intros a'. rewrite <- counter_of_get.
    destruct (decide (a' ∈ (counter_of l).*1)) as [Ha'|Ha'].
    + apply counter_get_present in Ha'.
      pose proof (sort_desc_head_max key _ _ _ E _ Ha') as Hle.
      unfold key in Hle. simpl in Hle. rewrite <- Zle_Qle in Hle. lia.
    + rewrite counter_get_absent by done. lia.
Qed.

(** ** The comparison of two summaries always returns *)

Lemma nonempty_true {A} (l : list A) : nonempty l = true ↔ l ≠ [].
Proof. destruct l; simpl; split; done. Qed.

Lemma compare_durations_ok (normal spike : Analyze.Summary) :
  ∃ d, Analyze.compare_durations normal spike = Ok d.
Proof.
  unfold Analyze.compare_durations.
  destruct (nonempty (Analyze.query_durations normal)) eqn:En; simpl; [|by eexists].
  destruct (nonempty (Analyze.query_durations spike)) eqn:Es; simpl; [|by eexists].
  apply nonempty_true in En, Es.
  rewrite (mean_ok _ En), (mean_ok _ Es). simpl.
  destruct (median_ok _ En) as [? ->], (median_ok _ Es) as [? ->]. simpl.
  destruct (py_max_ok _ En) as [? ->], (py_max_ok _ Es) as [? ->]. simpl.
  by eexists.
Qed.

Lemma spike_after_long_perm (spike : Analyze.Summary) :
  Analyze.long_queries (spike_after spike) ≡ₚ Analyze.long_queries spike.
Proof.
  unfold spike_after. destruct (nonempty (Analyze.long_queries spike)); [|done].
  simpl. apply sort_desc_perm.
Qed.

Lemma spike_after_long_nil (spike : Analyze.Summary) :
  Analyze.long_queries (spike_after spike) = [] ↔ Analyze.long_queries spike = [].
Proof.
  split; intros H.
  - apply Permutation_nil_r. by rewrite <- H, spike_after_long_perm.
  - apply Permutation_nil_r. by rewrite <- H, spike_after_long_perm.
Qed.

(** The findings of a call, from the rules that fire. *)
Lemma key_findings_run (normal spike : Analyze.Summary) (load_pct : Q)
    (apps : gset string) :
  ∃ culprit,
    (Analyze.long_queries spike = [] → culprit = []) ∧
    (Analyze.long_queries spike ≠ [] →
     ∃ app n,
       culprit = [Analyze.MainCulprit app n] ∧
       n = length (filter (fun x => x = app) (Analyze.lq_app <$> Analyze.long_queries spike)) ∧
       ∀ other, (length (filter (fun x => x = other)
                           (Analyze.lq_app <$> Analyze.long_queries spike)) ≤ n)%nat) ∧
    Analyze.key_findings normal spike load_pct apps
    = Ok (let fired :=
            when (Qltb (Qlen (Analyze.long_queries normal) * (3 # 2))
                       (Qlen (Analyze.long_queries spike)))
                 (Analyze.LongQueriesIncreased (length (Analyze.long_queries normal))
                                               (length (Analyze.long_queries spike)))
            ++ when (Qltb (Qlen (Analyze.lock_waits normal) * (6 # 5))
                          (Qlen (Analyze.lock_waits spike)))
                    (Analyze.LockContentionIncreased (length (Analyze.lock_waits normal))
                                                     (length (Analyze.lock_waits spike)))
            ++ when (Qltb 10 (Qabs load_pct))
                    (Analyze.LoadChanged (Qltb 0 load_pct) (Qabs load_pct))
            ++ when (negb (Nat.eqb (size apps) 0)) (Analyze.NewApplications (size apps))
            ++ culprit in
          if nonempty fired then fired else [Analyze.NoSignificantDifferences]).
Proof.
  unfold Analyze.key_findings.
  destruct (Analyze.long_queries spike) as [|q qs] eqn:El.
  - exists []. split; [done|]. split; [done|]. simpl nonempty. cbv iota.
    destruct (Qltb _ (Qlen [])), (Qltb _ (Qlen (Analyze.lock_waits spike))),
      (Qltb 10 (Qabs load_pct)), (negb (Nat.eqb (size apps) 0)); reflexivity.
  - destruct (most_common_mode (Analyze.lq_app <$> (q :: qs))) as (app & n & Hmc & Hn & Hmax);
      [done|].
    exists [Analyze.MainCulprit app n]. split; [done|].
    split; [intros _; by exists app, n|].
    simpl nonempty. cbv iota. rewrite Hmc.
    destruct (Qltb _ (Qlen (q :: qs))), (Qltb _ (Qlen (Analyze.lock_waits spike))),
      (Qltb 10 (Qabs load_pct)), (negb (Nat.eqb (size apps) 0)); reflexivity.
Qed.

Lemma spike_after_signatures (spike : Analyze.Summary) :
  Analyze.query_signatures (spike_after spike) = Analyze.query_signatures spike.
Proof. unfold spike_after. by destruct (nonempty (Analyze.long_queries spike)). Qed.

Lemma spike_after_applications (spike : Analyze.Summary) :
  Analyze.applications (spike_after spike) = Analyze.applications spike.
Proof. unfold spike_after. by destruct (nonempty (Analyze.long_queries spike)). Qed.

Lemma spike_after_lock_waits (spike : Analyze.Summary) :
  Analyze.lock_waits (spike_after spike) = Analyze.lock_waits spike.
Proof. unfold spike_after. by destruct (nonempty (Analyze.long_queries spike)). Qed.

(** [compare_metrics] returns, and what it returns. *)
Lemma compare_metrics_run (normal spike : Analyze.Summary) :
  let load_diff :=
    (Analyze.s_avg (Analyze.load_1m spike) - Analyze.s_avg (Analyze.load_1m normal))%Q in
  let load_pct := guarded_pct load_diff (Analyze.s_avg (Analyze.load_1m normal)) in
  let query_diff :=
    (Analyze.s_avg (Analyze.active_queries spike)
     - Analyze.s_avg (Analyze.active_queries normal))%Q in
  let only_spike_apps :=
    counter_keys (Analyze.applications spike) ∖ counter_keys (Analyze.applications normal) in
  ∃ d fs,
    Analyze.compare_durations normal spike = Ok d ∧
    Analyze.key_findings normal (spike_after spike) load_pct only_spike_apps = Ok fs ∧
    Analyze.compare_metrics normal spike
    = Ok ({| Analyze.load_diff := load_diff;
             Analyze.load_pct := load_pct;
             Analyze.query_diff := query_diff;
             Analyze.query_pct :=
               guarded_pct query_diff (Analyze.s_avg (Analyze.active_queries normal));
             Analyze.duration := d;
             Analyze.top_long := take 10 (Analyze.long_queries (spike_after spike));
             Analyze.both :=
               Analyze.query_signatures normal ∩ Analyze.query_signatures spike;
             Analyze.only_in_spike :=
               Analyze.query_signatures spike ∖ Analyze.query_signatures normal;
             Analyze.only_in_normal :=
               Analyze.query_signatures normal ∖ Analyze.query_signatures spike;
             Analyze.only_spike_apps := only_spike_apps;
             Analyze.only_normal_apps :=
               counter_keys (Analyze.applications normal)
               ∖ counter_keys (Analyze.applications spike);
             Analyze.findings := fs |},
          (normal, spike_after spike)).
Proof.
  intros load_diff load_pct query_diff only_spike_apps.
  destruct (compare_durations_ok normal spike) as [d Hd].
  destruct (key_findings_run normal (spike_after spike) load_pct only_spike_apps)
    as (culprit & _ & _ & Hk).
  eexists d, _. split; [done|]. split; [exact Hk|].
  unfold Analyze.compare_metrics. rewrite Hd. simpl.
  fold (spike_after spike).
  rewrite !spike_after_signatures, !spike_after_applications.
  fold load_diff. fold (guarded_pct load_diff (Analyze.s_avg (Analyze.load_1m normal))).
  fold load_pct. fold only_spike_apps. rewrite Hk. reflexivity.
Qed.

(** ** Properties of the comparison *)

(** C7: the comparison returns the intersection and the two differences of
    the signature sets of the two summaries, and their sizes add up to the
    size of the union. *)
Theorem signature_sets_partition_the_union (normal spike : Analyze.Summary) :
  ∃ r st,
    Analyze.compare_metrics normal spike = Ok (r, st) ∧
    Analyze.both r = Analyze.query_signatures normal ∩ Analyze.query_signatures spike ∧
    Analyze.only_in_normal r
      = Analyze.query_signatures normal ∖ Analyze.query_signatures spike ∧
    Analyze.only_in_spike r
      = Analyze.query_signatures spike ∖ Analyze.query_signatures normal ∧
    size (Analyze.both r) + size (Analyze.only_in_normal r) + size (Analyze.only_in_spike r)
      = size (Analyze.query_signatures normal ∪ Analyze.query_signatures spike).
Proof.
  destruct (compare_metrics_run normal spike) as (d & fs & _ & _ & Hr).
  eexists _, _. split; [exact Hr|]. simpl. repeat (split; [done|]).
  set (B := Analyze.query_signatures normal). set (V := Analyze.query_signatures spike).
  rewrite <- !size_union by set_solver.
  f_equal. apply set_eq. intros x.
  destruct (decide (x ∈ B)), (decide (x ∈ V)); set_solver.
Qed.

(** What the comparison leaves of its two arguments: the normal summary as
    it was; the spike summary with its long queries reordered, longest
    first, and every other field as it was. *)
Lemma compare_metrics_frame (normal spike : Analyze.Summary) r normal' spike' :
  Analyze.compare_metrics normal spike = Ok (r, (normal', spike')) →
  normal' = normal ∧
  spike' = Analyze.with_long_queries (Analyze.long_queries spike') spike ∧
  Analyze.long_queries spike' ≡ₚ Analyze.long_queries spike ∧
  descending Analyze.lq_duration (Analyze.long_queries spike').
Proof.
  destruct (compare_metrics_run normal spike) as (d & fs & _ & _ & Hr).
  rewrite Hr. intros [= <- <- <-]. split; [done|].
  split; [|split; [apply spike_after_long_perm|]].
  - unfold spike_after. destruct (nonempty (Analyze.long_queries spike)); [done|].
    by destruct spike.
  - unfold spike_after. destruct (Analyze.long_queries spike) as [|q qs] eqn:E; simpl.
    + rewrite E. constructor.
    + apply (sort_desc_descending Analyze.lq_duration (q :: qs)).
Qed.

(** C3 fails on the code: [compare_metrics] sorts the long queries of the
    spike summary in place.  On the sample periods the spike summary holds
    its long queries in the order 15, 20 before the call and 20, 15 after. *)
Theorem compare_metrics_reorders_spike_long_queries :
  ∃ normal spike r normal' spike',
    Analyze.extract_metrics normal_period = Ok normal ∧
    Analyze.extract_metrics spike_period = Ok spike ∧
    Analyze.compare_metrics normal spike = Ok (r, (normal', spike')) ∧
    normal' = normal ∧
    Analyze.lq_duration <$> Analyze.long_queries spike = [15%Q; 20%Q] ∧
    Analyze.lq_duration <$> Analyze.long_queries spike' = [20%Q; 15%Q] ∧
    spike' ≠ spike.
Proof.
  eexists _, _, _, _, _.
  split; [reflexivity|]. split; [reflexivity|]. split; [reflexivity|].
  split; [reflexivity|]. split; [reflexivity|]. split; [reflexivity|].
  intros H. apply (f_equal (fun m => Analyze.lq_duration <$> Analyze.long_queries m)) in H.
  vm_compute in H. discriminate H.
Qed.

(** The percentages of the single-server comparison: the quotient on a
    positive baseline, 0 on a zero baseline, for the load average, the
    active-query average and, when both periods have durations, the mean
    query duration. *)
Lemma analyze_percent_guard (normal spike : Analyze.Summary) r st :
  Analyze.compare_metrics normal spike = Ok (r, st) →
  let bl := Analyze.s_avg (Analyze.load_1m normal) in
  let ba := Analyze.s_avg (Analyze.active_queries normal) in
  Analyze.load_diff r = (Analyze.s_avg (Analyze.load_1m spike) - bl)%Q ∧
  Analyze.query_diff r = (Analyze.s_avg (Analyze.active_queries spike) - ba)%Q ∧
  ((0 < bl)%Q → Analyze.load_pct r = (Analyze.load_diff r / bl * 100)%Q) ∧
  ((bl == 0)%Q → Analyze.load_pct r = 0%Q) ∧
  ((0 < ba)%Q → Analyze.query_pct r = (Analyze.query_diff r / ba * 100)%Q) ∧
  ((ba == 0)%Q → Analyze.query_pct r = 0%Q) ∧
  (∀ d, Analyze.duration r = Some d →
        Analyze.duration_diff d = (Analyze.spike_avg d - Analyze.normal_avg d)%Q ∧
        ((0 < Analyze.normal_avg d)%Q →
         Analyze.duration_pct d
         = (Analyze.duration_diff d / Analyze.normal_avg d * 100)%Q) ∧
        ((Analyze.normal_avg d == 0)%Q → Analyze.duration_pct d = 0%Q)).
Proof.
  destruct (compare_metrics_run normal spike) as (d0 & fs & Hd & _ & Hr).
  rewrite Hr. intros [= <- <-] bl ba. subst bl ba. simpl. unfold guarded_pct.
  split; [done|]. split; [done|].
  split. { intros H. apply Qltb_lt in H. by rewrite H. }
  split. { intros H. destruct (Qltb 0 _) eqn:E; [|done].
           apply Qltb_lt in E. rewrite H in E. by apply Qlt_irrefl in E. }
  split. { intros H. apply Qltb_lt in H. by rewrite H. }
  split. { intros H. destruct (Qltb 0 _) eqn:E; [|done].
           apply Qltb_lt in E. rewrite H in E. by apply Qlt_irrefl in E. }
  intros d ->. unfold Analyze.compare_durations in Hd.
  destruct (nonempty _ && nonempty _); [|discriminate].
  repeat (apply bind_Ok in Hd as (? & _ & Hd)).
  injection Hd as <-. simpl. split; [done|]. split.
  - intros H. apply Qltb_lt in H. by rewrite H.
  - intros H. destruct (Qltb 0 _) eqn:E; [|done].
    apply Qltb_lt in E. rewrite H in E. by apply Qlt_irrefl in E.
Qed.

(** C1 fails on the code of the leader/replica script: [compare_changes]
    divides by the baseline average without a guard.  With a normal period
    in which no query was active, the call raises [ZeroDivisionError]. *)
Theorem compare_changes_divides_by_zero_baseline :
  ∃ normal spike,
    LeaderReplica.extract_metrics quiet_period = Ok (Some normal) ∧
    LeaderReplica.extract_metrics spike_period = Ok (Some spike) ∧
    (LeaderReplica.active_queries_avg normal == 0)%Q ∧
    LeaderReplica.compare_changes "pg00 (Leader)" (Some normal) (Some spike)
    = Raise ZeroDivisionError.
Proof.
  eexists _, _. split; [reflexivity|]. split; [reflexivity|].
  split; reflexivity.
Qed.

Lemma size_nonzero_decide (X : gset string) :
  negb (Nat.eqb (size X) 0) = bool_decide (X ≠ ∅).
Proof.
  destruct (decide (X = ∅)) as [->|Hne].
  - by rewrite size_empty, bool_decide_eq_false_2 by (intros H; by apply H).
  - rewrite bool_decide_eq_true_2 by done.
    destruct (size X) eqn:E; [|done].
    apply size_empty_iff in E. by apply leibniz_equiv in E.
Qed.

Lemma guarded_pct_of_no_change (diff base : Q) :
  (diff == 0)%Q → ¬ (10 < Qabs (guarded_pct diff base))%Q.
Proof.
  intros Hd. unfold guarded_pct. destruct (Qltb 0 base).
  - assert (diff / base * 100 == 0)%Q as -> by (rewrite Hd; reflexivity).
    by vm_compute.
  - by vm_compute.
Qed.

Lemma spike_after_long_length (spike : Analyze.Summary) :
  length (Analyze.long_queries (spike_after spike)) = length (Analyze.long_queries spike).
Proof. by rewrite spike_after_long_perm. Qed.

Lemma spike_after_app_count (spike : Analyze.Summary) (app : string) :
  length (filter (fun x => x = app) (Analyze.lq_app <$> Analyze.long_queries (spike_after spike)))
  = length (filter (fun x => x = app) (Analyze.lq_app <$> Analyze.long_queries spike)).
Proof. by rewrite spike_after_long_perm. Qed.

(** C8, as the code has it: the findings are those of the rules that fire,
    in the order of the rules, each rule on its own condition; when none
    fires the single finding is "no significant differences".  With no long
    queries and no lock waits in either period and equal load averages,
    that is the case as soon as no application appears only in the spike
    period. *)
Theorem findings_are_the_fired_rules (normal spike : Analyze.Summary) :
  ∃ r st culprit,
    Analyze.compare_metrics normal spike = Ok (r, st) ∧
    Analyze.load_pct r
      = guarded_pct (Analyze.s_avg (Analyze.load_1m spike)
                     - Analyze.s_avg (Analyze.load_1m normal))
                    (Analyze.s_avg (Analyze.load_1m normal)) ∧
    Analyze.only_spike_apps r
      = counter_keys (Analyze.applications spike)
        ∖ counter_keys (Analyze.applications normal) ∧
    (Analyze.long_queries spike = [] → culprit = []) ∧
    (Analyze.long_queries spike ≠ [] →
     ∃ app n,
       culprit = [Analyze.MainCulprit app n] ∧
       n = length (filter (fun x => x = app)
                          (Analyze.lq_app <$> Analyze.long_queries spike)) ∧
       ∀ other, (length (filter (fun x => x = other)
                           (Analyze.lq_app <$> Analyze.long_queries spike)) ≤ n)%nat) ∧
    let fired :=
      when (bool_decide (Qlen (Analyze.long_queries normal) * (3 # 2)
                         < Qlen (Analyze.long_queries spike))%Q)
           (Analyze.LongQueriesIncreased (length (Analyze.long_queries normal))
                                         (length (Analyze.long_queries spike)))
      ++ when (bool_decide (Qlen (Analyze.lock_waits normal) * (6 # 5)
                            < Qlen (Analyze.lock_waits spike))%Q)
              (Analyze.LockContentionIncreased (length (Analyze.lock_waits normal))
                                               (length (Analyze.lock_waits spike)))
      ++ when (bool_decide (10 < Qabs (Analyze.load_pct r))%Q)
              (Analyze.LoadChanged (bool_decide (0 < Analyze.load_pct r)%Q)
                                   (Qabs (Analyze.load_pct r)))
      ++ when (bool_decide (Analyze.only_spike_apps r ≠ ∅))
              (Analyze.NewApplications (size (Analyze.only_spike_apps r)))
      ++ culprit in
    (fired ≠ [] → Analyze.findings r = fired) ∧
    (fired = [] → Analyze.findings r = [Analyze.NoSignificantDifferences]) ∧
    (Analyze.long_queries normal = [] → Analyze.long_queries spike = [] →
     Analyze.lock_waits normal = [] → Analyze.lock_waits spike = [] →
     (Analyze.s_avg (Analyze.load_1m spike) == Analyze.s_avg (Analyze.load_1m normal))%Q →
     Analyze.only_spike_apps r = ∅ →
     Analyze.findings r = [Analyze.NoSignificantDifferences]).
Proof.
  destruct (compare_metrics_run normal spike) as (d & fs & _ & Hfs & Hr).
  cbv zeta in Hfs, Hr.
  set (lp := guarded_pct _ _) in *. set (apps := _ ∖ _) in Hfs, Hr |- *.
  destruct (key_findings_run normal (spike_after spike) lp apps)
    as (culprit & Hnil & Hcons & Hk).
  rewrite Hk in Hfs. injection Hfs as <-. clear Hk.
  eexists _, _, culprit. split; [exact Hr|]. cbn [Analyze.load_pct Analyze.only_spike_apps
    Analyze.findings]. split; [done|]. split; [done|].
  unfold Qlen. rewrite !spike_after_long_length, !spike_after_lock_waits.
  fold (@Qlen Analyze.LongQuery). fold (@Qlen Analyze.LockWait).
  rewrite !Qltb_decide, !size_nonzero_decide.
  split; [by rewrite <- spike_after_long_nil|].
  split.
  { intros Hne. rewrite <- spike_after_long_nil in Hne.
    destruct (Hcons Hne) as (app & n & -> & Hn & Hmax). exists app, n.
    split; [done|]. rewrite spike_after_app_count in Hn. split; [done|].
    intros other. rewrite <- spike_after_app_count. apply Hmax. }
  set (fired := _ ++ _). split; [|split].
  - intros Hne. by destruct fired.
  - by intros ->.
  - intros Hln Hls Hkn Hks Hload Happs. subst fired.
    rewrite Hln, Hls, Hkn, Hks, Happs, (Hnil (proj2 (spike_after_long_nil _) Hls)).
    rewrite (bool_decide_eq_false_2 (10 < Qabs lp)%Q).
    + reflexivity.
    + apply guarded_pct_of_no_change. rewrite Hload. ring.
Qed.

(** C8, as it is stated, fails: two periods without long queries and lock
    waits and with the same load average, whose one query comes from
    another application in the spike period, have the finding of the
    new-applications rule and not the fallback one. *)
Lemma new_application_alone_is_a_finding :
  ∃ normal spike r st,
    Analyze.extract_metrics normal_period = Ok normal ∧
    Analyze.extract_metrics moved_period = Ok spike ∧
    Analyze.long_queries normal = [] ∧ Analyze.long_queries spike = [] ∧
    Analyze.lock_waits normal = [] ∧ Analyze.lock_waits spike = [] ∧
    Analyze.s_avg (Analyze.load_1m spike) = Analyze.s_avg (Analyze.load_1m normal) ∧
    Analyze.compare_metrics normal spike = Ok (r, st) ∧
    Analyze.findings r = [Analyze.NewApplications 1] ∧
    Analyze.findings r ≠ [Analyze.NoSignificantDifferences].
Proof.
  eexists _, _, _, _.
  split; [reflexivity|]. split; [reflexivity|].
  repeat (split; [reflexivity|]).
  by vm_compute.
Qed.

(** ** Splitting on whitespace and joining with single spaces *)

Lemma rstrip_empty (s : string) :
  rstrip s = "" → split_ws s = [] ∧ starts_word s = false.
Proof.
  induction s as [|c r IH]; simpl; [done|].
  destruct (rstrip r) eqn:Er; [|discriminate].
  destruct (is_space c) eqn:Ec; [|discriminate].
  intros _. by destruct IH.
Qed.

Lemma rstrip_head (c : ascii) (r : string) :
  rstrip (String c r) = "" ∨ ∃ t, rstrip (String c r) = String c t.
Proof.
  simpl. destruct (rstrip r); [destruct (is_space c)|]; eauto.
Qed.

Lemma rstrip_starts_space (s : string) :
  rstrip s ≠ "" → starts_space (rstrip s) = starts_space s.
Proof.
  destruct s as [|c r]; [done|].
  destruct (rstrip_head c r) as [->|[t ->]]; done.
Qed.

Lemma rstrip_nonempty (s : string) : rstrip s ≠ "" → split_ws s ≠ [].
Proof.
  induction s as [|c r IH]; simpl; [done|].
  destruct (is_space c) eqn:Ec.
  - destruct (rstrip r); [done|]. intros _. by apply IH.
  - intros _. destruct (starts_word r); [by destruct (split_ws r)|done].
Qed.

Lemma starts_word_split (s : string) :
  starts_word s = true → ∃ w ws, split_ws s = w :: ws.
Proof.
  destruct s as [|c r]; simpl; [done|].
  intros ->%negb_true_iff.
  destruct (starts_word r); [destruct (split_ws r)|]; eauto.
Qed.

Lemma join_sp_cons_char (c : ascii) (w : string) (ws : list string) :
  join_sp (String c w :: ws) = String c (join_sp (w :: ws)).
Proof. unfold join_sp. simpl. by destruct ws. Qed.

Lemma collapse_ws_cons (c : ascii) (r : string) :
  collapse_ws (String c r)
  = if is_space c
    then if starts_space r then collapse_ws r else String " " (collapse_ws r)
    else String c (collapse_ws r).
Proof. reflexivity. Qed.

(** Collapsing the runs of a string without trailing whitespace gives the
    joined words, after one space when the string begins with whitespace. *)
Lemma collapse_rstrip_join (s : string) :
  collapse_ws (rstrip s)
  = if starts_space s && truthy (rstrip s)
    then String " " (join_sp (split_ws s))
    else join_sp (split_ws s).
Proof.
  induction s as [|c r IH]; [done|].
  cbn [rstrip split_ws starts_space].
  destruct (rstrip r) as [|c1 t] eqn:Er.
  - destruct (rstrip_empty r Er) as [Hsp Hw]. rewrite Hsp, Hw.
    destruct (is_space c) eqn:Ec; simpl; by rewrite ?Ec.
  - assert (HR : rstrip r ≠ "") by (by rewrite Er).
    pose proof (rstrip_starts_space r HR) as Hss. rewrite Er in Hss.
    cbn [truthy] in IH. rewrite andb_true_r in IH.
    rewrite collapse_ws_cons, Hss, IH. cbn [truthy]. rewrite andb_true_r.
    destruct (is_space c) eqn:Ec.
    + by destruct (starts_space r).
    + destruct (starts_space r) eqn:Esr.
      * assert (starts_word r = false) as ->.
        { destruct r; simpl in *; [done|]. by rewrite Esr. }
        destruct (split_ws r) as [|w ws] eqn:Esp; [by apply rstrip_nonempty in HR|].
        reflexivity.
      * assert (Hw : starts_word r = true).
        { destruct r; simpl in *; [done|]. by rewrite Esr. }
        rewrite Hw. destruct (starts_word_split r Hw) as (w & ws & ->).
        by rewrite join_sp_cons_char.
Qed.

Lemma lstrip_split (s : string) : split_ws (lstrip s) = split_ws s.
Proof.
  induction s as [|c r IH]; [done|].
  cbn [lstrip]. destruct (is_space c) eqn:Ec; [|done].
  rewrite IH. simpl. by rewrite Ec.
Qed.

Lemma lstrip_starts_space (s : string) : starts_space (lstrip s) = false.
Proof.
  induction s as [|c r IH]; [done|].
  cbn [lstrip]. destruct (is_space c) eqn:Ec; [done|]. simpl. by rewrite Ec.
Qed.

(** [' '.join(s.split())] removes the leading and the trailing whitespace
    of [s] and collapses the runs of whitespace that remain. *)
Lemma join_split_strip_collapse (s : string) :
  join_sp (split_ws s) = collapse_ws (strip s).
Proof.
  unfold strip. by rewrite collapse_rstrip_join, lstrip_starts_space, lstrip_split.
Qed.

(** ** The query signature *)

(** C9, as the code has it: the signature is a function of the preview
    alone; it is absent on an empty preview, and such an observation leaves
    the signature set as it is; on a non-empty preview it is the first 200
    characters with the leading and the trailing whitespace removed and the
    remaining runs of whitespace collapsed to single spaces, and the
    observation adds it to the signature set unless it is empty. *)
Theorem query_signature_of_preview (q : Query) :
  (∀ q', query_preview q' = query_preview q →
         Analyze.get_query_signature q' = Analyze.get_query_signature q) ∧
  (preview_of q = "" →
   Analyze.get_query_signature q = None ∧
   ∀ acc, Analyze.a_query_signatures (Analyze.loop_body acc q)
          = Analyze.a_query_signatures acc) ∧
  (preview_of q ≠ "" →
   Analyze.get_query_signature q
   = Some (collapse_ws (strip (str_take 200 (preview_of q))))) ∧
  (∀ acc sig,
     Analyze.get_query_signature q = Some sig → sig ≠ "" →
     Analyze.a_query_signatures (Analyze.loop_body acc q)
     = {[sig]} ∪ Analyze.a_query_signatures acc).
Proof.
  split; [|split; [|split]].
  - intros q' Hq. unfold Analyze.get_query_signature. by rewrite Hq.
  - intros Hp. unfold Analyze.get_query_signature, Analyze.loop_body.
    fold (preview_of q). by rewrite Hp.
  - intros Hp. unfold Analyze.get_query_signature. fold (preview_of q).
    destruct (preview_of q) eqn:E; [done|]. simpl negb. cbv iota.
    by rewrite join_split_strip_collapse.
  - intros acc sig Hsig Hne. cbn [Analyze.loop_body Analyze.a_query_signatures].
    rewrite Hsig. unfold Analyze.get_query_signature in Hsig.
    destruct (truthy (default "" (query_preview q))); [|discriminate].
    by destruct sig.
Qed.

(** C9, as it is stated, fails: the signature of the preview " a" is "a",
    while collapsing its runs of whitespace gives " a". *)
Lemma signature_drops_leading_whitespace :
  Analyze.get_query_signature q_alice = Some "a" ∧
  collapsed_signature (preview_of q_alice) = Some " a" ∧
  Analyze.get_query_signature q_alice ≠ collapsed_signature (preview_of q_alice).
Proof. by vm_compute. Qed.

(** ** The outcome of an extraction *)

Lemma comprehension_subscript_cases {A B} (field : A → option B) (l : list A) :
  (∃ ys, comprehension (fun s => subscript (field s)) l = Ok ys ∧
         Forall (fun s => is_Some (field s)) l) ∨
  (comprehension (fun s => subscript (field s)) l = Raise KeyError ∧
   Exists (fun s => field s = None) l).
Proof.
  induction l as [|x r IH]; simpl.
  - left. by eexists.
  - destruct (field x) as [y|] eqn:E; simpl.
    + destruct IH as [(ys & -> & Hall)|[-> Hex]]; simpl.
      * left. eexists. split; [done|]. constructor; [by rewrite E|done].
      * right. split; [done|]. by apply Exists_cons_tl.
    + right. split; [done|]. by apply Exists_cons_hd.
Qed.

Lemma analyze_extract_cases (S : list Snapshot) :
  (S = [] ∧ Analyze.extract_metrics S = Raise ValueError) ∨
  (Exists (fun s => ¬ has_required_fields s) S ∧
   Analyze.extract_metrics S = Raise KeyError) ∨
  (S ≠ [] ∧ Forall has_required_fields S ∧ ∃ m, Analyze.extract_metrics S = Ok m).
Proof.
  destruct S as [|s0 S0]; [by left|]. right.
  set (S := s0 :: S0).
  destruct (decide (Forall has_required_fields S)) as [Hall|Hnot].
  { right. split; [done|]. split; [done|]. by apply analyze_extract_ok. }
  left. split; [exact (not_Forall_Exists _ _ Hnot)|].
  unfold Analyze.extract_metrics.
  destruct (comprehension_subscript_cases load_avg_1m S) as [(l1 & -> & H1)|[-> _]];
    [|done].
  destruct (comprehension_subscript_cases load_avg_5m S) as [(l5 & -> & H5)|[-> _]];
    [|done].
  destruct (comprehension_subscript_cases load_avg_15m S) as [(l15 & -> & H15)|[-> _]];
    [|done].
  destruct (comprehension_subscript_cases active_query_count S) as [(ac & -> & Hac)|[-> _]];
    [|done].
  exfalso. apply Hnot. rewrite Forall_forall in *. intros s Hs.
  repeat split; auto.
Qed.

(** X1: The single-server extraction returns a summary exactly on a non-empty
    period whose snapshots all have the four numeric fields; it raises
    [ValueError] exactly on an empty period and [KeyError] exactly when a
    snapshot lacks one of the fields. *)
Theorem analyze_extract_outcome (S : list Snapshot) :
  ((∃ m, Analyze.extract_metrics S = Ok m) ↔ S ≠ [] ∧ Forall has_required_fields S) ∧
  (Analyze.extract_metrics S = Raise ValueError ↔ S = []) ∧
  (Analyze.extract_metrics S = Raise KeyError
   ↔ Exists (fun s => ¬ has_required_fields s) S).
Proof.
  destruct (analyze_extract_cases S) as [[-> H]|[[Hex H]|(Hne & Hall & m & H)]];
    rewrite H.
  - split; [|split]; split; try done.
    + by intros [m ?].
    + by intros [? _].
    + by intros ?%Exists_nil.
  - split; [|split]; split; try done.
    + by intros [m ?].
    + intros [_ Hall]. exfalso. apply Exists_exists in Hex as (s & Hs & Hn).
      rewrite Forall_forall in Hall. by apply Hn, Hall.
    + intros ->. by apply Exists_nil in Hex.
  - split; [|split]; split; try done.
    + by exists m.
    + intros Hex. exfalso. apply Exists_exists in Hex as (s & Hs & Hn).
      rewrite Forall_forall in Hall. by apply Hn, Hall.
Qed.

Lemma leader_extract_cases (S : list Snapshot) :
  (S = [] ∧ LeaderReplica.extract_metrics S = Ok None) ∨
  (Exists (fun s => ¬ has_leader_fields s) S ∧
   LeaderReplica.extract_metrics S = Raise KeyError) ∨
  (S ≠ [] ∧ Forall has_leader_fields S ∧
   ∃ m, LeaderReplica.extract_metrics S = Ok (Some m)).
Proof.
  destruct S as [|s0 S0]; [by left|]. right.
  set (S := s0 :: S0).
  destruct (decide (Forall has_leader_fields S)) as [Hall|Hnot].
  { right. split; [done|]. split; [done|]. by apply leader_extract_ok. }
  left. split; [exact (not_Forall_Exists _ _ Hnot)|].
  unfold LeaderReplica.extract_metrics. simpl negb. cbv iota.
  destruct (comprehension_subscript_cases load_avg_1m S) as [(l1 & -> & H1)|[-> _]];
    [|done].
  destruct (comprehension_subscript_cases active_query_count S) as [(ac & -> & Hac)|[-> _]];
    [|done].
  exfalso. apply Hnot. rewrite Forall_forall in *. intros s Hs.
  split; auto.
Qed.

(** X2: The leader/replica extraction never raises on an empty period (it
    returns [None]); on a non-empty one it returns a summary exactly when
    every snapshot has [load_avg_1m] and [active_query_count], and raises
    [KeyError] otherwise.  It never reads the 5- and 15-minute loads. *)
Theorem leader_extract_outcome (S : list Snapshot) :
  ((∃ m, LeaderReplica.extract_metrics S = Ok (Some m))
   ↔ S ≠ [] ∧ Forall has_leader_fields S) ∧
  (LeaderReplica.extract_metrics S = Ok None ↔ S = []) ∧
  (LeaderReplica.extract_metrics S = Raise KeyError
   ↔ Exists (fun s => ¬ has_leader_fields s) S) ∧
  (∀ e, LeaderReplica.extract_metrics S = Raise e → e = KeyError).
Proof.
  destruct (leader_extract_cases S) as [[-> H]|[[Hex H]|(Hne & Hall & m & H)]];
    rewrite H.
  - split; [|split; [|split]]; try split; try done.
    + by intros [m ?].
    + by intros [? _].
    + by intros ?%Exists_nil.
  - split; [|split; [|split]]; try split; try done.
    + by intros [m ?].
    + intros [_ Hall]. exfalso. apply Exists_exists in Hex as (s & Hs & Hn).
      rewrite Forall_forall in Hall. by apply Hn, Hall.
    + intros ->. by apply Exists_nil in Hex.
    + by intros e [= <-].
  - split; [|split; [|split]]; try split; try done.
    + by exists m.
    + intros Hex. exfalso. apply Exists_exists in Hex as (s & Hs & Hn).
      rewrite Forall_forall in Hall. by apply Hn, Hall.
Qed.

(** ** Frequency mappings of a summary *)

Lemma counter_incr_total (k : string) (c : Counter) :
  sum_list (counter_incr k c).*2 = S (sum_list c.*2).
Proof.
  induction c as [|[k0 n] r IH]; csimpl; [done|].
  destruct (String.eqb k k0); csimpl; [done|]. rewrite IH. lia.
Qed.

Lemma counter_fold_total (l : list string) (c : Counter) :
  sum_list (fold_left (fun c k => counter_incr k c) l c).*2 = sum_list c.*2 + length l.
Proof.
  revert c. induction l as [|x l IH]; intros c; simpl; [lia|].
  rewrite IH, counter_incr_total. lia.
Qed.

(** The counts of [Counter(l)] add up to [len(l)]. *)
Lemma counter_of_total (l : list string) : sum_list (counter_of l).*2 = length l.
Proof. unfold counter_of. by rewrite counter_fold_total. Qed.

Lemma counter_fold_keys (l : list string) (c : Counter) :
  counter_keys (fold_left (fun c k => counter_incr k c) l c)
  = counter_keys c ∪ list_to_set l.
Proof.
  unfold counter_keys. revert c. induction l as [|x l IH]; intros c; simpl.
  - set_solver.
  - rewrite IH, counter_incr_keys. destruct (decide (x ∈ c.*1)).
    + set_solver.
    + rewrite list_to_set_app_L. set_solver.
Qed.

(** The keys of [Counter(l)] are the elements of [l]. *)
Lemma counter_of_keys (l : list string) : counter_keys (counter_of l) = list_to_set l.
Proof. unfold counter_of. rewrite counter_fold_keys. unfold counter_keys. set_solver. Qed.

Lemma filter_length_pos {A} (P : A → Prop) `{∀ a, Decision (P a)} (l : list A) :
  (0 < length (filter P l))%nat ↔ ∃ a, a ∈ l ∧ P a.
Proof.
  split.
  - destruct (filter P l) as [|a r] eqn:E; simpl; [lia|]. intros _.
    exists a. apply and_comm, (list_elem_of_filter P). rewrite E. apply list_elem_of_here.
  - intros (a & Ha & HP).
    assert (a ∈ filter P l) as Hin by (by apply list_elem_of_filter).
    destruct (filter P l); [by apply elem_of_nil in Hin|simpl; lia].
Qed.

(** Every entry of [Counter(l)] holds a key of [l] with its number of
    occurrences, which is at least one. *)
Lemma counter_of_entry (l : list string) (k : string) (n : nat) :
  (k, n) ∈ counter_of l →
  n = length (filter (fun x => x = k) l) ∧ (0 < n)%nat ∧ k ∈ l.
Proof.
  intros Hin.
  assert (Hk : k ∈ l).
  { assert (k ∈ counter_keys (counter_of l)) as Hk.
    { unfold counter_keys. apply elem_of_list_to_set, list_elem_of_fmap.
      by exists (k, n). }
    rewrite counter_of_keys in Hk. by apply elem_of_list_to_set in Hk. }
  pose proof (counter_get_entry _ _ _ (counter_of_NoDup l) Hin) as Hn.
  rewrite counter_of_get in Hn. split; [done|]. split; [|done].
  rewrite <- Hn. apply (filter_length_pos (fun x => x = k)). by exists k.
Qed.

Lemma analyze_loop_applications (S : list Snapshot) :
  Analyze.a_applications (Analyze.loop S) = app_of <$> all_queries S.
Proof.
  rewrite analyze_loop_flat.
  rewrite (fold_left_collect Analyze.loop_body Analyze.a_applications
             (fun q => [app_of q])); [|done].
  apply concat_singletons.
Qed.

Lemma analyze_loop_wait_events (S : list Snapshot) :
  Analyze.a_wait_events (Analyze.loop S) = wait_of <$> all_queries S.
Proof.
  rewrite analyze_loop_flat.
  rewrite (fold_left_collect Analyze.loop_body Analyze.a_wait_events
             (fun q => [wait_of q])); [|done].
  apply concat_singletons.
Qed.

Lemma analyze_loop_wait_types (S : list Snapshot) :
  Analyze.a_wait_event_types (Analyze.loop S) = wait_type_of <$> all_queries S.
Proof.
  rewrite analyze_loop_flat.
  rewrite (fold_left_collect Analyze.loop_body Analyze.a_wait_event_types
             (fun q => [wait_type_of q])); [|done].
  apply concat_singletons.
Qed.

Lemma analyze_loop_transactions (S : list Snapshot) :
  Analyze.a_transaction_durations (Analyze.loop S)
  = (fun q => default 0%Q (transaction_duration_sec q)) <$> all_queries S.
Proof.
  rewrite analyze_loop_flat.
  rewrite (fold_left_collect Analyze.loop_body Analyze.a_transaction_durations
             (fun q => [default 0%Q (transaction_duration_sec q)])); [|done].
  apply concat_singletons.
Qed.

(** The fields of an extracted summary, from the observations of the
    period. *)
Lemma analyze_summary_fields (S : list Snapshot) (m : Analyze.Summary) :
  Analyze.extract_metrics S = Ok m →
  Analyze.snapshot_count m = length S ∧
  Analyze.total_queries_observed m = length (all_queries S) ∧
  Analyze.query_durations m = duration_of <$> all_queries S ∧
  Analyze.transaction_durations m
    = (fun q => default 0%Q (transaction_duration_sec q)) <$> all_queries S ∧
  Analyze.applications m = counter_of (app_of <$> all_queries S) ∧
  Analyze.wait_events m = counter_of (wait_of <$> all_queries S) ∧
  Analyze.wait_event_types m = counter_of (wait_type_of <$> all_queries S) ∧
  Analyze.users m
    = counter_of ((fun q => default "unknown" (usename q)) <$> all_queries S) ∧
  Analyze.long_queries m
    = long_entry <$> filter (fun q => (10 < duration_of q)%Q) (all_queries S) ∧
  Analyze.lock_waits m
    = lock_entry <$> filter (fun q => wait_event_type q = Some "Lock") (all_queries S).
Proof.
  unfold Analyze.extract_metrics. intros H.
  repeat (apply bind_Ok in H as (? & _ & H)).
  injection H as <-. cbn.
  rewrite analyze_loop_durations, analyze_loop_transactions, analyze_loop_applications,
    analyze_loop_wait_events, analyze_loop_wait_types, analyze_loop_users,
    analyze_loop_long, analyze_loop_lock, length_fmap.
  done.
Qed.

(** X3: Each frequency mapping of a summary (applications, wait events, wait
    event types, users) counts every observation of the period exactly
    once: its counts add up to the total number of queries observed. *)
Theorem frequency_counts_add_up_to_total (S : list Snapshot) (m : Analyze.Summary) :
  Analyze.extract_metrics S = Ok m →
  sum_list (Analyze.applications m).*2 = Analyze.total_queries_observed m ∧
  sum_list (Analyze.wait_events m).*2 = Analyze.total_queries_observed m ∧
  sum_list (Analyze.wait_event_types m).*2 = Analyze.total_queries_observed m ∧
  sum_list (Analyze.users m).*2 = Analyze.total_queries_observed m.
Proof.
  intros (_ & -> & _ & _ & -> & -> & -> & -> & _)%analyze_summary_fields.
  by rewrite !counter_of_total, !length_fmap.
Qed.

Lemma frequency_counts_add_up_to_total_witness :
  ∃ m, Analyze.extract_metrics spike_period = Ok m ∧
       sum_list (Analyze.applications m).*2 = 2 ∧
       Analyze.total_queries_observed m = 2.
Proof.
  eexists. split; [reflexivity|].
  destruct (frequency_counts_add_up_to_total spike_period _ eq_refl) as (H & _).
  split; [exact H | reflexivity].
Defined.

(** ** Ranked tables *)

Lemma descending_app {A} (key : A → Q) (l1 l2 : list A) :
  descending key (l1 ++ l2) → ∀ x y, x ∈ l1 → y ∈ l2 → (key y <= key x)%Q.
Proof.
  unfold descending. induction l1 as [|a l1 IH]; simpl; intros Hs x y Hx Hy.
  - by apply elem_of_nil in Hx.
  - apply StronglySorted_inv in Hs as [Hs Ha].
    apply elem_of_cons in Hx as [->|Hx]; [|by eapply IH].
    rewrite Forall_forall in Ha. apply Ha. apply elem_of_app. by right.
Qed.

(** The first [n] of a list sorted longest-first: none of the others has
    a larger key. *)
Lemma take_sort_desc_top {A} (key : A → Q) (n : nat) (l : list A) (x y : A) :
  x ∈ take n (sort_desc key l) → y ∈ l → y ∉ take n (sort_desc key l) →
  (key y <= key x)%Q.
Proof.
  intros Hx Hy Hny.
  pose proof (sort_desc_descending key l) as Hs.
  rewrite <- (take_drop n (sort_desc key l)) in Hs.
  apply (descending_app key _ _ Hs); [done|].
  rewrite <- (sort_desc_perm key), <- (take_drop n (sort_desc key l)) in Hy.
  apply elem_of_app in Hy as [Hy|Hy]; done.
Qed.

Lemma most_common_elem (n : nat) (c : Counter) (kv : string * nat) :
  kv ∈ most_common n c → kv ∈ c.
Proof.
  unfold most_common. intros H%subseteq_take.
  by rewrite sort_desc_perm in H.
Qed.

Lemma most_common_NoDup (n : nat) (c : Counter) :
  NoDup c.*1 → NoDup (most_common n c).*1.
Proof.
  intros Hc. unfold most_common. rewrite fmap_take.
  eapply sublist_NoDup; [|apply sublist_take].
  by rewrite sort_desc_perm.
Qed.

Lemma Qnat_le (a b : nat) : (Qnat a <= Qnat b)%Q ↔ (a ≤ b)%nat.
Proof. unfold Qnat. rewrite <- Zle_Qle. lia. Qed.

Lemma Qnat_pos (n : nat) : (0 < n)%nat → (0 < Qnat n)%Q.
Proof.
  intros H. unfold Qnat. change 0%Q with (inject_Z 0). rewrite <- Zlt_Qlt. lia.
Qed.

(** The table of the keys of [Counter(values)] against [len(values)]. *)
Lemma frequency_table_top (values : list string) :
  is_top_table values (Analyze.frequency_table (counter_of values) (length values)).
Proof.
  unfold is_top_table, Analyze.frequency_table.
  set (c := counter_of values).
  assert (Hrow : ∀ k n p,
    (k, n, p) ∈ (fun '(k, count) => (k, count, Analyze.share count (length values)))
                   <$> most_common 10 c →
    (k, n) ∈ most_common 10 c ∧ p = Analyze.share n (length values)).
  { intros k n p ([k0 n0] & [= -> -> ->] & Hin)%list_elem_of_fmap. done. }
  assert (Hkeys : ((fun '(k, count) => (k, count, Analyze.share count (length values)))
                     <$> most_common 10 c).*1.*1 = (most_common 10 c).*1).
  { rewrite <- !list_fmap_compose. apply list_fmap_ext. by intros i [k n]. }
  split; [|split; [|split]].
  - rewrite length_fmap. unfold most_common. rewrite length_take. lia.
  - rewrite Hkeys. apply most_common_NoDup, counter_of_NoDup.
  - intros k n p (Hin & ->)%Hrow.
    apply most_common_elem, counter_of_entry in Hin as (Hn & Hpos & Hk).
    split; [done|]. split; [done|].
    unfold Analyze.share.
    assert (0 < length values)%nat as Hlen.
    { destruct values; [by apply elem_of_nil in Hk|simpl; lia]. }
    apply Nat.ltb_lt in Hlen as ->. reflexivity.
  - intros k n p k' (Hin & _)%Hrow Hlt. rewrite Hkeys.
    set (n' := length (filter (fun x => x = k') values)) in *.
    assert (Hk' : (k', n') ∈ c).
    { unfold n'. rewrite <- counter_of_get. apply counter_get_present.
      change (k' ∈ c.*1) with (k' ∈ (counter_of values).*1).
      assert (k' ∈ counter_keys (counter_of values)) as Hk.
      { rewrite counter_of_keys. apply elem_of_list_to_set.
        assert (0 < n')%nat as Hpos by lia.
        apply (filter_length_pos (fun x => x = k')) in Hpos as (a & Ha & ->). done. }
      unfold counter_keys in Hk. by apply elem_of_list_to_set in Hk. }
    destruct (decide ((k', n') ∈ most_common 10 c)) as [Htop|Hnot].
    + apply list_elem_of_fmap. by exists (k', n').
    + exfalso. unfold most_common in Hin, Hnot.
      pose proof (take_sort_desc_top _ _ _ _ _ Hin Hk' Hnot) as Hle.
      simpl in Hle. rewrite <- Zle_Qle in Hle. lia.
Qed.

(** X4: The "top 10" tables of applications, wait event types and wait events
    that the report shows for an extracted summary are the ten most
    frequent values of the observations of the period, with their counts
    and percentages of the total. *)
Theorem report_tables_are_top_10 (S : list Snapshot) (m : Analyze.Summary) :
  Analyze.extract_metrics S = Ok m →
  is_top_table (app_of <$> all_queries S)
    (Analyze.frequency_table (Analyze.applications m) (Analyze.total_queries_observed m)) ∧
  is_top_table (wait_type_of <$> all_queries S)
    (Analyze.frequency_table (Analyze.wait_event_types m)
                             (Analyze.total_queries_observed m)) ∧
  is_top_table (wait_of <$> all_queries S)
    (Analyze.frequency_table (Analyze.wait_events m) (Analyze.total_queries_observed m)).
Proof.
  intros (_ & -> & _ & _ & -> & -> & -> & _)%analyze_summary_fields.
  split; [|split].
  - rewrite <- (length_fmap app_of). apply frequency_table_top.
  - rewrite <- (length_fmap wait_type_of). apply frequency_table_top.
  - rewrite <- (length_fmap wait_of). apply frequency_table_top.
Qed.

Lemma report_tables_are_top_10_witness :
  ∃ m, Analyze.extract_metrics spike_period = Ok m ∧
       is_top_table ["svc-b"; "svc-c"]
         (Analyze.frequency_table (Analyze.applications m)
                                  (Analyze.total_queries_observed m)).
Proof.
  eexists. split; [reflexivity|].
  exact (proj1 (report_tables_are_top_10 spike_period _ eq_refl)).
Defined.

(** ** The set of signatures of a summary *)

Lemma loop_body_signatures (acc : Analyze.Acc) (q : Query) (sig : string) :
  sig ∈ Analyze.a_query_signatures (Analyze.loop_body acc q)
  ↔ sig ∈ Analyze.a_query_signatures acc
    ∨ (sig ≠ "" ∧ Analyze.get_query_signature q = Some sig).
Proof.
  cbn [Analyze.loop_body Analyze.a_query_signatures].
  unfold Analyze.get_query_signature.
  destruct (truthy (default "" (query_preview q))); simpl.
  - set (s := join_sp _). destruct s as [|c r] eqn:E; simpl.
    + split; [by left|]. intros [H|[Hne [= <-]]]; done.
    + rewrite elem_of_union, elem_of_singleton. split.
      * intros [->|H]; [right|by left]. split; done.
      * intros [H|[_ [= <-]]]; [by right|by left].
  - split; [by left|]. intros [H|[_ H]]; done.
Qed.

Lemma loop_body_signatures_size (acc : Analyze.Acc) (q : Query) :
  (size (Analyze.a_query_signatures (Analyze.loop_body acc q))
   ≤ S (size (Analyze.a_query_signatures acc)))%nat.
Proof.
  cbn [Analyze.loop_body Analyze.a_query_signatures].
  destruct (truthy _); [|lia].
  destruct (Analyze.get_query_signature q) as [sig|]; [|lia].
  destruct (truthy sig); [|lia].
  rewrite size_union_alt, size_singleton.
  assert (size (Analyze.a_query_signatures acc ∖ {[sig]})
          ≤ size (Analyze.a_query_signatures acc))%nat
    by (apply subseteq_size; set_solver).
  lia.
Qed.

Lemma fold_loop_body_signatures (qs : list Query) (acc : Analyze.Acc) (sig : string) :
  sig ∈ Analyze.a_query_signatures (fold_left Analyze.loop_body qs acc)
  ↔ sig ∈ Analyze.a_query_signatures acc
    ∨ (sig ≠ "" ∧ ∃ q, q ∈ qs ∧ Analyze.get_query_signature q = Some sig).
Proof.
  revert acc. induction qs as [|q qs IH]; intros acc; simpl.
  - split; [by left|]. intros [H|(_ & q & Hq%elem_of_nil & _)]; done.
  - rewrite IH, loop_body_signatures. split.
    + intros [[H|[Hne Hq]]|(Hne & q' & Hin & Hq')].
      * by left.
      * right. split; [done|]. exists q. split; [apply list_elem_of_here|done].
      * right. split; [done|]. exists q'. split; [by apply list_elem_of_further|done].
    + intros [H|(Hne & q' & Hin & Hq')]; [by left; left|].
      apply elem_of_cons in Hin as [->|Hin].
      * left. by right.
      * right. split; [done|]. by exists q'.
Qed.

Lemma fold_loop_body_signatures_size (qs : list Query) (acc : Analyze.Acc) :
  (size (Analyze.a_query_signatures (fold_left Analyze.loop_body qs acc))
   ≤ size (Analyze.a_query_signatures acc) + length qs)%nat.
Proof.
  revert acc. induction qs as [|q qs IH]; intros acc; simpl; [lia|].
  etrans; [apply IH|]. pose proof (loop_body_signatures_size acc q). lia.
Qed.

(** X5: The signature set of an extracted summary holds exactly the non-empty
    signatures of the observations of the period; it never has more
    elements than there are observations. *)
Theorem signature_set_of_summary (S : list Snapshot) (m : Analyze.Summary) :
  Analyze.extract_metrics S = Ok m →
  (∀ sig, sig ∈ Analyze.query_signatures m
          ↔ sig ≠ "" ∧ ∃ q, q ∈ all_queries S ∧ Analyze.get_query_signature q = Some sig) ∧
  (size (Analyze.query_signatures m) ≤ Analyze.total_queries_observed m)%nat.
Proof.
  intros Hm.
  pose proof (analyze_summary_fields S m Hm) as (_ & -> & _).
  apply analyze_extract_inv in Hm as (_ & _ & _ & _ & _ & ->).
  rewrite analyze_loop_flat. split.
  - intros sig. rewrite fold_loop_body_signatures. split.
    + intros [H|H]; [by apply elem_of_empty in H|done].
    + by right.
  - etrans; [apply fold_loop_body_signatures_size|].
    cbn [Analyze.acc_init Analyze.a_query_signatures]. by rewrite size_empty.
Qed.

Lemma signature_set_of_summary_witness :
  ∃ m, Analyze.extract_metrics spike_period = Ok m ∧
       "UPDATE t SET x = 1" ∈ Analyze.query_signatures m ∧
       (size (Analyze.query_signatures m) ≤ 2)%nat.
Proof.
  eexists. split; [reflexivity|].
  destruct (signature_set_of_summary spike_period _ eq_refl) as [Hmem Hsize].
  split; [|exact Hsize].
  apply Hmem. split; [done|]. exists q_update. split; [|reflexivity].
  apply list_elem_of_here.
Defined.

(** ** The shape of a signature *)

Lemma str_take_length (n : nat) (s : string) : (String.length (str_take n s) ≤ n)%nat.
Proof.
  revert s. induction n as [|n IH]; intros [|c r]; simpl; try lia.
  specialize (IH r). lia.
Qed.

Lemma str_take_all (n : nat) (s : string) :
  (String.length s ≤ n)%nat → str_take n s = s.
Proof.
  revert s. induction n as [|n IH]; intros [|c r]; simpl; try done; try lia.
  intros H. f_equal. apply IH. lia.
Qed.

Lemma collapse_ws_length (s : string) :
  (String.length (collapse_ws s) ≤ String.length s)%nat.
Proof.
  induction s as [|c r IH]; simpl; [done|].
  destruct (is_space c); [destruct (starts_space r)|]; simpl; lia.
Qed.

Lemma lstrip_length (s : string) : (String.length (lstrip s) ≤ String.length s)%nat.
Proof.
  induction s as [|c r IH]; simpl; [done|].
  destruct (is_space c); simpl; lia.
Qed.

Lemma rstrip_length (s : string) : (String.length (rstrip s) ≤ String.length s)%nat.
Proof.
  induction s as [|c r IH]; simpl; [done|].
  destruct (rstrip r); [destruct (is_space c)|]; simpl in *; lia.
Qed.

Lemma join_split_length (s : string) :
  (String.length (join_sp (split_ws s)) ≤ String.length s)%nat.
Proof.
  rewrite join_split_strip_collapse. unfold strip.
  etrans; [apply collapse_ws_length|].
  etrans; [apply rstrip_length|]. apply lstrip_length.
Qed.

Lemma split_ws_words (s : string) : Forall is_word (split_ws s).
Proof.
  induction s as [|c r IH]; simpl; [constructor|].
  destruct (is_space c) eqn:Ec; [done|].
  destruct (starts_word r).
  - destruct (split_ws r) as [|w ws].
    + repeat constructor; done.
    + apply Forall_cons in IH as [[_ Hw] Hws]. constructor; [|done].
      split; [done|]. by split.
  - constructor; [|done]. split; [done|]. by split.
Qed.

Lemma append_String (c : ascii) (r x : string) :
  String c r +:+ x = String c (r +:+ x).
Proof. reflexivity. Qed.

Lemma join_sp_cons (w w' : string) (ws : list string) :
  join_sp (w :: w' :: ws) = w +:+ String " " (join_sp (w' :: ws)).
Proof. reflexivity. Qed.

Lemma split_ws_word_then_space (w rest : string) :
  is_word w → split_ws (w +:+ String " " rest) = w :: split_ws rest.
Proof.
  intros [Hne Hw]. induction w as [|c r IH]; [done|].
  destruct Hw as [Hc Hr]. rewrite append_String. cbn [split_ws]. rewrite Hc.
  destruct r as [|c' r'].
  - reflexivity.
  - destruct Hr as [Hc' Hr']. rewrite IH; [|done|by split].
    rewrite append_String. cbn [starts_word]. by rewrite Hc'.
Qed.

Lemma split_ws_word (w : string) : is_word w → split_ws w = [w].
Proof.
  intros [Hne Hw]. induction w as [|c r IH]; [done|].
  destruct Hw as [Hc Hr]. cbn [split_ws]. rewrite Hc.
  destruct r as [|c' r'].
  - reflexivity.
  - destruct Hr as [Hc' Hr']. rewrite IH; [|done|by split].
    cbn [starts_word]. by rewrite Hc'.
Qed.

(** Splitting the words joined by single spaces gives the words back. *)
Lemma split_ws_join (ws : list string) : Forall is_word ws → split_ws (join_sp ws) = ws.
Proof.
  induction 1 as [|w ws Hw Hws IH]; [done|].
  destruct ws as [|w' ws'].
  - by apply split_ws_word.
  - rewrite join_sp_cons, split_ws_word_then_space by done. by rewrite IH.
Qed.

(** X6: A signature is in normal form: at most 200 characters, no leading or
    trailing whitespace, no whitespace other than single spaces between
    words.  Normalising it again changes nothing, so an observation whose
    preview is a (non-empty) signature has that signature. *)
Theorem signature_is_normalized (q : Query) (sig : string) :
  Analyze.get_query_signature q = Some sig →
  (String.length sig ≤ 200)%nat ∧
  join_sp (split_ws sig) = sig ∧
  collapse_ws (strip sig) = sig ∧
  (sig ≠ "" → ∀ q', query_preview q' = Some sig →
                    Analyze.get_query_signature q' = Some sig).
Proof.
  unfold Analyze.get_query_signature.
  destruct (negb (truthy (default "" (query_preview q)))); [done|].
  remember (str_take 200 (default "" (query_preview q))) as p eqn:Ep.
  intros [= <-].
  assert (Hlen : (String.length (join_sp (split_ws p)) ≤ 200)%nat).
  { etrans; [apply join_split_length|]. rewrite Ep. apply str_take_length. }
  assert (Hnorm : join_sp (split_ws (join_sp (split_ws p))) = join_sp (split_ws p)).
  { by rewrite split_ws_join by apply split_ws_words. }
  split; [done|]. split; [done|]. split; [by rewrite <- join_split_strip_collapse|].
  intros Hne q' ->. simpl default.
  assert (truthy (join_sp (split_ws p)) = true) as ->
    by (by destruct (join_sp (split_ws p))).
  simpl negb. cbv iota. rewrite str_take_all by done. by rewrite Hnorm.
Qed.

Lemma signature_is_normalized_witness :
  Analyze.get_query_signature q_update = Some "UPDATE t SET x = 1" ∧
  (String.length "UPDATE t SET x = 1" ≤ 200)%nat ∧
  join_sp (split_ws "UPDATE t SET x = 1") = "UPDATE t SET x = 1".
Proof.
  assert (H : Analyze.get_query_signature q_update = Some "UPDATE t SET x = 1")
    by reflexivity.
  split; [exact H|].
  destruct (signature_is_normalized q_update _ H) as (H1 & H2 & _).
  split; [exact H1 | exact H2].
Defined.

(** ** Minimum, maximum, mean and median *)

Lemma fold_min_spec (r : list Q) (x : Q) :
  let m := fold_left (fun m y => if Qltb y m then y else m) r x in
  m ∈ x :: r ∧ ∀ v, v ∈ x :: r → (m <= v)%Q.
Proof.
  revert x. induction r as [|y r IH]; intros x; simpl.
  - split; [apply list_elem_of_here|]. intros v ->%list_elem_of_singleton. apply Qle_refl.
  - destruct (IH (if Qltb y x then y else x)) as [Hin Hle]. split.
    + apply elem_of_cons in Hin as [->|Hin].
      * destruct (Qltb y x); [apply list_elem_of_further|]; apply list_elem_of_here.
      * by do 2 apply list_elem_of_further.
    + intros v Hv.
      assert (Hm : ((if Qltb y x then y else x) <= x)%Q
                   ∧ ((if Qltb y x then y else x) <= y)%Q).
      { destruct (Qltb y x) eqn:E.
        - apply Qltb_lt in E. split; [by apply Qlt_le_weak|apply Qle_refl].
        - apply Qltb_nlt, Qnot_lt_le in E. split; [apply Qle_refl|done]. }
      destruct Hm as [Hx Hy].
      apply elem_of_cons in Hv as [->|Hv].
      * eapply Qle_trans; [|exact Hx]. apply Hle, list_elem_of_here.
      * apply elem_of_cons in Hv as [->|Hv].
        -- eapply Qle_trans; [|exact Hy]. apply Hle, list_elem_of_here.
        -- by apply Hle, list_elem_of_further.
Qed.

Lemma fold_max_spec (r : list Q) (x : Q) :
  let m := fold_left (fun m y => if Qltb m y then y else m) r x in
  m ∈ x :: r ∧ ∀ v, v ∈ x :: r → (v <= m)%Q.
Proof.
  revert x. induction r as [|y r IH]; intros x; simpl.
  - split; [apply list_elem_of_here|]. intros v ->%list_elem_of_singleton. apply Qle_refl.
  - destruct (IH (if Qltb x y then y else x)) as [Hin Hle]. split.
    + apply elem_of_cons in Hin as [->|Hin].
      * destruct (Qltb x y); [apply list_elem_of_further|]; apply list_elem_of_here.
      * by do 2 apply list_elem_of_further.
    + intros v Hv.
      assert (Hm : (x <= (if Qltb x y then y else x))%Q
                   ∧ (y <= (if Qltb x y then y else x))%Q).
      { destruct (Qltb x y) eqn:E.
        - apply Qltb_lt in E. split; [by apply Qlt_le_weak|apply Qle_refl].
        - apply Qltb_nlt, Qnot_lt_le in E. split; [apply Qle_refl|done]. }
      destruct Hm as [Hx Hy].
      apply elem_of_cons in Hv as [->|Hv].
      * eapply Qle_trans; [exact Hx|]. apply Hle, list_elem_of_here.
      * apply elem_of_cons in Hv as [->|Hv].
        -- eapply Qle_trans; [exact Hy|]. apply Hle, list_elem_of_here.
        -- by apply Hle, list_elem_of_further.
Qed.

Lemma Qlen_cons {A} (x : A) (l : list A) : (Qlen (x :: l) == 1 + Qlen l)%Q.
Proof.
  unfold Qlen. simpl length. rewrite Nat2Z.inj_succ. unfold Z.succ.
  rewrite inject_Z_plus. ring.
Qed.

Lemma Qlen_nonneg {A} (l : list A) : (0 <= Qlen l)%Q.
Proof. unfold Qlen. change 0%Q with (inject_Z 0). rewrite <- Zle_Qle. lia. Qed.

Lemma Qlen_pos {A} (l : list A) : l ≠ [] → (0 < Qlen l)%Q.
Proof.
  destruct l; [done|]. intros _. rewrite Qlen_cons.
  pose proof (Qlen_nonneg l). lra.
Qed.

Lemma Qsum_bounds (l : list Q) (a b : Q) :
  (∀ v, v ∈ l → (a <= v)%Q ∧ (v <= b)%Q) →
  (Qlen l * a <= Qsum l)%Q ∧ (Qsum l <= Qlen l * b)%Q.
Proof.
  induction l as [|y l IH]; intros H.
  - change (Qlen (@nil Q)) with 0%Q. change (Qsum []) with 0%Q. lra.
  - destruct IH as [IH1 IH2]; [intros v Hv; by apply H, list_elem_of_further|].
    destruct (H y (list_elem_of_here _ _)) as [Hy1 Hy2].
    rewrite Qlen_cons. simpl Qsum. pose proof (Qlen_nonneg l). split; nra.
Qed.

Lemma mean_bounds (l : list Q) (a b : Q) :
  l ≠ [] → (∀ v, v ∈ l → (a <= v)%Q ∧ (v <= b)%Q) →
  (a <= Qsum l / Qlen l)%Q ∧ (Qsum l / Qlen l <= b)%Q.
Proof.
  intros Hne H. destruct (Qsum_bounds l a b H) as [H1 H2].
  pose proof (Qlen_pos l Hne) as Hpos. split.
  - apply Qle_shift_div_l; [done|]. lra.
  - apply Qle_shift_div_r; [done|]. lra.
Qed.

Lemma insert_asc_perm {A} (key : A → Q) (x : A) (l : list A) :
  insert_asc key x l ≡ₚ x :: l.
Proof.
  induction l as [|y r IH]; simpl; [done|].
  destruct (Qltb (key y) (key x)); [|done].
  rewrite IH. apply Permutation_swap.
Qed.

Lemma sort_asc_perm {A} (key : A → Q) (l : list A) : sort_asc key l ≡ₚ l.
Proof.
  induction l as [|x r IH]; simpl; [done|].
  by rewrite insert_asc_perm, IH.
Qed.

Lemma nth_elem_of (l : list Q) (i : nat) : (i < length l)%nat → nth i l 0%Q ∈ l.
Proof. intros H. apply list_elem_of_In, nth_In. done. Qed.

Lemma median_bounds (l : list Q) (a b md : Q) :
  (∀ v, v ∈ l → (a <= v)%Q ∧ (v <= b)%Q) → median l = Ok md →
  (a <= md)%Q ∧ (md <= b)%Q.
Proof.
  intros H. unfold median.
  set (data := sort_asc id l).
  assert (Hdata : ∀ i, (i < length data)%nat →
            (a <= nth i data 0)%Q ∧ (nth i data 0 <= b)%Q).
  { intros i Hi. apply H. rewrite <- (sort_asc_perm id l). by apply nth_elem_of. }
  destruct (length data) as [|n] eqn:En; [done|].
  assert (Hhalf : (S n / 2 < S n)%nat) by (apply Nat.div_lt; lia).
  remember (S n / 2)%nat as h eqn:Eh.
  destruct (Nat.odd (S n)).
  - intros [= <-]. by apply Hdata.
  - intros [= <-].
    destruct (Hdata h Hhalf) as [? ?].
    destruct (Hdata (h - 1)%nat) as [? ?]; [lia|].
    split.
    + apply Qle_shift_div_l; [done|]. lra.
    + apply Qle_shift_div_r; [done|]. lra.
Qed.

Lemma stats_summarises (l : list Q) (st : Analyze.Stats) :
  Analyze.stats l = Ok st → summarises l st.
Proof.
  unfold Analyze.stats. destruct l as [|x r]; [done|].
  intros H. apply bind_Ok in H as (mn & [= <-] & H).
  apply bind_Ok in H as (mx & [= <-] & H).
  apply bind_Ok in H as (av & [= <-] & H).
  apply bind_Ok in H as (md & Hmd & [= <-]).
  destruct (fold_min_spec r x) as [Hmin_in Hmin], (fold_max_spec r x) as [Hmax_in Hmax].
  assert (Hb : ∀ v, v ∈ x :: r →
            (fold_left (fun m y => if Qltb y m then y else m) r x <= v)%Q
            ∧ (v <= fold_left (fun m y => if Qltb m y then y else m) r x)%Q)
    by (intros v Hv; split; [by apply Hmin|by apply Hmax]).
  unfold summarises. cbn [Analyze.s_min Analyze.s_max Analyze.s_avg Analyze.s_median].
  destruct (mean_bounds (x :: r) _ _ ltac:(done) Hb) as [? ?].
  destruct (median_bounds (x :: r) _ _ md Hb Hmd) as [? ?].
  repeat split; try done; by apply Hb.
Qed.

Lemma comprehension_subscript_omap {A B} (field : A → option B) (l : list A) ys :
  comprehension (fun s => subscript (field s)) l = Ok ys → ys = omap field l.
Proof.
  revert ys. induction l as [|x r IH]; simpl; intros ys H.
  - by injection H as <-.
  - apply bind_Ok in H as (y & Hy & H). apply bind_Ok in H as (ys' & Hr & [= <-]).
    destruct (field x); [|done]. injection Hy as ->. simpl. f_equal. by apply IH.
Qed.

(** X7: The four statistics blocks of a summary (the three load averages and
    the active-query count) hold, over the snapshots of the period, a
    minimum and a maximum that are attained and bound every snapshot's
    value, the arithmetic mean, and a median, both between the two. *)
Theorem summary_statistics_are_bounded (S : list Snapshot) (m : Analyze.Summary) :
  Analyze.extract_metrics S = Ok m →
  summarises (omap load_avg_1m S) (Analyze.load_1m m) ∧
  summarises (omap load_avg_5m S) (Analyze.load_5m m) ∧
  summarises (omap load_avg_15m S) (Analyze.load_15m m) ∧
  summarises (inject_Z <$> omap active_query_count S) (Analyze.active_queries m).
Proof.
  unfold Analyze.extract_metrics. intros H.
  apply bind_Ok in H as (l1 & ->%comprehension_subscript_omap & H).
  apply bind_Ok in H as (l5 & ->%comprehension_subscript_omap & H).
  apply bind_Ok in H as (l15 & ->%comprehension_subscript_omap & H).
  apply bind_Ok in H as (ac & ->%comprehension_subscript_omap & H).
  apply bind_Ok in H as (s1 & H1%stats_summarises & H).
  apply bind_Ok in H as (s5 & H5%stats_summarises & H).
  apply bind_Ok in H as (s15 & H15%stats_summarises & H).
  apply bind_Ok in H as (sa & Ha%stats_summarises & H).
  by injection H as <-.
Qed.

Lemma summary_statistics_are_bounded_witness :
  ∃ m, Analyze.extract_metrics spike_period = Ok m ∧
       summarises [2%Q; 3%Q] (Analyze.load_1m m).
Proof.
  eexists. split; [reflexivity|].
  exact (proj1 (summary_statistics_are_bounded spike_period _ eq_refl)).
Defined.

(** ** The two extractors on the same period *)

Lemma leader_loop_applications (S : list Snapshot) :
  LeaderReplica.a_applications (LeaderReplica.loop S) = app_of <$> all_queries S.
Proof.
  rewrite leader_loop_flat.
  rewrite (fold_left_collect LeaderReplica.loop_body LeaderReplica.a_applications
             (fun q => [app_of q])); [|done].
  apply concat_singletons.
Qed.

Lemma leader_loop_wait_events (S : list Snapshot) :
  LeaderReplica.a_wait_events (LeaderReplica.loop S) = wait_of <$> all_queries S.
Proof.
  rewrite leader_loop_flat.
  rewrite (fold_left_collect LeaderReplica.loop_body LeaderReplica.a_wait_events
             (fun q => [wait_of q])); [|done].
  apply concat_singletons.
Qed.

Lemma leader_loop_wait_types (S : list Snapshot) :
  LeaderReplica.a_wait_event_types (LeaderReplica.loop S)
  = wait_type_of <$> all_queries S.
Proof.
  rewrite leader_loop_flat.
  rewrite (fold_left_collect LeaderReplica.loop_body LeaderReplica.a_wait_event_types
             (fun q => [wait_type_of q])); [|done].
  apply concat_singletons.
Qed.

(** The fields of a summary of the leader/replica script, from the
    snapshots and the observations of the period. *)
Lemma leader_summary_fields (S : list Snapshot) (m : LeaderReplica.Summary) :
  LeaderReplica.extract_metrics S = Ok (Some m) →
  S ≠ [] ∧
  LeaderReplica.snapshot_count m = length S ∧
  LeaderReplica.load_avg m
    = (Qsum (omap load_avg_1m S) / Qlen (omap load_avg_1m S))%Q ∧
  LeaderReplica.active_queries_avg m
    = (Qsum (inject_Z <$> omap active_query_count S)
       / Qlen (inject_Z <$> omap active_query_count S))%Q ∧
  LeaderReplica.total_queries m = length (all_queries S) ∧
  LeaderReplica.wait_event_types m = counter_of (wait_type_of <$> all_queries S) ∧
  LeaderReplica.wait_events m = counter_of (wait_of <$> all_queries S) ∧
  LeaderReplica.applications m = counter_of (app_of <$> all_queries S) ∧
  LeaderReplica.long_queries m
    = long_entry_lr <$> filter (fun q => (10 < duration_of q)%Q) (all_queries S) ∧
  LeaderReplica.lock_waits m
    = lock_entry_lr <$> filter (fun q => wait_event_type q = Some "Lock") (all_queries S) ∧
  LeaderReplica.avg_duration m
    = (if nonempty (all_queries S)
       then (Qsum (duration_of <$> all_queries S) / Qlen (duration_of <$> all_queries S))%Q
       else 0%Q).
Proof.
  unfold LeaderReplica.extract_metrics. intros H.
  assert (HS : S ≠ []) by (intros ->; discriminate H).
  assert (nonempty S = true) as Hne by (by destruct S). rewrite Hne in H.
  simpl negb in H. cbv iota in H.
  apply bind_Ok in H as (l1 & Hl1 & H).
  apply bind_Ok in H as (ac & Hac & H).
  pose proof (comprehension_length _ _ _ Hl1) as Hlen1.
  pose proof (comprehension_length _ _ _ Hac) as Hlenac.
  apply comprehension_subscript_omap in Hl1, Hac. subst l1 ac.
  rewrite leader_loop_durations in H.
  rewrite (mean_ok (omap load_avg_1m S)) in H
    by (by eapply same_length_nonempty; [exact Hlen1|exact HS]).
  simpl in H.
  rewrite (mean_ok (inject_Z <$> omap active_query_count S)) in H
    by (eapply same_length_nonempty; [|exact HS]; by rewrite length_fmap).
  simpl in H.
  assert (nonempty (duration_of <$> all_queries S) = nonempty (all_queries S)) as Hd
    by (by destruct (all_queries S)).
  rewrite Hd in H.
  destruct (nonempty (all_queries S)) eqn:Eq.
  - rewrite mean_ok in H by (by destruct (all_queries S)).
    simpl in H. injection H as <-. cbn.
    rewrite leader_loop_wait_types, leader_loop_wait_events, leader_loop_applications,
      leader_loop_long, leader_loop_lock, length_fmap.
    repeat split; done.
  - simpl in H. injection H as <-. cbn.
    rewrite leader_loop_wait_types, leader_loop_wait_events, leader_loop_applications,
      leader_loop_long, leader_loop_lock, length_fmap.
    repeat split; done.
Qed.

Lemma analyze_summary_averages (S : list Snapshot) (m : Analyze.Summary) :
  Analyze.extract_metrics S = Ok m →
  Analyze.s_avg (Analyze.load_1m m)
    = (Qsum (omap load_avg_1m S) / Qlen (omap load_avg_1m S))%Q ∧
  Analyze.s_avg (Analyze.active_queries m)
    = (Qsum (inject_Z <$> omap active_query_count S)
       / Qlen (inject_Z <$> omap active_query_count S))%Q.
Proof.
  unfold Analyze.extract_metrics. intros H.
  apply bind_Ok in H as (l1 & ->%comprehension_subscript_omap & H).
  apply bind_Ok in H as (l5 & _ & H).
  apply bind_Ok in H as (l15 & _ & H).
  apply bind_Ok in H as (ac & ->%comprehension_subscript_omap & H).
  apply bind_Ok in H as (s1 & H1%stats_summarises & H).
  apply bind_Ok in H as (s5 & _ & H).
  apply bind_Ok in H as (s15 & _ & H).
  apply bind_Ok in H as (sa & Ha%stats_summarises & H).
  injection H as <-. cbn.
  destruct H1 as (_ & _ & _ & -> & _), Ha as (_ & _ & _ & -> & _). done.
Qed.

(** X8: On a period that the single-server extractor accepts, the extractor
    of the leader/replica script returns a summary too, and the two
    summaries agree: same counts, same load and active-query averages,
    same frequency mappings, and the same long queries and lock waits up
    to the preview, which the leader/replica script does not keep. *)
Theorem extractors_agree (S : list Snapshot) (m : Analyze.Summary) :
  Analyze.extract_metrics S = Ok m →
  ∃ m', LeaderReplica.extract_metrics S = Ok (Some m') ∧
    LeaderReplica.snapshot_count m' = Analyze.snapshot_count m ∧
    LeaderReplica.load_avg m' = Analyze.s_avg (Analyze.load_1m m) ∧
    LeaderReplica.active_queries_avg m' = Analyze.s_avg (Analyze.active_queries m) ∧
    LeaderReplica.total_queries m' = Analyze.total_queries_observed m ∧
    LeaderReplica.wait_event_types m' = Analyze.wait_event_types m ∧
    LeaderReplica.wait_events m' = Analyze.wait_events m ∧
    LeaderReplica.applications m' = Analyze.applications m ∧
    LeaderReplica.long_queries m' = long_without_preview <$> Analyze.long_queries m ∧
    LeaderReplica.lock_waits m' = lock_without_preview <$> Analyze.lock_waits m.
Proof.
  intros Hm.
  destruct (analyze_extract_cases S) as [[_ H]|[[_ H]|(Hne & Hall & _)]];
    [congruence..|].
  destruct (leader_extract_ok S Hne) as [m' Hm'].
  { eapply Forall_impl; [exact Hall|]. by intros s (? & ? & ? & ?). }
  exists m'. split; [done|].
  pose proof (analyze_summary_averages S m Hm) as (-> & ->).
  apply analyze_summary_fields in Hm
    as (-> & -> & _ & _ & -> & -> & -> & _ & -> & ->).
  apply leader_summary_fields in Hm'
    as (_ & -> & -> & -> & -> & -> & -> & -> & -> & -> & _).
  rewrite <- !list_fmap_compose. done.
Qed.

Lemma extractors_agree_witness :
  ∃ m m', Analyze.extract_metrics spike_period = Ok m ∧
          LeaderReplica.extract_metrics spike_period = Ok (Some m') ∧
          LeaderReplica.load_avg m' = Analyze.s_avg (Analyze.load_1m m) ∧
          LeaderReplica.applications m' = Analyze.applications m.
Proof.
  eexists _, _. split; [reflexivity|].
  destruct (extractors_agree spike_period _ eq_refl)
    as (m' & Hm' & _ & Hload & _ & _ & _ & _ & Happs & _).
  vm_compute in Hm'. injection Hm' as <-.
  split; [reflexivity|]. split; reflexivity.
Defined.

(** ** Extraction over two periods put end to end *)





(** ** The ranking of the long queries *)

Section Stability.
Context {A : Type} (key : A → Q) (P : A → Prop) `{∀ a, Decision (P a)}.
Hypothesis same_key : ∀ a b, P a → P b → (key a == key b)%Q.

Lemma insert_desc_filter (x : A) (l : list A) :
  filter P (insert_desc key x l) = filter P (x :: l).
Proof.
  induction l as [|y r IH]; simpl; [done|].
  destruct (Qltb (key x) (key y)) eqn:E; [|done].
  apply Qltb_lt in E. rewrite filter_cons, IH, !filter_cons.
  destruct (decide (P y)) as [Hy|Hy]; [|done].
  destruct (decide (P x)) as [Hx|Hx]; [|done].
  exfalso. rewrite (same_key x y Hx Hy) in E. by apply Qlt_irrefl in E.
Qed.

(** The sort is stable: elements with the same key keep their order. *)
Lemma sort_desc_filter (l : list A) : filter P (sort_desc key l) = filter P l.
Proof.
  induction l as [|x r IH]; simpl; [done|].
  by rewrite insert_desc_filter, !filter_cons, IH.
Qed.
End Stability.

Lemma sort_desc_descending_id {A} (key : A → Q) (l : list A) :
  descending key l → sort_desc key l = l.
Proof.
  unfold descending. induction 1 as [|x r Hr IH Hx]; simpl; [done|].
  rewrite IH. destruct r as [|y r']; simpl; [done|].
  apply Forall_cons in Hx as [Hy _].
  assert (Qltb (key x) (key y) = false) as ->; [|done].
  apply Qltb_nlt. by apply Qle_not_lt.
Qed.

Lemma spike_after_idem (spike : Analyze.Summary) :
  spike_after (spike_after spike) = spike_after spike.
Proof.
  unfold spike_after at 2 3.
  destruct (nonempty (Analyze.long_queries spike)) eqn:E.
  - unfold spike_after. cbn [Analyze.long_queries Analyze.with_long_queries].
    rewrite (sort_desc_descending_id _ (sort_desc _ _))
      by apply sort_desc_descending.
    assert (nonempty (sort_desc Analyze.lq_duration (Analyze.long_queries spike)) = true)
      as ->; [|done].
    apply nonempty_true. apply nonempty_true in E.
    rewrite nonempty_length, sort_desc_length in *. done.
  - unfold spike_after. by rewrite E.
Qed.

(** X10: The long queries that the report shows are the ten longest of the
    spike period, longest first: they are long queries of the spike
    summary, at most ten, and no long query left out lasts longer than one
    shown.  The sort behind them is stable: in the spike summary as the
    call leaves it, long queries of equal duration are in the order of
    the extraction. *)
Theorem top_long_are_the_longest (normal spike : Analyze.Summary) :
  ∃ r normal' spike',
    Analyze.compare_metrics normal spike = Ok (r, (normal', spike')) ∧
    Analyze.top_long r = take 10 (Analyze.long_queries spike') ∧
    length (Analyze.top_long r) = min 10 (length (Analyze.long_queries spike)) ∧
    descending Analyze.lq_duration (Analyze.top_long r) ∧
    (∀ x, x ∈ Analyze.top_long r → x ∈ Analyze.long_queries spike) ∧
    (∀ x y, x ∈ Analyze.top_long r → y ∈ Analyze.long_queries spike →
            y ∉ Analyze.top_long r → (Analyze.lq_duration y <= Analyze.lq_duration x)%Q) ∧
    (∀ d, filter (fun e => (Analyze.lq_duration e == d)%Q) (Analyze.long_queries spike')
          = filter (fun e => (Analyze.lq_duration e == d)%Q) (Analyze.long_queries spike)).
Proof.
  destruct (compare_metrics_run normal spike) as (d & fs & _ & _ & Hr).
  eexists _, _, _. split; [exact Hr|]. cbn [Analyze.top_long].
  split; [done|].
  assert (Hlong : Analyze.long_queries (spike_after spike)
                  = sort_desc Analyze.lq_duration (Analyze.long_queries spike)).
  { unfold spike_after. destruct (Analyze.long_queries spike) eqn:E; [|done].
    simpl. by rewrite E. }
  rewrite Hlong. split; [by rewrite length_take, sort_desc_length|].
  split; [|split; [|split]].
  - pose proof (sort_desc_descending Analyze.lq_duration (Analyze.long_queries spike))
      as Hs.
    rewrite <- (take_drop 10 (sort_desc _ _)) in Hs.
    unfold descending in *. by apply StronglySorted_app_1_l in Hs.
  - intros x Hx%subseteq_take. by rewrite sort_desc_perm in Hx.
  - intros x y Hx Hy Hny. by eapply take_sort_desc_top.
  - intros d0. apply sort_desc_filter. intros a b Ha Hb. by rewrite Ha, Hb.
Qed.

Lemma spike_after_fields (spike : Analyze.Summary) :
  Analyze.load_1m (spike_after spike) = Analyze.load_1m spike ∧
  Analyze.active_queries (spike_after spike) = Analyze.active_queries spike ∧
  Analyze.query_durations (spike_after spike) = Analyze.query_durations spike.
Proof. unfold spike_after. by destruct (nonempty (Analyze.long_queries spike)). Qed.

(** X11: A second comparison of the summaries that a first one leaves changes
    nothing more and returns the same report. *)
Theorem compare_metrics_twice (normal spike : Analyze.Summary) r normal' spike' :
  Analyze.compare_metrics normal spike = Ok (r, (normal', spike')) →
  Analyze.compare_metrics normal' spike' = Ok (r, (normal', spike')).
Proof.
  destruct (compare_metrics_run normal spike) as (d & fs & Hd & Hfs & Hr).
  rewrite Hr. intros [= <- <- <-].
  destruct (compare_metrics_run normal (spike_after spike)) as (d' & fs' & Hd' & Hfs' & Hr').
  rewrite Hr'. cbv zeta in *.
  destruct (spike_after_fields spike) as (E1 & E2 & E3).
  assert (Analyze.compare_durations normal (spike_after spike)
          = Analyze.compare_durations normal spike) as Hcd.
  { unfold Analyze.compare_durations. by rewrite E3. }
  rewrite Hcd, Hd in Hd'. injection Hd' as <-.
  rewrite spike_after_idem, E1, spike_after_applications in Hfs'.
  rewrite Hfs in Hfs'. injection Hfs' as <-.
  by rewrite spike_after_idem, E1, E2, spike_after_applications, spike_after_signatures.
Qed.

Lemma compare_metrics_twice_witness :
  ∃ normal spike r normal' spike',
    Analyze.extract_metrics normal_period = Ok normal ∧
    Analyze.extract_metrics spike_period = Ok spike ∧
    Analyze.compare_metrics normal spike = Ok (r, (normal', spike')) ∧
    Analyze.compare_metrics normal' spike' = Ok (r, (normal', spike')).
Proof.
  eexists _, _, _, _, _. split; [reflexivity|]. split; [reflexivity|].
  match goal with |- ?a = ?b ∧ _ => assert (H : a = b) by reflexivity end.
  split; [exact H|]. exact (compare_metrics_twice _ _ _ _ _ H).
Defined.

(** ** What the findings say *)

(** The findings of a comparison, from the two summaries as they are
    passed. *)
Lemma comparison_findings (normal spike : Analyze.Summary) :
  ∃ r st culprit,
    Analyze.compare_metrics normal spike = Ok (r, st) ∧
    Analyze.load_pct r
      = guarded_pct (Analyze.s_avg (Analyze.load_1m spike)
                     - Analyze.s_avg (Analyze.load_1m normal))
                    (Analyze.s_avg (Analyze.load_1m normal)) ∧
    Analyze.only_spike_apps r
      = counter_keys (Analyze.applications spike)
        ∖ counter_keys (Analyze.applications normal) ∧
    (Analyze.long_queries spike = [] → culprit = []) ∧
    (Analyze.long_queries spike ≠ [] → ∃ app n, culprit = [Analyze.MainCulprit app n]) ∧
    Analyze.findings r
    = (let fired :=
         when (Qltb (Qlen (Analyze.long_queries normal) * (3 # 2))
                    (Qlen (Analyze.long_queries spike)))
              (Analyze.LongQueriesIncreased (length (Analyze.long_queries normal))
                                            (length (Analyze.long_queries spike)))
         ++ when (Qltb (Qlen (Analyze.lock_waits normal) * (6 # 5))
                       (Qlen (Analyze.lock_waits spike)))
                 (Analyze.LockContentionIncreased (length (Analyze.lock_waits normal))
                                                  (length (Analyze.lock_waits spike)))
         ++ when (Qltb 10 (Qabs (Analyze.load_pct r)))
                 (Analyze.LoadChanged (Qltb 0 (Analyze.load_pct r))
                                      (Qabs (Analyze.load_pct r)))
         ++ when (negb (Nat.eqb (size (Analyze.only_spike_apps r)) 0))
                 (Analyze.NewApplications (size (Analyze.only_spike_apps r)))
         ++ culprit in
       if nonempty fired then fired else [Analyze.NoSignificantDifferences]).
Proof.
  destruct (compare_metrics_run normal spike) as (d & fs & _ & Hfs & Hr).
  cbv zeta in Hfs, Hr.
  set (lp := guarded_pct _ _) in *. set (apps := _ ∖ _) in Hfs, Hr |- *.
  destruct (key_findings_run normal (spike_after spike) lp apps)
    as (culprit & Hnil & Hcons & Hk).
  rewrite Hk in Hfs. injection Hfs as <-. clear Hk.
  eexists _, _, culprit. split; [exact Hr|].
  cbn [Analyze.load_pct Analyze.only_spike_apps Analyze.findings].
  split; [done|]. split; [done|].
  unfold Qlen. rewrite !spike_after_long_length, !spike_after_lock_waits.
  split; [by rewrite <- spike_after_long_nil|].
  split; [|done].
  intros Hne. rewrite <- spike_after_long_nil in Hne.
  destruct (Hcons Hne) as (app & n & -> & _). by exists app, n.
Qed.

Lemma elem_of_when {A} (b : bool) (x y : A) : y ∈ when b x ↔ b = true ∧ y = x.
Proof.
  destruct b; simpl.
  - rewrite list_elem_of_singleton. naive_solver.
  - split; [by intros ?%elem_of_nil|by intros [? _]].
Qed.

Lemma length_when {A} (b : bool) (x : A) : (length (when b x) ≤ 1)%nat.
Proof. destruct b; simpl; lia. Qed.

Lemma Qlen_growth {A B} (l : list A) (k : list B) (num den : positive) :
  (Qlen l * (Z.pos num # den) < Qlen k)%Q
  ↔ (length l * Pos.to_nat num < length k * Pos.to_nat den)%nat.
Proof.
  unfold Qlen, Qlt. simpl. rewrite !Z.mul_1_r. lia.
Qed.

(** X12: The findings are never empty and never more than five; the line "no
    significant differences" only ever stands alone; and as soon as the
    spike period has a long query, the findings end with the main culprit,
    so that the "no significant differences" line is not emitted, even
    when the spike period has fewer long queries than the normal one. *)
Theorem findings_are_never_empty (normal spike : Analyze.Summary) :
  ∃ r st,
    Analyze.compare_metrics normal spike = Ok (r, st) ∧
    Analyze.findings r ≠ [] ∧
    (length (Analyze.findings r) ≤ 5)%nat ∧
    (Analyze.NoSignificantDifferences ∈ Analyze.findings r →
     Analyze.findings r = [Analyze.NoSignificantDifferences]) ∧
    (Analyze.long_queries spike ≠ [] →
     ∃ app n, last (Analyze.findings r) = Some (Analyze.MainCulprit app n)) ∧
    (∀ app n, Analyze.MainCulprit app n ∈ Analyze.findings r →
              Analyze.long_queries spike ≠ []).
Proof.
  destruct (comparison_findings normal spike)
    as (r & st & culprit & Hr & _ & _ & Hnil & Hcons & Hf).
  exists r, st. split; [done|]. rewrite Hf. clear Hf. cbv zeta.
  set (w1 := when _ (Analyze.LongQueriesIncreased _ _)).
  set (w2 := when _ (Analyze.LockContentionIncreased _ _)).
  set (w3 := when _ (Analyze.LoadChanged _ _)).
  set (w4 := when _ (Analyze.NewApplications _)).
  assert (Hnosig : Analyze.NoSignificantDifferences ∉ w1 ++ w2 ++ w3 ++ w4 ++ culprit).
  { rewrite !elem_of_app. unfold w1, w2, w3, w4. rewrite !elem_of_when.
    intros [[_ ?]|[[_ ?]|[[_ ?]|[[_ ?]|Hc]]]]; try done.
    destruct (Analyze.long_queries spike) eqn:E.
    - rewrite Hnil in Hc by done. by apply elem_of_nil in Hc.
    - destruct Hcons as (app & n & ->); [done|].
      by apply list_elem_of_singleton in Hc. }
  assert (Hlen : (length (w1 ++ w2 ++ w3 ++ w4 ++ culprit) ≤ 5)%nat).
  { rewrite !length_app.
    assert (length w1 ≤ 1 ∧ length w2 ≤ 1 ∧ length w3 ≤ 1 ∧ length w4 ≤ 1)%nat
      as (? & ? & ? & ?) by (repeat split; apply length_when).
    assert (length culprit ≤ 1)%nat.
    { destruct (Analyze.long_queries spike) eqn:E.
      - rewrite Hnil by done. simpl. lia.
      - destruct Hcons as (app & n & ->); [done|]. simpl. lia. }
    lia. }
  destruct (w1 ++ w2 ++ w3 ++ w4 ++ culprit) as [|f fs] eqn:Ef; cbn [nonempty].
  - split; [done|]. split; [simpl; lia|]. split; [done|]. split.
    + intros Hne. destruct (Hcons Hne) as (app & n & ->).
      apply (f_equal length) in Ef. rewrite !length_app in Ef. simpl in Ef. lia.
    + by intros app n [=]%list_elem_of_singleton.
  - split; [done|]. split; [done|]. split; [done|]. split.
    + intros Hne. destruct (Hcons Hne) as (app & n & ->). exists app, n.
      rewrite <- Ef, !app_assoc. apply last_snoc.
    + intros app n Hin Hl. rewrite <- Ef in Hin. rewrite (Hnil Hl) in Hin.
      rewrite !elem_of_app in Hin. unfold w1, w2, w3, w4 in Hin.
      rewrite !elem_of_when in Hin.
      destruct Hin as [[_ ?]|[[_ ?]|[[_ ?]|[[_ ?]|Hc]]]]; try done.
      by apply elem_of_nil in Hc.
Qed.

(** X13: The two growth findings, in whole numbers: long-running queries are
    reported as increased exactly when twice their number in the spike
    period exceeds three times their number in the normal period, lock
    contention exactly when five times the spike number exceeds six times
    the normal number.  Neither is reported without a strict increase, and
    both are on any increase from zero. *)
Theorem growth_findings_in_whole_numbers (normal spike : Analyze.Summary) :
  ∃ r st,
    Analyze.compare_metrics normal spike = Ok (r, st) ∧
    let ln := length (Analyze.long_queries normal) in
    let ls := length (Analyze.long_queries spike) in
    let kn := length (Analyze.lock_waits normal) in
    let ks := length (Analyze.lock_waits spike) in
    (∀ a b, Analyze.LongQueriesIncreased a b ∈ Analyze.findings r
            ↔ a = ln ∧ b = ls ∧ (3 * ln < 2 * ls)%nat) ∧
    (∀ a b, Analyze.LockContentionIncreased a b ∈ Analyze.findings r
            ↔ a = kn ∧ b = ks ∧ (6 * kn < 5 * ks)%nat) ∧
    (∀ a b, Analyze.LongQueriesIncreased a b ∈ Analyze.findings r → (a < b)%nat) ∧
    (∀ a b, Analyze.LockContentionIncreased a b ∈ Analyze.findings r → (a < b)%nat).
Proof.
  destruct (comparison_findings normal spike)
    as (r & st & culprit & Hr & _ & _ & Hnil & Hcons & Hf).
  exists r, st. split; [done|]. intros ln ls kn ks.
  assert (Hlong : ∀ a b, Analyze.LongQueriesIncreased a b ∈ Analyze.findings r
            ↔ a = ln ∧ b = ls ∧ (3 * ln < 2 * ls)%nat).
  { intros a b. rewrite Hf. cbv zeta.
    set (fired := _ ++ _).
    assert (Analyze.LongQueriesIncreased a b ∈ fired
            ↔ a = ln ∧ b = ls ∧ (3 * ln < 2 * ls)%nat) as Hfired.
    { unfold fired. rewrite !elem_of_app, !elem_of_when, Qltb_lt.
      rewrite (Qlen_growth _ _ 3 2). fold ln ls. split.
      - intros [[Hlt [= -> ->]]|[[_ ?]|[[_ ?]|[[_ ?]|Hc]]]]; try done.
        + repeat split; lia.
        + exfalso. destruct (Analyze.long_queries spike) eqn:E.
          * rewrite Hnil in Hc by done. by apply elem_of_nil in Hc.
          * destruct Hcons as (app & n & ->); [done|].
            by apply list_elem_of_singleton in Hc.
      - intros (-> & -> & Hlt). left. split; [|done].
        change (Pos.to_nat 3) with 3%nat. change (Pos.to_nat 2) with 2%nat. lia. }
    destruct fired as [|f fs]; cbn [nonempty]; [|done].
    rewrite list_elem_of_singleton. split; [done|].
    intros H. apply Hfired in H. by apply elem_of_nil in H. }
  assert (Hlock : ∀ a b, Analyze.LockContentionIncreased a b ∈ Analyze.findings r
            ↔ a = kn ∧ b = ks ∧ (6 * kn < 5 * ks)%nat).
  { intros a b. rewrite Hf. cbv zeta.
    set (fired := _ ++ _).
    assert (Analyze.LockContentionIncreased a b ∈ fired
            ↔ a = kn ∧ b = ks ∧ (6 * kn < 5 * ks)%nat) as Hfired.
    { unfold fired. rewrite !elem_of_app, !elem_of_when, !Qltb_lt.
      rewrite (Qlen_growth _ _ 6 5). fold kn ks. split.
      - intros [[_ ?]|[[Hlt [= -> ->]]|[[_ ?]|[[_ ?]|Hc]]]]; try done.
        + repeat split; lia.
        + exfalso. destruct (Analyze.long_queries spike) eqn:E.
          * rewrite Hnil in Hc by done. by apply elem_of_nil in Hc.
          * destruct Hcons as (app & n & ->); [done|].
            by apply list_elem_of_singleton in Hc.
      - intros (-> & -> & Hlt). right; left. split; [|done].
        change (Pos.to_nat 6) with 6%nat. change (Pos.to_nat 5) with 5%nat. lia. }
    destruct fired as [|f fs]; cbn [nonempty]; [|done].
    rewrite list_elem_of_singleton. split; [done|].
    intros H. apply Hfired in H. by apply elem_of_nil in H. }
  split; [done|]. split; [done|]. split.
  - intros a b (-> & -> & H)%Hlong. lia.
  - intros a b (-> & -> & H)%Hlock. lia.
Qed.

Lemma elem_of_fired_or_fallback (fired : list Analyze.Finding) (f : Analyze.Finding) :
  f ≠ Analyze.NoSignificantDifferences →
  f ∈ (if nonempty fired then fired else [Analyze.NoSignificantDifferences]) ↔ f ∈ fired.
Proof.
  intros Hf. destruct fired; cbn [nonempty]; [|done].
  rewrite list_elem_of_singleton. split; [done|by intros ?%elem_of_nil].
Qed.






(** ** Applications that appear and disappear *)

Lemma counter_of_fmap_keys {A} (f : A → string) (l : list A) (k : string) :
  k ∈ counter_keys (counter_of (f <$> l)) ↔ ∃ a, a ∈ l ∧ f a = k.
Proof.
  rewrite counter_of_keys, elem_of_list_to_set, list_elem_of_fmap.
  split; intros (a & H1 & H2); exists a; done.
Qed.

(** X15: For two extracted summaries, the applications reported as new are
    those with an observation in the spike period and none in the normal
    period, and the applications reported as disappeared are those with an
    observation in the normal period and none in the spike period; no
    application is in both reports; the finding on new applications is
    emitted exactly when there is one, with their number. *)
Theorem application_differences (Sn Ss : list Snapshot) (normal spike : Analyze.Summary) :
  Analyze.extract_metrics Sn = Ok normal →
  Analyze.extract_metrics Ss = Ok spike →
  ∃ r st,
    Analyze.compare_metrics normal spike = Ok (r, st) ∧
    (∀ app, app ∈ Analyze.only_spike_apps r
            ↔ (∃ q, q ∈ all_queries Ss ∧ app_of q = app)
              ∧ ¬ (∃ q, q ∈ all_queries Sn ∧ app_of q = app)) ∧
    (∀ app, app ∈ Analyze.only_normal_apps r
            ↔ (∃ q, q ∈ all_queries Sn ∧ app_of q = app)
              ∧ ¬ (∃ q, q ∈ all_queries Ss ∧ app_of q = app)) ∧
    Analyze.only_spike_apps r ## Analyze.only_normal_apps r ∧
    (∀ n, Analyze.NewApplications n ∈ Analyze.findings r
          ↔ n = size (Analyze.only_spike_apps r) ∧ Analyze.only_spike_apps r ≠ ∅).
Proof.
  intros Hn Hs.
  destruct (comparison_findings normal spike)
    as (r & st & culprit & Hr & _ & Happs & Hnil & Hcons & Hf).
  exists r, st. split; [done|].
  assert (Hnormal : Analyze.only_normal_apps r
                    = counter_keys (Analyze.applications normal)
                      ∖ counter_keys (Analyze.applications spike)).
  { destruct (compare_metrics_run normal spike) as (d & fs & _ & _ & Hr').
    rewrite Hr' in Hr. by injection Hr as <- <-. }
  apply analyze_summary_fields in Hn as (_ & _ & _ & _ & Hna & _).
  apply analyze_summary_fields in Hs as (_ & _ & _ & _ & Hsa & _).
  rewrite Hna, Hsa in Happs, Hnormal.
  split; [|split; [|split]].
  - intros app. by rewrite Happs, elem_of_difference, !counter_of_fmap_keys.
  - intros app. by rewrite Hnormal, elem_of_difference, !counter_of_fmap_keys.
  - rewrite Happs, Hnormal. set_solver.
  - intros n. rewrite Hf. cbv zeta. rewrite elem_of_fired_or_fallback by done.
    rewrite !elem_of_app, !elem_of_when, size_nonzero_decide, bool_decide_eq_true.
    split.
    + intros [[_ ?]|[[_ ?]|[[_ ?]|[[Hne [= ->]]|Hc]]]]; try done.
      exfalso. destruct (Analyze.long_queries spike) eqn:E.
      * rewrite Hnil in Hc by done. by apply elem_of_nil in Hc.
      * destruct Hcons as (a & c & ->); [done|].
        by apply list_elem_of_singleton in Hc.
    + intros [-> Hne]. right; right; right; left. done.
Qed.

Lemma application_differences_witness :
  ∃ normal spike r st,
    Analyze.extract_metrics normal_period = Ok normal ∧
    Analyze.extract_metrics moved_period = Ok spike ∧
    Analyze.compare_metrics normal spike = Ok (r, st) ∧
    "svc-b" ∈ Analyze.only_spike_apps r ∧ "svc-a" ∈ Analyze.only_normal_apps r.
Proof.
  eexists _, _, _, _. split; [reflexivity|]. split; [reflexivity|].
  destruct (application_differences normal_period moved_period _ _ eq_refl eq_refl)
    as (r & st & Hr & Hs & Hn & _).
  vm_compute in Hr. injection Hr as <- <-.
  split; [reflexivity|]. split.
  - apply Hs. split.
    + exists q_moved. split; [apply list_elem_of_here|reflexivity].
    + intros (q & ->%list_elem_of_singleton & [=]).
  - apply Hn. split.
    + exists q_select. split; [apply list_elem_of_here|reflexivity].
    + intros (q & ->%list_elem_of_singleton & [=]).
Defined.

(** ** The lock analysis *)

Lemma comprehension_map_ok {A B} (f : A → result B) (g : A → B) (l : list A) :
  (∀ x, x ∈ l → f x = Ok (g x)) → comprehension f l = Ok (g <$> l).
Proof.
  induction l as [|x r IH]; intros H; simpl; [done|].
  rewrite (H x) by apply list_elem_of_here. simpl.
  rewrite IH by (intros y Hy; by apply H, list_elem_of_further). done.
Qed.

Lemma py_div_ok (a b : Q) : ¬ (b == 0)%Q → py_div a b = Ok (a / b)%Q.
Proof.
  intros Hb. unfold py_div. destruct (Qeq_bool b 0) eqn:E; [|done].
  by apply Qeq_bool_iff in E.
Qed.

Lemma py_div_zero (a b : Q) : (b == 0)%Q → py_div a b = Raise ZeroDivisionError.
Proof. intros Hb. unfold py_div. by rewrite (proj2 (Qeq_bool_iff b 0) Hb). Qed.

Lemma Qnat_nonzero (n : nat) : (0 < n)%nat → ¬ (Qnat n == 0)%Q.
Proof. intros Hn H. apply Qnat_pos in Hn. rewrite H in Hn. by apply Qlt_irrefl in Hn. Qed.

Lemma lock_apps_ok (locks : list Analyze.LockWait) :
  locks ≠ [] →
  Analyze.lock_apps locks
  = Ok ((fun '(app, count) =>
           (str_take 60 app, count, (Qnat count / Qlen locks * 100)%Q))
          <$> most_common 5 (counter_of (Analyze.lw_app <$> locks))).
Proof.
  intros Hne. unfold Analyze.lock_apps. apply comprehension_map_ok.
  intros [app count] _. rewrite py_div_ok; [done|].
  apply Qnat_nonzero. destruct locks; [done|simpl; lia].
Qed.

Lemma lock_types_sections (types : list string) (locks : list Analyze.LockWait) :
  ∃ secs, Analyze.lock_types types locks = Ok secs ∧
    secs.*1.*1 = filter (fun t => t ∈ Analyze.lw_wait <$> locks) types ∧
    Forall (is_lock_section locks) secs.
Proof.
  induction types as [|t types (secs & IH & Hkeys & Hsecs)]; simpl.
  { exists []. by repeat split. }
  rewrite IH. rewrite filter_cons.
  set (of_type := filter (fun lock => Analyze.lw_wait lock = t) locks).
  destruct of_type as [|l0 ls] eqn:E; cbn [nonempty negb].
  - exists secs. split; [done|]. split; [|done].
    rewrite decide_False; [done|].
    intros (l & Hl & Hin)%list_elem_of_fmap.
    assert (l ∈ of_type) as H by (by apply list_elem_of_filter).
    rewrite E in H. by apply elem_of_nil in H.
  - rewrite <- E. rewrite lock_apps_ok by (by rewrite E). simpl.
    eexists. split; [done|]. split.
    + csimpl. rewrite Hkeys. rewrite decide_True; [done|].
      assert (l0 ∈ of_type) as [Hw Hin]%list_elem_of_filter
        by (rewrite E; apply list_elem_of_here).
      apply list_elem_of_fmap. by exists l0.
    + constructor; [|done]. unfold is_lock_section. fold of_type.
      split; [done|]. split; [rewrite E; simpl; lia|]. split.
      { rewrite length_fmap. unfold most_common. rewrite length_take. lia. }
      intros a c p ([app count] & [= -> -> ->] & Hin)%list_elem_of_fmap.
      apply most_common_elem, counter_of_entry in Hin as (Hc & Hpos & _).
      exists app. split; [done|].
      assert (Hcount : count = length (filter (fun lock => Analyze.lw_app lock = app)
                                              of_type)).
      { rewrite Hc. exact (filter_fmap_length Analyze.lw_app (fun x => x = app) of_type). }
      split; [done|]. split; [done|]. split; [|done].
      rewrite Hcount. apply length_filter.
Qed.

(** X16: The lock analysis of the report never fails.  It has one section for
    each of the lock types transactionid, tuple and relation that occurs
    among the lock waits of the spike period, in that order, and none for
    any other wait event; a section counts the locks of its type and lists
    at most five applications with their counts and shares. *)
Theorem lock_analysis_sections (spike : Analyze.Summary) :
  ∃ secs, Analyze.lock_analysis spike = Ok secs ∧
    secs.*1.*1 = filter (fun t => t ∈ Analyze.lw_wait <$> Analyze.lock_waits spike)
                        ["transactionid"; "tuple"; "relation"] ∧
    Forall (is_lock_section (Analyze.lock_waits spike)) secs.
Proof.
  unfold Analyze.lock_analysis.
  destruct (Analyze.lock_waits spike) as [|l ls] eqn:E; cbn [nonempty].
  - exists []. split; [done|]. split; [|done].
    rewrite !filter_cons, filter_nil, !decide_False; [done|..];
      by intros ?%elem_of_nil.
  - apply lock_types_sections.
Qed.

(** ** The single-server analysis, from snapshots to report *)

Lemma compare_tables_ok (normal spike : Analyze.Summary) :
  ∃ t, Analyze.compare_tables normal spike = Ok t.
Proof.
  unfold Analyze.compare_tables, Analyze.lock_analysis.
  destruct (nonempty (Analyze.lock_waits spike)).
  - destruct (lock_types_sections ["transactionid"; "tuple"; "relation"]
                (Analyze.lock_waits spike)) as (secs & -> & _).
    simpl. by eexists.
  - simpl. by eexists.
Qed.

(** X17: The analysis of two periods returns a report exactly when both are
    non-empty and every snapshot has the four numeric fields.  Otherwise
    it raises what the extraction raises, [ValueError] or [KeyError], the
    error of the normal period first; the comparison itself never raises. *)
Theorem analyze_outcome (Sn Ss : list Snapshot) :
  ((∃ rep, Analyze.analyze Sn Ss = Ok rep)
   ↔ (Sn ≠ [] ∧ Forall has_required_fields Sn)
     ∧ (Ss ≠ [] ∧ Forall has_required_fields Ss)) ∧
  (∀ e, Analyze.analyze Sn Ss = Raise e → e = ValueError ∨ e = KeyError) ∧
  (∀ e, Analyze.extract_metrics Sn = Raise e → Analyze.analyze Sn Ss = Raise e) ∧
  (∀ m e, Analyze.extract_metrics Sn = Ok m → Analyze.extract_metrics Ss = Raise e →
          Analyze.analyze Sn Ss = Raise e).
Proof.
  unfold Analyze.analyze.
  destruct (analyze_extract_cases Sn) as [[-> Hn]|[[Hexn Hn]|(Hnen & Halln & mn & Hn)]];
    rewrite Hn; simpl.
  - split; [|split; [|split]]; try done.
    + split; [by intros [? ?]|by intros [[? _] _]].
    + intros e [= <-]. by left.
    + by intros e [= <-].
  - split; [|split; [|split]]; try done.
    + split; [by intros [? ?]|]. intros [[_ Hall] _]. exfalso.
      apply Exists_exists in Hexn as (s & Hs & Hnot).
      rewrite Forall_forall in Hall. by apply Hnot, Hall.
    + intros e [= <-]. by right.
    + by intros e [= <-].
  - destruct (analyze_extract_cases Ss) as [[-> Hs]|[[Hexs Hs]|(Hnes & Halls & ms & Hs)]];
      rewrite Hs; simpl.
    + split; [|split; [|split]]; try done.
      * split; [by intros [? ?]|by intros [_ [? _]]].
      * intros e [= <-]. by left.
      * by intros m e [= <-] [= <-].
    + split; [|split; [|split]]; try done.
      * split; [by intros [? ?]|]. intros [_ [_ Hall]]. exfalso.
        apply Exists_exists in Hexs as (s & Hin & Hnot).
        rewrite Forall_forall in Hall. by apply Hnot, Hall.
      * intros e [= <-]. by right.
      * by intros m e [= <-] [= <-].
    + destruct (compare_metrics_run mn ms) as (d & fs & _ & _ & ->).
      destruct (compare_tables_ok mn ms) as [t ->]. simpl.
      split; [|split; [|split]]; try done.
      split; [done|]. intros _. by eexists.
Qed.

(** ** Durations as the report shows them *)

(** X18: The unit in which a duration is shown and the number shown: below one
    second, milliseconds (below 1000); below a minute, the seconds
    themselves; below an hour, minutes, at least 1 and below 60; from an
    hour on, hours, at least 1. *)
Theorem format_duration_units (seconds : Q) :
  match Analyze.format_duration seconds with
  | Analyze.Millis x => (seconds < 1)%Q ∧ (x == seconds * 1000)%Q ∧ (x < 1000)%Q
  | Analyze.Secs x => (1 <= seconds)%Q ∧ (seconds < 60)%Q ∧ x = seconds
  | Analyze.Mins x =>
      (60 <= seconds)%Q ∧ (seconds < 3600)%Q ∧ (x * 60 == seconds)%Q
      ∧ (1 <= x)%Q ∧ (x < 60)%Q
  | Analyze.Hours x => (3600 <= seconds)%Q ∧ (x * 3600 == seconds)%Q ∧ (1 <= x)%Q
  end.
Proof.
  unfold Analyze.format_duration.
  destruct (Qltb seconds 1) eqn:E1.
  { apply Qltb_lt in E1. split; [done|]. split; [reflexivity|lra]. }
  apply Qltb_nlt, Qnot_lt_le in E1.
  destruct (Qltb seconds 60) eqn:E2.
  { apply Qltb_lt in E2. done. }
  apply Qltb_nlt, Qnot_lt_le in E2.
  destruct (Qltb seconds 3600) eqn:E3.
  { apply Qltb_lt in E3.
    assert (seconds / 60 * 60 == seconds)%Q as H by (field; done).
    split; [done|]. split; [done|]. split; [done|]. split; lra. }
  apply Qltb_nlt, Qnot_lt_le in E3.
  assert (seconds / 3600 * 3600 == seconds)%Q as H by (field; done).
  split; [done|]. split; [done|]. lra.
Qed.

(** ** The per-server report of the leader/replica script *)

Lemma percentages_ok (rows : list (string * nat)) (total : Q) :
  rows = [] ∨ ¬ (total == 0)%Q →
  ∃ out, LeaderReplica.percentages rows total = Ok out.
Proof.
  intros [->|Ht]; [by eexists|].
  unfold LeaderReplica.percentages. eexists.
  apply (comprehension_map_ok _
           (fun '(k, count) => (k, count, (Qnat count / total * 100)%Q))).
  intros [k count] _. by rewrite py_div_ok.
Qed.

Lemma most_common_nil (n : nat) : most_common n [] = [].
Proof. by destruct n. Qed.

Lemma percentages_counter (c : Counter) (total : nat) :
  empty_when_zero c total →
  ∃ out, LeaderReplica.percentages c (Qnat total) = Ok out.
Proof.
  intros Hc. apply percentages_ok. destruct total as [|t].
  - left. by apply Hc.
  - right. apply Qnat_nonzero. lia.
Qed.

Lemma percentages_most_common (n : nat) (c : Counter) (total : nat) :
  empty_when_zero c total →
  ∃ out, LeaderReplica.percentages (most_common n c) (Qnat total) = Ok out.
Proof.
  intros Hc. apply percentages_ok. destruct total as [|t].
  - left. rewrite Hc by done. apply most_common_nil.
  - right. apply Qnat_nonzero. lia.
Qed.

Lemma percentages_of_difference (c : Counter) (total k : nat) (X : gset string) :
  empty_when_zero c total →
  ∃ out,
    LeaderReplica.percentages
      (take k (sort_desc (fun kv => Qnat kv.2)
                 ((fun app => (app, counter_get c app))
                    <$> elements (counter_keys c ∖ X))))
      (Qnat total) = Ok out.
Proof.
  intros Hc. apply percentages_ok. destruct total as [|t].
  - left. rewrite Hc by done.
    assert (counter_keys [] ∖ X = ∅) as -> by (unfold counter_keys; set_solver).
    rewrite elements_empty. by destruct k.
  - right. apply Qnat_nonzero. lia.
Qed.

Lemma top_applications_rows_ok (normal spike : LeaderReplica.Summary) :
  empty_when_zero (LeaderReplica.applications spike) (LeaderReplica.total_queries spike) →
  ∃ out, LeaderReplica.top_applications_rows normal spike = Ok out.
Proof.
  intros Hc. unfold LeaderReplica.top_applications_rows.
  destruct (LeaderReplica.total_queries spike) as [|t] eqn:Et.
  - rewrite Hc by done. rewrite most_common_nil. by eexists.
  - eexists.
    apply (comprehension_map_ok _
      (fun '(app, count) =>
         let pct := (Qnat count / Qnat (S t) * 100)%Q in
         let normal_pct :=
           if (0 <? LeaderReplica.total_queries normal)%nat
           then (Qnat (counter_get (LeaderReplica.applications normal) app)
                 / Qnat (LeaderReplica.total_queries normal) * 100)%Q
           else 0%Q in
         (app, count, pct, normal_pct, (pct - normal_pct)%Q))).
    intros [app count] _. rewrite py_div_ok; [done|]. apply Qnat_nonzero. lia.
Qed.

(** The tables of [compare_changes] never divide by zero on summaries
    whose frequency mappings are empty when they hold no query. *)
Lemma changes_tables_ok (normal spike : LeaderReplica.Summary) :
  empty_when_zero (LeaderReplica.wait_event_types normal)
                  (LeaderReplica.total_queries normal) →
  empty_when_zero (LeaderReplica.applications normal)
                  (LeaderReplica.total_queries normal) →
  empty_when_zero (LeaderReplica.wait_event_types spike)
                  (LeaderReplica.total_queries spike) →
  empty_when_zero (LeaderReplica.applications spike)
                  (LeaderReplica.total_queries spike) →
  ∃ t, LeaderReplica.changes_tables normal spike = Ok t.
Proof.
  intros Hwn Han Hws Has. unfold LeaderReplica.changes_tables.
  assert (∃ out,
    (if (0 <? length (LeaderReplica.lock_waits spike))%nat
     then LeaderReplica.percentages
            (most_common 5 (counter_of (LeaderReplica.lw_wait
                                          <$> LeaderReplica.lock_waits spike)))
            (Qlen (LeaderReplica.lock_waits spike))
     else Ok []) = Ok out) as [lt ->].
  { destruct (0 <? length (LeaderReplica.lock_waits spike))%nat eqn:E; [|by eexists].
    apply percentages_ok. right. apply Nat.ltb_lt in E. by apply Qnat_nonzero. }
  cbn [mbind result_bind].
  destruct (percentages_most_common 5 _ _ Hwn) as [x1 ->]. cbn [mbind result_bind].
  destruct (percentages_most_common 5 _ _ Hws) as [x2 ->]. cbn [mbind result_bind].
  destruct (percentages_counter _ _ Hwn) as [x3 ->]. cbn [mbind result_bind].
  destruct (percentages_counter _ _ Hws) as [x4 ->]. cbn [mbind result_bind].
  destruct (top_applications_rows_ok normal spike Has) as [x5 ->].
  cbn [mbind result_bind]. cbv zeta.
  assert (∀ (c : Counter) (total k : nat) (X : gset string),
    empty_when_zero c total →
    ∃ out,
      (if negb (Nat.eqb (size (counter_keys c ∖ X)) 0)
       then LeaderReplica.percentages
              (take k (sort_desc (fun kv => Qnat kv.2)
                         ((fun app => (app, counter_get c app))
                            <$> elements (counter_keys c ∖ X))))
              (Qnat total)
       else Ok []) = Ok out) as Hdiff.
  { intros c total k X Hc. destruct (negb _); [|by eexists].
    by apply percentages_of_difference. }
  destruct (Hdiff _ _ 15%nat (counter_keys (LeaderReplica.applications normal)) Has)
    as [x6 ->]. cbn [mbind result_bind].
  destruct (Hdiff _ _ 10%nat (counter_keys (LeaderReplica.applications spike)) Han)
    as [x7 ->]. cbn [mbind result_bind].
  by eexists.
Qed.

Lemma leader_summary_counters (S : list Snapshot) (m : LeaderReplica.Summary) :
  LeaderReplica.extract_metrics S = Ok (Some m) →
  empty_when_zero (LeaderReplica.wait_event_types m) (LeaderReplica.total_queries m) ∧
  empty_when_zero (LeaderReplica.applications m) (LeaderReplica.total_queries m).
Proof.
  intros (_ & _ & _ & _ & -> & -> & _ & -> & _)%leader_summary_fields.
  split; intros H; apply nil_length_inv in H; by rewrite H.
Qed.

Lemma compare_changes_first_sections (name : string)
    (normal spike : LeaderReplica.Summary) :
  ((LeaderReplica.load_avg normal == 0)%Q ∨ (LeaderReplica.active_queries_avg normal == 0)%Q →
   LeaderReplica.compare_changes name (Some normal) (Some spike)
   = Raise ZeroDivisionError) ∧
  (¬ (LeaderReplica.load_avg normal == 0)%Q →
   ¬ (LeaderReplica.active_queries_avg normal == 0)%Q →
   ∃ c, LeaderReplica.compare_changes name (Some normal) (Some spike) = Ok c ∧
        LeaderReplica.load_pct c
        = ((LeaderReplica.load_avg spike - LeaderReplica.load_avg normal)
           / LeaderReplica.load_avg normal * 100)%Q ∧
        LeaderReplica.query_pct c
        = ((LeaderReplica.active_queries_avg spike
            - LeaderReplica.active_queries_avg normal)
           / LeaderReplica.active_queries_avg normal * 100)%Q).
Proof.
  unfold LeaderReplica.compare_changes. cbn [LeaderReplica.item mbind result_bind].
  split.
  - destruct (Qeq_dec (LeaderReplica.load_avg normal) 0) as [Hl|Hl].
    + intros _. rewrite (py_div_zero _ (LeaderReplica.load_avg normal)) by done.
      reflexivity.
    + intros [?|Ha]; [done|].
      rewrite (py_div_ok _ (LeaderReplica.load_avg normal)) by done.
      cbn [mbind result_bind].
      rewrite (py_div_zero _ (LeaderReplica.active_queries_avg normal)) by done.
      reflexivity.
  - intros Hl Ha. rewrite (py_div_ok _ (LeaderReplica.load_avg normal)) by done.
    cbn [mbind result_bind].
    rewrite (py_div_ok _ (LeaderReplica.active_queries_avg normal)) by done.
    cbn [mbind result_bind]. by eexists.
Qed.

(** X19: For two summaries that the extractor returned, [compare_changes]
    raises [ZeroDivisionError] exactly when the normal load average or the
    normal active-query average is zero, and returns its report otherwise:
    none of its tables divides by zero.  The percentages of the report are
    the changes over the normal averages, times 100. *)
Theorem compare_changes_outcome (name : string) (Sn Ss : list Snapshot)
    (normal spike : LeaderReplica.Summary) :
  LeaderReplica.extract_metrics Sn = Ok (Some normal) →
  LeaderReplica.extract_metrics Ss = Ok (Some spike) →
  (LeaderReplica.compare_changes_report name (Some normal) (Some spike)
   = Raise ZeroDivisionError
   ↔ (LeaderReplica.load_avg normal == 0)%Q
     ∨ (LeaderReplica.active_queries_avg normal == 0)%Q) ∧
  ((∃ rep, LeaderReplica.compare_changes_report name (Some normal) (Some spike) = Ok rep)
   ↔ ¬ (LeaderReplica.load_avg normal == 0)%Q
     ∧ ¬ (LeaderReplica.active_queries_avg normal == 0)%Q) ∧
  (∀ rep, LeaderReplica.compare_changes_report name (Some normal) (Some spike) = Ok rep →
     LeaderReplica.load_pct rep.1
     = ((LeaderReplica.load_avg spike - LeaderReplica.load_avg normal)
        / LeaderReplica.load_avg normal * 100)%Q ∧
     LeaderReplica.query_pct rep.1
     = ((LeaderReplica.active_queries_avg spike - LeaderReplica.active_queries_avg normal)
        / LeaderReplica.active_queries_avg normal * 100)%Q).
Proof.
  intros Hn Hs.
  destruct (leader_summary_counters _ _ Hn) as [Hwn Han].
  destruct (leader_summary_counters _ _ Hs) as [Hws Has].
  destruct (changes_tables_ok normal spike Hwn Han Hws Has) as [t Ht].
  destruct (compare_changes_first_sections name normal spike) as [Hzero Hok].
  unfold LeaderReplica.compare_changes_report.
  destruct (Qeq_dec (LeaderReplica.load_avg normal) 0) as [Hl|Hl].
  { rewrite Hzero by (by left). cbn [mbind result_bind].
    split; [|split]; [split; [by left|done]| |done].
    split; [by intros [? ?]|by intros [? _]]. }
  destruct (Qeq_dec (LeaderReplica.active_queries_avg normal) 0) as [Ha|Ha].
  { rewrite Hzero by (by right). cbn [mbind result_bind].
    split; [|split]; [split; [by right|done]| |done].
    split; [by intros [? ?]|by intros [_ ?]]. }
  destruct (Hok Hl Ha) as (c & -> & Hlp & Hqp).
  cbn [mbind result_bind LeaderReplica.item]. unfold id. rewrite Ht.
  cbn [mbind result_bind].
  split; [|split].
  - split; [done|by intros [?|?]].
  - split; [done|]. intros _. by eexists.
  - by intros rep [= <-].
Qed.

Lemma compare_changes_outcome_witness :
  ∃ normal spike rep,
    LeaderReplica.extract_metrics normal_period = Ok (Some normal) ∧
    LeaderReplica.extract_metrics spike_period = Ok (Some spike) ∧
    LeaderReplica.compare_changes_report "pg00 (Leader)" (Some normal) (Some spike)
    = Ok rep ∧
    (LeaderReplica.load_pct rep.1 == 150)%Q.
Proof.
  eexists _, _, _. split; [reflexivity|]. split; [reflexivity|].
  destruct (compare_changes_outcome "pg00 (Leader)" normal_period spike_period
              _ _ eq_refl eq_refl) as (_ & [_ Hok] & Hpct).
  destruct Hok as [rep Hrep]; [split; by vm_compute|].
  destruct (Hpct rep Hrep) as [Hl _].
  vm_compute in Hrep. injection Hrep as <-.
  split; [reflexivity|]. by vm_compute.
Defined.

(** ** The comparison of the two servers *)

Lemma compare_changes_report_None_l (name : string) (spike : option LeaderReplica.Summary) :
  LeaderReplica.compare_changes_report name None spike = Raise TypeError.
Proof. unfold LeaderReplica.compare_changes_report. by destruct spike. Qed.

Lemma compare_changes_report_None_r (name : string) (normal : option LeaderReplica.Summary) :
  LeaderReplica.compare_changes_report name normal None = Raise TypeError.
Proof. unfold LeaderReplica.compare_changes_report. by destruct normal. Qed.

Lemma compare_changes_report_cases (name : string) (Sn Ss : list Snapshot)
    (normal spike : LeaderReplica.Summary) :
  LeaderReplica.extract_metrics Sn = Ok (Some normal) →
  LeaderReplica.extract_metrics Ss = Ok (Some spike) →
  (((LeaderReplica.load_avg normal == 0)%Q ∨ (LeaderReplica.active_queries_avg normal == 0)%Q)
   ∧ LeaderReplica.compare_changes_report name (Some normal) (Some spike)
     = Raise ZeroDivisionError) ∨
  (¬ (LeaderReplica.load_avg normal == 0)%Q
   ∧ ¬ (LeaderReplica.active_queries_avg normal == 0)%Q
   ∧ ∃ rep, LeaderReplica.compare_changes_report name (Some normal) (Some spike) = Ok rep).
Proof.
  intros Hn Hs.
  destruct (leader_summary_counters _ _ Hn) as [Hwn Han].
  destruct (leader_summary_counters _ _ Hs) as [Hws Has].
  destruct (changes_tables_ok normal spike Hwn Han Hws Has) as [t Ht].
  destruct (compare_changes_first_sections name normal spike) as [Hzero Hok].
  unfold LeaderReplica.compare_changes_report.
  destruct (Qeq_dec (LeaderReplica.load_avg normal) 0) as [Hl|Hl].
  { left. split; [by left|]. by rewrite Hzero by (by left). }
  destruct (Qeq_dec (LeaderReplica.active_queries_avg normal) 0) as [Ha|Ha].
  { left. split; [by right|]. by rewrite Hzero by (by right). }
  right. split; [done|]. split; [done|].
  destruct (Hok Hl Ha) as (c & -> & _).
  cbn [mbind result_bind LeaderReplica.item]. unfold id. rewrite Ht.
  cbn [mbind result_bind]. by eexists.
Qed.

(** X20: The leader/replica comparison returns its report exactly when the
    four periods are extracted to summaries and the normal load average
    and the normal active-query average of both servers are non-zero.  In
    particular it never returns a report when one of the four periods is
    empty. *)
Theorem compare_leader_replica_outcome (a b c d : list Snapshot) :
  ((∃ rep, LeaderReplica.compare_leader_replica a b c d = Ok rep)
   ↔ ∃ n0 s0 n1 s1,
       LeaderReplica.extract_metrics a = Ok (Some n0) ∧
       LeaderReplica.extract_metrics b = Ok (Some s0) ∧
       LeaderReplica.extract_metrics c = Ok (Some n1) ∧
       LeaderReplica.extract_metrics d = Ok (Some s1) ∧
       ¬ (LeaderReplica.load_avg n0 == 0)%Q ∧
       ¬ (LeaderReplica.active_queries_avg n0 == 0)%Q ∧
       ¬ (LeaderReplica.load_avg n1 == 0)%Q ∧
       ¬ (LeaderReplica.active_queries_avg n1 == 0)%Q) ∧
  ((∃ rep, LeaderReplica.compare_leader_replica a b c d = Ok rep) →
   a ≠ [] ∧ b ≠ [] ∧ c ≠ [] ∧ d ≠ []).
Proof.
  assert (Hiff : (∃ rep, LeaderReplica.compare_leader_replica a b c d = Ok rep)
   ↔ ∃ n0 s0 n1 s1,
       LeaderReplica.extract_metrics a = Ok (Some n0) ∧
       LeaderReplica.extract_metrics b = Ok (Some s0) ∧
       LeaderReplica.extract_metrics c = Ok (Some n1) ∧
       LeaderReplica.extract_metrics d = Ok (Some s1) ∧
       ¬ (LeaderReplica.load_avg n0 == 0)%Q ∧
       ¬ (LeaderReplica.active_queries_avg n0 == 0)%Q ∧
       ¬ (LeaderReplica.load_avg n1 == 0)%Q ∧
       ¬ (LeaderReplica.active_queries_avg n1 == 0)%Q).
  { unfold LeaderReplica.compare_leader_replica. split.
    - intros [rep H].
      apply bind_Ok in H as (x0 & Ha & H). apply bind_Ok in H as (y0 & Hb & H).
      apply bind_Ok in H as (x1 & Hc & H). apply bind_Ok in H as (y1 & Hd & H).
      apply bind_Ok in H as (r0 & Hr0 & H). apply bind_Ok in H as (r1 & Hr1 & H).
      destruct x0 as [n0|]; [|by rewrite compare_changes_report_None_l in Hr0].
      destruct y0 as [s0|]; [|by rewrite compare_changes_report_None_r in Hr0].
      destruct x1 as [n1|]; [|by rewrite compare_changes_report_None_l in Hr1].
      destruct y1 as [s1|]; [|by rewrite compare_changes_report_None_r in Hr1].
      exists n0, s0, n1, s1. repeat (split; [done|]).
      destruct (compare_changes_report_cases "pg00 (Leader)" a b n0 s0 Ha Hb)
        as [[_ E]|(? & ? & _)]; [congruence|].
      destruct (compare_changes_report_cases "pg01 (Replica)" c d n1 s1 Hc Hd)
        as [[_ E]|(? & ? & _)]; [congruence|].
      done.
    - intros (n0 & s0 & n1 & s1 & Hea & Heb & Hec & Hed & Hl0 & Ha0 & Hl1 & Ha1).
      rewrite Hea, Heb, Hec, Hed. cbn [mbind result_bind].
      destruct (compare_changes_report_cases "pg00 (Leader)" a b n0 s0 Hea Heb)
        as [[[?|?] _]|(_ & _ & r0 & ->)]; try done.
      cbn [mbind result_bind].
      destruct (compare_changes_report_cases "pg01 (Replica)" c d n1 s1 Hec Hed)
        as [[[?|?] _]|(_ & _ & r1 & ->)]; try done.
      cbn [mbind result_bind LeaderReplica.item]. unfold id.
      rewrite (py_div_ok _ (LeaderReplica.load_avg n0)) by done.
      cbn [mbind result_bind].
      rewrite (py_div_ok _ (LeaderReplica.load_avg n1)) by done.
      cbn [mbind result_bind]. by eexists. }
  split; [exact Hiff|].
  intros (n0 & s0 & n1 & s1 & Ha & Hb & Hc & Hd & _)%Hiff.
  repeat split; intros ->; discriminate.
Qed.



(** ** The duration section *)

Lemma max_bounds_mean_median (l : list Q) (mx av md : Q) :
  py_max l = Ok mx → mean l = Ok av → median l = Ok md →
  mx ∈ l ∧ (∀ v, v ∈ l → (v <= mx)%Q) ∧ (av <= mx)%Q ∧ (md <= mx)%Q ∧
  av = (Qsum l / Qlen l)%Q.
Proof.
  destruct l as [|x r]; [done|]. intros [= <-] [= <-] Hmd.
  destruct (fold_min_spec r x) as [_ Hmin], (fold_max_spec r x) as [Hmax_in Hmax].
  assert (Hb : ∀ v, v ∈ x :: r →
            (fold_left (fun m y => if Qltb y m then y else m) r x <= v)%Q
            ∧ (v <= fold_left (fun m y => if Qltb m y then y else m) r x)%Q)
    by (intros v Hv; split; [by apply Hmin|by apply Hmax]).
  destruct (mean_bounds (x :: r) _ _ ltac:(done) Hb) as [_ ?].
  destruct (median_bounds (x :: r) _ _ md Hb Hmd) as [_ ?].
  repeat split; try done; intros v Hv; by apply Hb.
Qed.

(** X22: The duration section of the report is left out exactly when one of
    the two periods has no query observation.  When it is there, its means
    are the arithmetic means of the durations of each period, its maxima
    are attained and bound every duration, mean and median of a period do
    not exceed its maximum, and the percentage is 0 unless the normal mean
    is positive. *)
Theorem duration_section (normal spike : Analyze.Summary) :
  ∃ r st,
    Analyze.compare_metrics normal spike = Ok (r, st) ∧
    (Analyze.duration r = None
     ↔ Analyze.query_durations normal = [] ∨ Analyze.query_durations spike = []) ∧
    (∀ d, Analyze.duration r = Some d →
       let dn := Analyze.query_durations normal in
       let ds := Analyze.query_durations spike in
       Analyze.normal_avg d = (Qsum dn / Qlen dn)%Q ∧
       Analyze.spike_avg d = (Qsum ds / Qlen ds)%Q ∧
       Analyze.normal_max d ∈ dn ∧ Analyze.spike_max d ∈ ds ∧
       (∀ v, v ∈ dn → (v <= Analyze.normal_max d)%Q) ∧
       (∀ v, v ∈ ds → (v <= Analyze.spike_max d)%Q) ∧
       (Analyze.normal_avg d <= Analyze.normal_max d)%Q ∧
       (Analyze.normal_median d <= Analyze.normal_max d)%Q ∧
       (Analyze.spike_avg d <= Analyze.spike_max d)%Q ∧
       (Analyze.spike_median d <= Analyze.spike_max d)%Q ∧
       Analyze.duration_diff d = (Analyze.spike_avg d - Analyze.normal_avg d)%Q ∧
       Analyze.duration_pct d = guarded_pct (Analyze.duration_diff d) (Analyze.normal_avg d)).
Proof.
  destruct (compare_metrics_run normal spike) as (d0 & fs & Hd & _ & Hr).
  eexists _, _. split; [exact Hr|]. cbn [Analyze.duration].
  unfold Analyze.compare_durations in Hd.
  destruct (Analyze.query_durations normal) as [|x xs] eqn:En.
  { injection Hd as <-. split; [split; [by left|done]|done]. }
  destruct (Analyze.query_durations spike) as [|y ys] eqn:Es.
  { injection Hd as <-. split; [split; [by right|done]|done]. }
  cbn [nonempty andb] in Hd.
  apply bind_Ok in Hd as (na & Hna & Hd). apply bind_Ok in Hd as (sa & Hsa & Hd).
  apply bind_Ok in Hd as (nm & Hnm & Hd). apply bind_Ok in Hd as (sm & Hsm & Hd).
  apply bind_Ok in Hd as (nx & Hnx & Hd). apply bind_Ok in Hd as (sx & Hsx & Hd).
  injection Hd as <-.
  destruct (max_bounds_mean_median _ _ _ _ Hnx Hna Hnm) as (? & ? & ? & ? & ?).
  destruct (max_bounds_mean_median _ _ _ _ Hsx Hsa Hsm) as (? & ? & ? & ? & ?).
  split.
  - split; [done|]. by intros [?|?].
  - intros d [= <-]. cbn. repeat split; done.
Qed.

(** ** The shares of long queries and lock waits *)

(** X23: In the per-server report of two extracted summaries, the percentages
    of long queries and of lock waits of either period lie between 0 and
    100: they are shares of the queries observed. *)
Theorem change_shares_are_percentages (name : string) (Sn Ss : list Snapshot)
    (normal spike : LeaderReplica.Summary) (c : LeaderReplica.Changes) :
  LeaderReplica.extract_metrics Sn = Ok (Some normal) →
  LeaderReplica.extract_metrics Ss = Ok (Some spike) →
  LeaderReplica.compare_changes name (Some normal) (Some spike) = Ok c →
  (0 <= LeaderReplica.long_normal_pct c)%Q ∧ (LeaderReplica.long_normal_pct c <= 100)%Q ∧
  (0 <= LeaderReplica.long_spike_pct c)%Q ∧ (LeaderReplica.long_spike_pct c <= 100)%Q ∧
  (0 <= LeaderReplica.lock_normal_pct c)%Q ∧ (LeaderReplica.lock_normal_pct c <= 100)%Q ∧
  (0 <= LeaderReplica.lock_spike_pct c)%Q ∧ (LeaderReplica.lock_spike_pct c <= 100)%Q ∧
  (length (LeaderReplica.top_longest c) ≤ 5)%nat.
Proof.
  intros Hn Hs Hc.
  assert (Hshare : ∀ {A} (l : list A) (t : nat), (length l ≤ t)%nat →
    let p := if (0 <? t)%nat then (Qlen l / inject_Z (Z.of_nat t) * 100)%Q else 0%Q in
    (0 <= p)%Q ∧ (p <= 100)%Q).
  { intros A l t Hle p. unfold p. destruct (0 <? t)%nat eqn:E; [|split; lra].
    apply Nat.ltb_lt in E. fold (Qnat t).
    pose proof (Qnat_pos t E) as Ht. pose proof (Qlen_nonneg l) as Hl.
    assert (Qlen l <= Qnat t)%Q as Hlt by (by apply Qnat_le).
    split.
    - apply Qmult_le_0_compat; [|lra]. apply Qle_shift_div_l; [done|lra].
    - assert (Qlen l / Qnat t <= 1)%Q by (apply Qle_shift_div_r; [done|lra]). lra. }
  apply leader_summary_fields in Hn as (_ & _ & _ & _ & Htn & _ & _ & _ & Hln & Hkn & _).
  apply leader_summary_fields in Hs as (_ & _ & _ & _ & Hts & _ & _ & _ & Hls & Hks & _).
  assert (length (LeaderReplica.long_queries normal) ≤ LeaderReplica.total_queries normal
          ∧ length (LeaderReplica.lock_waits normal) ≤ LeaderReplica.total_queries normal
          ∧ length (LeaderReplica.long_queries spike) ≤ LeaderReplica.total_queries spike
          ∧ length (LeaderReplica.lock_waits spike) ≤ LeaderReplica.total_queries spike)%nat
    as (H1 & H2 & H3 & H4).
  { rewrite Htn, Hts, Hln, Hkn, Hls, Hks, !length_fmap.
    repeat split; apply length_filter. }
  unfold LeaderReplica.compare_changes in Hc.
  cbn [LeaderReplica.item mbind result_bind] in Hc.
  apply bind_Ok in Hc as (q1 & _ & Hc). apply bind_Ok in Hc as (q2 & _ & Hc).
  injection Hc as <-.
  cbn [LeaderReplica.long_normal_pct LeaderReplica.long_spike_pct
       LeaderReplica.lock_normal_pct LeaderReplica.lock_spike_pct
       LeaderReplica.top_longest].
  destruct (Hshare _ _ _ H1), (Hshare _ _ _ H2), (Hshare _ _ _ H3), (Hshare _ _ _ H4).
  repeat split; try done.
  destruct (0 <? length (LeaderReplica.long_queries spike))%nat; [|simpl; lia].
  rewrite length_take. lia.
Qed.

Lemma change_shares_are_percentages_witness :
  ∃ normal spike c,
    LeaderReplica.extract_metrics normal_period = Ok (Some normal) ∧
    LeaderReplica.extract_metrics spike_period = Ok (Some spike) ∧
    LeaderReplica.compare_changes "pg00 (Leader)" (Some normal) (Some spike) = Ok c ∧
    (0 <= LeaderReplica.long_spike_pct c)%Q ∧ (LeaderReplica.long_spike_pct c <= 100)%Q.
Proof.
  eexists _, _, _. split; [reflexivity|]. split; [reflexivity|].
  match goal with |- ?a = ?b ∧ _ => assert (H : a = b) by reflexivity end.
  split; [exact H|].
  destruct (change_shares_are_percentages "pg00 (Leader)" normal_period spike_period
              _ _ _ eq_refl eq_refl H)
    as (_ & _ & H1 & H2 & _).
  split; [exact H1 | exact H2].
Defined.
